(** * h1module: a shallow embedding of [h1.go]

    The program is a command-line client of the HackerOne "hackers" API.
    Its effects (standard output, HTTP requests, sleeping, writing a file,
    [log.Fatal]) are modelled by a small state monad over an event trace;
    the outside world (environment variables, arguments, the server, the
    file system) is an explicit record of oracles. *)

From Stdlib Require Import ZArith Lia String Ascii List DecimalString Permutation.
From stdpp Require Import base option strings gmap list.

Local Open Scope Z_scope.


(** ** Go strings

    A Go [string] is a sequence of bytes: Rocq's [string] (a list of
    [ascii], one per byte) is the same thing. *)

Module GoStrings.

(** [len(s)] *)
Definition len (s : string) : nat := String.length s.

(** [s[:n]] for [n <= len(s)] *)
Definition slice_to (s : string) (n : nat) : string := substring 0 n s.

(** [s[n:]] for [n <= len(s)] *)
Definition slice_from (s : string) (n : nat) : string :=
  substring n (len s - n) s.

(** [strings.HasPrefix]:
    [return len(s) >= len(prefix) && s[:len(prefix)] == prefix] *)
Definition HasPrefix (s pre : string) : bool :=
  (len pre <=? len s)%nat && String.eqb (slice_to s (len pre)) pre.

(** [strings.TrimPrefix]:
    [if HasPrefix(s, prefix) { return s[len(prefix):] }; return s] *)
Definition TrimPrefix (s pre : string) : string :=
  if HasPrefix s pre then slice_from s (len pre) else s.

(** The ASCII branch of [strings.ToLower]: every byte in ['A'..'Z'] gets
    ['a' - 'A'] added, every other byte is kept. *)
Definition lower_byte (c : ascii) : ascii :=
  let n := nat_of_ascii c in
  if (65 <=? n)%nat && (n <=? 90)%nat then ascii_of_nat (n + 32) else c.

Fixpoint lower_ascii (s : string) : string :=
  match s with
  | EmptyString => EmptyString
  | String c s' => String (lower_byte c) (lower_ascii s')
  end.

(** [c >= utf8.RuneSelf] fails for every byte of [s] *)
Fixpoint isASCII (s : string) : bool :=
  match s with
  | EmptyString => true
  | String c s' => (nat_of_ascii c <? 128)%nat && isASCII s'
  end.

(** [strings.ToLower].  The standard library lowers an all-ASCII string
    byte by byte; any other string goes through
    [strings.Map(unicode.ToLower, s)], which depends on the Unicode case
    tables and is taken as the parameter [unicode_lower]. *)
Definition ToLower (unicode_lower : string -> string) (s : string) : string :=
  if isASCII s then lower_ascii s else unicode_lower s.

(** [fmt]'s [%d] verb on an integer *)
Definition fmt_d (z : Z) : string := NilZero.string_of_int (Z.to_int z).

(** [fmt]'s [%t] verb *)
Definition fmt_t (b : bool) : string := if b then "true" else "false".

(** The line feed, written ["\n"] in Go. *)
Definition nl : string := String (ascii_of_nat 10) EmptyString.

End GoStrings.
Export GoStrings.

(** ** Go integers: [int] is 64 bits wide, and [page++] wraps around. *)

Definition int_min : Z := - 2 ^ 63.
Definition int_max : Z := 2 ^ 63 - 1.
Definition int_wrap (z : Z) : Z := (z + 2 ^ 63) mod 2 ^ 64 - 2 ^ 63.

(** ** Slices

    A slice value is [nil] or a (possibly empty) sequence; the difference
    is visible to [encoding/json] ([null] against [[]]). *)

Definition slice (A : Type) : Type := option (list A).

Definition elems {A} (s : slice A) : list A := default [] s.

(** [append(s, xs...)]: with nothing to add the slice itself comes back,
    so [nil] stays [nil]. *)
Definition append {A} (s : slice A) (xs : list A) : slice A :=
  match xs with
  | [] => s
  | _ :: _ => Some (elems s ++ xs)
  end.

(** ** Data model (lines 14-78 of [h1.go]) *)

(** Go's [error], observed through its [Error()] text. *)
Definition Error : Type := string.

(** [time.Duration]: nanoseconds. *)
Definition Duration : Type := Z.
Definition Millisecond : Duration := 1000000.

Record H1Client := {
  Username : string;
  APIToken : string;
  BaseURL : string;
  RateLimitDelay : Duration
}.

Record ProgramAttributes := {
  Handle : string;
  Name : string;
  Currency : string;
  Policy : string;
  State : string;
  OffersBounties : bool;
  OpenScope : bool
}.

Record Program := {
  ID : string;
  Type_ : string;
  Attributes : ProgramAttributes
}.

Record ProgramsResponse := {
  Data : list Program;
  Links : gmap string string
}.

Record ScopeAttributes := {
  AssetType : string;
  AssetIdentifier : string;
  EligibleForBounty : bool;
  EligibleForSubmission : bool;
  Instruction : string;
  MaxSeverity : string
}.

Record StructuredScope := {
  scope_ID : string;
  scope_Type : string;
  scope_Attributes : ScopeAttributes
}.

Record StructuredScopesResponse := {
  scopes_Data : list StructuredScope;
  scopes_Links : gmap string string
}.

Record WeaknessAttributes := {
  weakness_Name : string;
  Description : string;
  ExternalID : string
}.

Record Weakness := {
  weakness_ID : string;
  weakness_Type : string;
  weakness_Attributes : WeaknessAttributes
}.

Record WeaknessesResponse := {
  weaknesses_Data : list Weakness;
  weaknesses_Links : gmap string string
}.

(** [NewH1Client] *)
Definition hackers_api : string := "https://api.hackerone.com/v1/hackers".

Definition NewH1Client (username token : string) : H1Client :=
  {| Username := username;
     APIToken := token;
     BaseURL := "https://api.hackerone.com/v1/hackers";
     RateLimitDelay := 100 * Millisecond |}.

(** [extractEndpoint] *)
Definition extractEndpoint (fullURL : string) : string :=
  let baseURL := "https://api.hackerone.com/v1/hackers" in
  if HasPrefix fullURL baseURL then TrimPrefix fullURL baseURL else fullURL.

(** ** The outside world and the effects of the program *)

(** An [*http.Request] as [makeRequest] builds it.  [SetBasicAuth] is kept
    as the pair it was given instead of the encoded [Authorization]
    header. *)
Record Request := {
  Method : string;
  URL : string;
  Header : gmap string string;
  BasicAuth : option (string * string)
}.

(** What [ioutil.ReadAll(resp.Body)] will give. *)
Inductive BodyRead :=
| ReadOK (data : string)
| ReadFailed (err : Error).

(** An [*http.Response]. *)
Record Response := {
  Status : string;
  StatusCode : Z;
  Body : BodyRead
}.

Inductive result (A : Type) :=
| Ok (a : A)
| Err (e : Error).
Arguments Ok {A} a.
Arguments Err {A} e.

Definition StatusOK : Z := 200.

(** The oracles the program consults: the environment, [os.Args] (the
    program name first), the server, the file system.  [server k req] is
    the outcome of [client.Do(req)] when [k] calls were made before it. *)
Record World := {
  Environ : gmap string string;
  Args : list string;
  server : nat -> Request -> result Response;
  WriteFile_result : string -> string -> Z -> option Error
}.

(** The library functions whose result the model takes as given:
    [http.NewRequest] (it fails on a method or URL it cannot parse), the
    four uses of [json.Unmarshal] on a response body, and the Unicode
    branch of [strings.ToLower]. *)
Record GoLib := {
  NewRequest_check : string -> string -> option Error;
  Unmarshal_ProgramsResponse : string -> result ProgramsResponse;
  Unmarshal_StructuredScopesResponse : string -> result StructuredScopesResponse;
  Unmarshal_WeaknessesResponse : string -> result WeaknessesResponse;
  Unmarshal_ProgramEnvelope : string -> result Program;
  unicode_lower : string -> string
}.

(** What the program does to the world, in order. *)
Inductive Event :=
| Stdout (text : string)
| HttpDo (req : Request)
| BodyReadAll
| BodyClose
| Sleep (d : Duration)
| WriteFile (filename data : string) (perm : Z)
| LogFatal (msg : string).

Record Machine := {
  calls : nat;
  trace : list Event
}.

Definition boot : Machine := {| calls := 0; trace := [] |}.

(** A computation returns, leaves the process through [os.Exit], or is
    still running when the fuel is spent. *)
Inductive Res (A : Type) :=
| Ret (a : A) (m : Machine)
| Exit (code : Z) (m : Machine)
| Running.
Arguments Ret {A} a m.
Arguments Exit {A} code m.
Arguments Running {A}.

Definition M (A : Type) : Type := Machine -> Res A.

Definition ret {A} (a : A) : M A := fun m => Ret a m.

Definition bind {A B} (x : M A) (f : A -> M B) : M B :=
  fun m => match x m with
           | Ret a m' => f a m'
           | Exit code m' => Exit code m'
           | Running => Running
           end.

Declare Scope go_scope.
Delimit Scope go_scope with go.
Notation "'let*' x ':=' c1 'in' c2" := (bind c1 (fun x => c2))
  (at level 10, x pattern, c1 at level 100, c2 at level 200) : go_scope.
Notation "c1 ;; c2" := (bind c1 (fun _ => c2))
  (at level 100, c2 at level 200, right associativity) : go_scope.
Local Open Scope go_scope.

Definition emit (e : Event) : M unit :=
  fun m => Ret tt {| calls := calls m; trace := trace m ++ [e] |}.

(** [fmt.Printf] / [fmt.Println], already formatted *)
Definition print (text : string) : M unit := emit (Stdout text).

(** [time.Sleep] *)
Definition time_Sleep (d : Duration) : M unit := emit (Sleep d).

(** [log.Fatal]: the message is logged and the process exits with 1. *)
Definition log_Fatal {A} (msg : string) : M A :=
  fun m => Exit 1 {| calls := calls m; trace := trace m ++ [LogFatal msg] |}.

(** [client.Do(req)] *)
Definition client_Do (w : World) (req : Request) : M (result Response) :=
  fun m => Ret (server w (calls m) req)
               {| calls := S (calls m); trace := trace m ++ [HttpDo req] |}.

(** [ioutil.ReadAll(resp.Body)] *)
Definition ioutil_ReadAll (resp : Response) : M BodyRead :=
  emit BodyReadAll ;; ret (Body resp).

(** [ioutil.WriteFile] *)
Definition ioutil_WriteFile (w : World) (filename data : string) (perm : Z)
  : M (option Error) :=
  emit (WriteFile filename data perm) ;;
  ret (WriteFile_result w filename data perm).

(** ** [makeRequest] (lines 91-119) *)

Definition new_request (method url : string) : Request :=
  {| Method := method; URL := url; Header := ∅; BasicAuth := None |}.

Definition Header_Set (req : Request) (key value : string) : Request :=
  {| Method := Method req; URL := URL req;
     Header := <[key := value]> (Header req); BasicAuth := BasicAuth req |}.

Definition SetBasicAuth (req : Request) (username password : string) : Request :=
  {| Method := Method req; URL := URL req;
     Header := Header req; BasicAuth := Some (username, password) |}.

(** The request [makeRequest] sends: [http.NewRequest(method, url, nil)]
    with the [Accept] header and the basic-auth credentials of the
    client. *)
Definition prepare (c : H1Client) (method url : string) : Request :=
  let req := new_request method url in
  let req := Header_Set req "Accept" "application/json" in
  SetBasicAuth req (Username c) (APIToken c).

(** [([]byte, error)]: [None] is [nil] on either side. *)
Definition bytes_err : Type := option string * option Error.

Definition makeRequest (lib : GoLib) (w : World) (c : H1Client)
    (method endpoint : string) : M bytes_err :=
  let url := BaseURL c +:+ endpoint in
  match NewRequest_check lib method url with
  | Some err => ret (None, Some err)
  | None =>
    let req := prepare c method url in
    let* r := client_Do w req in
    match r with
    | Err err => ret (None, Some err)
    | Ok resp =>
      (* defer resp.Body.Close() runs on each return below *)
      if negb (StatusCode resp =? StatusOK) then
        emit BodyClose ;;
        ret (None, Some ("API request failed with status: " +:+ Status resp))
      else
        let* b := ioutil_ReadAll resp in
        emit BodyClose ;;
        match b with
        | ReadFailed err => ret (None, Some err)
        | ReadOK body => ret (Some body, None)
        end
    end
  end.

(** ** [GetAllProgramsPaginated] (lines 122-158)

    The [for nextURL != ""] loop, one unit of fuel per iteration; the loop
    variables [allPrograms], [nextURL] and [page] are the arguments. *)

Definition page_list : Type := slice Program * option Error.

Fixpoint paginate (lib : GoLib) (w : World) (c : H1Client) (fuel : nat)
    (allPrograms : slice Program) (nextURL : string) (page : Z)
    : M page_list :=
  if String.eqb nextURL "" then ret (allPrograms, None) else
  match fuel with
  | O => fun _ => Running
  | S fuel' =>
    print ("Fetching page " +:+ fmt_d page +:+ "..." +:+ nl) ;;
    let* (body, err) := makeRequest lib w c "GET" nextURL in
    match err with
    | Some err =>
      ret (None, Some ("error fetching page " +:+ fmt_d page +:+ ": " +:+ err))
    | None =>
      match Unmarshal_ProgramsResponse lib (default "" body) with
      | Err err =>
        ret (None, Some ("error parsing page " +:+ fmt_d page +:+ ": " +:+ err))
      | Ok response =>
        let allPrograms := append allPrograms (Data response) in
        print ("Page " +:+ fmt_d page +:+ ": fetched "
               +:+ fmt_d (Z.of_nat (length (Data response)))
               +:+ " programs (total: "
               +:+ fmt_d (Z.of_nat (length (elems allPrograms)))
               +:+ ")" +:+ nl) ;;
        match Links response !! "next" with
        | Some nextLink =>
          if negb (String.eqb nextLink "") then
            let nextURL := extractEndpoint nextLink in
            let page := int_wrap (page + 1) in
            time_Sleep (RateLimitDelay c) ;;
            paginate lib w c fuel' allPrograms nextURL page
          else
            paginate lib w c fuel' allPrograms "" page
        | None =>
          paginate lib w c fuel' allPrograms "" page
        end
      end
    end
  end.

Definition GetAllProgramsPaginated (lib : GoLib) (w : World) (c : H1Client)
    (fuel : nat) : M page_list :=
  paginate lib w c fuel None "/programs" 1.

(** ** [encoding/json] and [unicode/utf8], as far as the program uses them *)

Module utf8.

Definition byte (c : ascii) : Z := Z.of_nat (nat_of_ascii c).
Definition chr (b : Z) : ascii := ascii_of_nat (Z.to_nat b).

Definition RuneError : Z := 0xFFFD.
Definition RuneSelf : Z := 0x80.
Definition MaxRune : Z := 0x10FFFF.

(** The [first] table with [acceptRanges]: for a leading byte, the width of
    the encoding and the range its second byte must lie in; [None] for the
    bytes marked [xx] (invalid) and [as] (ASCII, handled before). *)
Definition first (b0 : Z) : option (nat * Z * Z) :=
  if (0xC2 <=? b0) && (b0 <=? 0xDF) then Some (2%nat, 0x80, 0xBF)
  else if b0 =? 0xE0 then Some (3%nat, 0xA0, 0xBF)
  else if (0xE1 <=? b0) && (b0 <=? 0xEC) then Some (3%nat, 0x80, 0xBF)
  else if b0 =? 0xED then Some (3%nat, 0x80, 0x9F)
  else if (0xEE <=? b0) && (b0 <=? 0xEF) then Some (3%nat, 0x80, 0xBF)
  else if b0 =? 0xF0 then Some (4%nat, 0x90, 0xBF)
  else if (0xF1 <=? b0) && (b0 <=? 0xF3) then Some (4%nat, 0x80, 0xBF)
  else if b0 =? 0xF4 then Some (4%nat, 0x80, 0x8F)
  else None.

Definition in_range (lo hi b : Z) : bool := (lo <=? b) && (b <=? hi).

(** [utf8.DecodeRuneInString]: the rune at the head of [s] and its width;
    [(RuneError, 1)] for an encoding that is not valid, [(RuneError, 0)]
    for the empty string. *)
Definition DecodeRune (s : string) : Z * nat :=
  match s with
  | EmptyString => (RuneError, 0%nat)
  | String c0 s1 =>
    let s0 := byte c0 in
    if s0 <? RuneSelf then (s0, 1%nat) else
    match first s0 with
    | None => (RuneError, 1%nat)
    | Some (sz, lo, hi) =>
      match s1 with
      | EmptyString => (RuneError, 1%nat)
      | String c1 s2 =>
        let b1 := byte c1 in
        if negb (in_range lo hi b1) then (RuneError, 1%nat) else
        if (sz <=? 2)%nat then
          (Z.lor (Z.shiftl (Z.land s0 0x1F) 6) (Z.land b1 0x3F), 2%nat)
        else
        match s2 with
        | EmptyString => (RuneError, 1%nat)
        | String c2 s3 =>
          let b2 := byte c2 in
          if negb (in_range 0x80 0xBF b2) then (RuneError, 1%nat) else
          if (sz <=? 3)%nat then
            (Z.lor (Z.lor (Z.shiftl (Z.land s0 0x0F) 12)
                          (Z.shiftl (Z.land b1 0x3F) 6))
                   (Z.land b2 0x3F), 3%nat)
          else
          match s3 with
          | EmptyString => (RuneError, 1%nat)
          | String c3 _ =>
            let b3 := byte c3 in
            if negb (in_range 0x80 0xBF b3) then (RuneError, 1%nat) else
            (Z.lor (Z.lor (Z.lor (Z.shiftl (Z.land s0 0x07) 18)
                                 (Z.shiftl (Z.land b1 0x3F) 12))
                          (Z.shiftl (Z.land b2 0x3F) 6))
                   (Z.land b3 0x3F), 4%nat)
          end
        end
      end
    end
  end.

Definition cont (x : Z) : ascii := chr (Z.lor 0x80 (Z.land x 0x3F)).

(** [utf8.EncodeRune] (and [AppendRune]): surrogates and values outside
    the Unicode range are written as [RuneError]. *)
Definition EncodeRune (r : Z) : string :=
  if (0 <=? r) && (r <=? 0x7F) then String (chr r) EmptyString
  else if (0 <=? r) && (r <=? 0x7FF) then
    String (chr (Z.lor 0xC0 (Z.shiftr r 6))) (String (cont r) EmptyString)
  else
    let r3 := if (r <? 0) || (MaxRune <? r)
                 || ((0xD800 <=? r) && (r <=? 0xDFFF))
              then RuneError else r in
    if r3 <=? 0xFFFF then
      String (chr (Z.lor 0xE0 (Z.shiftr r3 12)))
        (String (cont (Z.shiftr r3 6)) (String (cont r3) EmptyString))
    else
      String (chr (Z.lor 0xF0 (Z.shiftr r3 18)))
        (String (cont (Z.shiftr r3 12))
           (String (cont (Z.shiftr r3 6)) (String (cont r3) EmptyString))).

(** [s[n:]], stopping at the end of [s]. *)
Fixpoint skip (n : nat) (s : string) : string :=
  match n, s with
  | S n', String _ s' => skip n' s'
  | _, _ => s
  end.

(** [s[:n]], stopping at the end of [s]. *)
Fixpoint take (n : nat) (s : string) : string :=
  match n, s with
  | S n', String c s' => String c (take n' s')
  | _, _ => EmptyString
  end.

(** [utf8.ValidString] *)
Fixpoint Valid (fuel : nat) (s : string) : bool :=
  match fuel with
  | O => match s with EmptyString => true | _ => false end
  | S fuel' =>
    match s with
    | EmptyString => true
    | String _ _ =>
      let '(r, size) := DecodeRune s in
      if (r =? RuneError) && (size =? 1)%nat then false
      else Valid fuel' (skip size s)
    end
  end.

Definition ValidString (s : string) : bool := Valid (String.length s) s.


(** *** Notions for the proofs about encodings *)

(** The shapes of a valid encoding at the head of a string. *)
Inductive encoding : string -> Z -> nat -> Prop :=
| enc_ascii c s :
    byte c < RuneSelf -> encoding (String c s) (byte c) 1
| enc_two c0 c1 s :
    0xC2 <= byte c0 <= 0xDF -> 0x80 <= byte c1 <= 0xBF ->
    encoding (String c0 (String c1 s))
             (Z.lor (Z.shiftl (Z.land (byte c0) 0x1F) 6) (Z.land (byte c1) 0x3F)) 2
| enc_three c0 c1 c2 s :
    0xE0 <= byte c0 <= 0xEF -> 0x80 <= byte c1 <= 0xBF ->
    0x80 <= byte c2 <= 0xBF ->
    (byte c0 = 0xE0 -> 0xA0 <= byte c1) -> (byte c0 = 0xED -> byte c1 <= 0x9F) ->
    encoding (String c0 (String c1 (String c2 s)))
             (Z.lor (Z.lor (Z.shiftl (Z.land (byte c0) 0x0F) 12)
                           (Z.shiftl (Z.land (byte c1) 0x3F) 6))
                    (Z.land (byte c2) 0x3F)) 3
| enc_four c0 c1 c2 c3 s :
    0xF0 <= byte c0 <= 0xF4 -> 0x80 <= byte c1 <= 0xBF ->
    0x80 <= byte c2 <= 0xBF -> 0x80 <= byte c3 <= 0xBF ->
    (byte c0 = 0xF0 -> 0x90 <= byte c1) -> (byte c0 = 0xF4 -> byte c1 <= 0x8F) ->
    encoding (String c0 (String c1 (String c2 (String c3 s))))
             (Z.lor (Z.lor (Z.lor (Z.shiftl (Z.land (byte c0) 0x07) 18)
                                  (Z.shiftl (Z.land (byte c1) 0x3F) 12))
                           (Z.shiftl (Z.land (byte c2) 0x3F) 6))
                    (Z.land (byte c3) 0x3F)) 4.

(** Every byte of the string is outside ASCII. *)
Fixpoint high (p : string) : Prop :=
  match p with
  | EmptyString => True
  | String c p' => RuneSelf <= byte c /\ high p'
  end.


(** [s] with every byte that is not part of a valid encoding replaced by
    the encoding of [RuneError], one replacement a byte: the string
    [encoding/json] reads back from what it wrote for [s].  The fuel
    bounds the bytes left. *)
Fixpoint replace_loop (fuel : nat) (s : string) : string :=
  match fuel with
  | O => EmptyString
  | S fuel' =>
    match s with
    | EmptyString => EmptyString
    | String _ rest =>
      let '(r, size) := DecodeRune s in
      if (r =? RuneError) && (size =? 1)%nat
      then EncodeRune RuneError +:+ replace_loop fuel' rest
      else take size s +:+ replace_loop fuel' (skip size s)
    end
  end.

Definition replace_invalid (s : string) : string :=
  replace_loop (String.length s) s.

End utf8.

Module json.
Import utf8.

(** A JSON text as [encoding/json] reads and writes it.  A string holds
    the Go string (bytes); a number keeps its literal. *)
#[local] Set Warnings "-register-all".
Inductive value :=
| Null
| Bool (b : bool)
| Number (lit : string)
| Str (s : string)
| Array (items : list value)
| Object (members : list (string * value)).

Definition quote : ascii := ascii_of_nat 34.
Definition backslash : ascii := ascii_of_nat 92.

Definition hex_digit (x : Z) : ascii :=
  if x <? 10 then chr (48 + x) else chr (87 + x).

(** [htmlSafeSet]: the ASCII bytes written as they are when HTML escaping
    is on: all from the space up, apart from the quote, [&], [<], [>] and
    the backslash. *)
Definition htmlSafe (b : Z) : bool :=
  (0x20 <=? b) && negb ((b =? 34) || (b =? 38) || (b =? 60) || (b =? 62) || (b =? 92)).

(** The [switch b] of [appendString] for an ASCII byte outside the safe
    set. *)
Definition escape_byte (b : Z) : string :=
  if (b =? 92) || (b =? 34) then String backslash (String (chr b) EmptyString)
  else if b =? 8 then String backslash "b"
  else if b =? 12 then String backslash "f"
  else if b =? 10 then String backslash "n"
  else if b =? 13 then String backslash "r"
  else if b =? 9 then String backslash "t"
  else String backslash
         ("u00" +:+ String (hex_digit (Z.shiftr b 4))
                      (String (hex_digit (Z.land b 0xF)) EmptyString)).

(** The loop of [appendString(dst, src, escapeHTML = true)] from position
    [i]; [s] is [src[i:]] and the fuel bounds the bytes left. *)
Fixpoint escape (fuel : nat) (s : string) : string :=
  match fuel with
  | O => EmptyString
  | S fuel' =>
    match s with
    | EmptyString => EmptyString
    | String c rest =>
      let b := byte c in
      if b <? RuneSelf then
        if htmlSafe b then String c (escape fuel' rest)
        else escape_byte b +:+ escape fuel' rest
      else
        let '(r, size) := DecodeRune s in
        if (r =? RuneError) && (size =? 1)%nat then
          String backslash "ufffd" +:+ escape fuel' rest
        else if (r =? 0x2028) || (r =? 0x2029) then
          String backslash
            ("u202" +:+ String (hex_digit (Z.land r 0xF)) EmptyString)
          +:+ escape fuel' (skip size s)
        else take size s +:+ escape fuel' (skip size s)
    end
  end.

Definition appendString (s : string) : string :=
  String quote (escape (String.length s) s +:+ String quote EmptyString).

(** [appendNewline(dst, prefix = "", indent = "  ", depth)] *)
Fixpoint indentation (depth : nat) : string :=
  match depth with
  | O => EmptyString
  | S d => "  " +:+ indentation d
  end.

Definition newline (depth : nat) : string := nl +:+ indentation depth.

(** The text [MarshalIndent(v, "", "  ")] writes for a value: the compact
    encoding as [Indent] lays it out, one element or member per line, an
    empty array or object kept as [[]] or [{}]. *)
Fixpoint render (depth : nat) (v : value) : string :=
  match v with
  | Null => "null"
  | Bool b => fmt_t b
  | Number lit => lit
  | Str s => appendString s
  | Array [] => "[]"
  | Array (x :: xs) =>
    "[" +:+ newline (S depth) +:+ render (S depth) x +:+
    (fix rest (l : list value) : string :=
       match l with
       | [] => EmptyString
       | y :: l' => "," +:+ newline (S depth) +:+ render (S depth) y +:+ rest l'
       end) xs +:+
    newline depth +:+ "]"
  | Object [] => "{}"
  | Object ((k, x) :: ms) =>
    "{" +:+ newline (S depth) +:+ appendString k +:+ ": " +:+ render (S depth) x +:+
    (fix rest (l : list (string * value)) : string :=
       match l with
       | [] => EmptyString
       | (k', y) :: l' =>
         "," +:+ newline (S depth) +:+ appendString k' +:+ ": "
         +:+ render (S depth) y +:+ rest l'
       end) ms +:+
    newline depth +:+ "}"
  end.

(** The encoders [Marshal] picks for the types of the program: a struct is
    an object of its fields under their [json] tags, in declaration order;
    a [nil] slice is [null]. *)
Definition encode_ProgramAttributes (a : ProgramAttributes) : value :=
  Object [("handle", Str (Handle a));
          ("name", Str (Name a));
          ("currency", Str (Currency a));
          ("policy", Str (Policy a));
          ("state", Str (State a));
          ("offers_bounties", Bool (OffersBounties a));
          ("open_scope", Bool (OpenScope a))].

Definition encode_Program (p : Program) : value :=
  Object [("id", Str (ID p));
          ("type", Str (Type_ p));
          ("attributes", encode_ProgramAttributes (Attributes p))].

Definition encode_Programs (programs : slice Program) : value :=
  match programs with
  | None => Null
  | Some l => Array (map encode_Program l)
  end.

(** [json.MarshalIndent(programs, "", "  ")]; no value of type [[]Program]
    makes it fail. *)
Definition MarshalIndent_Programs (programs : slice Program) : result string :=
  Ok (render 0 (encode_Programs programs)).


(** *** Reading: the scanner ([scanner.go]) *)

Definition is_space (c : ascii) : bool :=
  let b := byte c in (b =? 32) || (b =? 9) || (b =? 13) || (b =? 10).

Fixpoint skip_space (s : string) : string :=
  match s with
  | String c s' => if is_space c then skip_space s' else s
  | EmptyString => EmptyString
  end.

Definition is_digit (c : ascii) : bool := in_range 48 57 (byte c).

Definition is_hex (c : ascii) : bool :=
  let b := byte c in in_range 48 57 b || in_range 97 102 b || in_range 65 70 b.

(** [stateInString] and the states after a backslash: the bytes of a
    string literal after its opening quote, up to the closing one; the
    result is the literal's inside and what follows the literal. *)
Fixpoint scan_string (s : string) : option (string * string) :=
  match s with
  | EmptyString => None
  | String c r =>
    let b := byte c in
    if b =? 34 then Some (EmptyString, r)
    else if b =? 92 then
      match r with
      | EmptyString => None
      | String e r1 =>
        let x := byte e in
        if (x =? 98) || (x =? 102) || (x =? 110) || (x =? 114) || (x =? 116)
           || (x =? 92) || (x =? 47) || (x =? 34) then
          match scan_string r1 with
          | Some (lit, rest) => Some (String c (String e lit), rest)
          | None => None
          end
        else if x =? 117 then
          match r1 with
          | String h1 (String h2 (String h3 (String h4 r2))) =>
            if is_hex h1 && is_hex h2 && is_hex h3 && is_hex h4 then
              match scan_string r2 with
              | Some (lit, rest) =>
                Some (String c (String e (String h1 (String h2
                        (String h3 (String h4 lit))))), rest)
              | None => None
              end
            else None
          | _ => None
          end
        else None
      end
    else if b <? 32 then None
    else
      match scan_string r with
      | Some (lit, rest) => Some (String c lit, rest)
      | None => None
      end
  end.

Fixpoint scan_digits (s : string) : string * string :=
  match s with
  | String c r =>
    if is_digit c then let '(ds, rest) := scan_digits r in (String c ds, rest)
    else (EmptyString, s)
  | EmptyString => (EmptyString, EmptyString)
  end.

(** One or more digits. *)
Definition scan_digits1 (s : string) : option (string * string) :=
  match scan_digits s with
  | (EmptyString, _) => None
  | (ds, rest) => Some (ds, rest)
  end.

(** [stateNeg], [state0], [state1], [stateDot], [stateE] and their
    successors: a number literal and what follows it. *)
Definition scan_number (s : string) : option (string * string) :=
  let '(sign, s1) :=
    match s with
    | String c r => if byte c =? 45 then (String c EmptyString, r) else (EmptyString, s)
    | EmptyString => (EmptyString, s)
    end in
  let int_part :=
    match s1 with
    | String c r =>
      if byte c =? 48 then Some (String c EmptyString, r)
      else if in_range 49 57 (byte c) then
        let '(ds, rest) := scan_digits r in Some (String c ds, rest)
      else None
    | EmptyString => None
    end in
  match int_part with
  | None => None
  | Some (ip, s2) =>
    let frac :=
      match s2 with
      | String c r =>
        if byte c =? 46 then
          match scan_digits1 r with
          | Some (ds, rest) => Some (String c ds, rest)
          | None => None
          end
        else Some (EmptyString, s2)
      | EmptyString => Some (EmptyString, s2)
      end in
    match frac with
    | None => None
    | Some (fp, s3) =>
      let exp :=
        match s3 with
        | String c r =>
          if (byte c =? 101) || (byte c =? 69) then
            let '(sg, r1) :=
              match r with
              | String d r' =>
                if (byte d =? 43) || (byte d =? 45)
                then (String d EmptyString, r') else (EmptyString, r)
              | EmptyString => (EmptyString, r)
              end in
            match scan_digits1 r1 with
            | Some (ds, rest) => Some (String c (sg +:+ ds), rest)
            | None => None
            end
          else Some (EmptyString, s3)
        | EmptyString => Some (EmptyString, s3)
        end in
      match exp with
      | None => None
      | Some (ep, s4) => Some (sign +:+ ip +:+ fp +:+ ep, s4)
      end
    end
  end.

(** *** Reading: [unquote] ([decode.go]) *)

(** [getu4]: the code unit of a [\uXXXX] at the head of [s], or [-1]. *)
Definition hex_value (c : ascii) : Z :=
  let b := byte c in
  if in_range 48 57 b then b - 48
  else if in_range 97 102 b then b - 97 + 10
  else if in_range 65 70 b then b - 65 + 10
  else -1.

Definition getu4 (s : string) : Z :=
  match s with
  | String c0 (String c1 (String h1 (String h2 (String h3 (String h4 _))))) =>
    if negb ((byte c0 =? 92) && (byte c1 =? 117)) then -1 else
    let d1 := hex_value h1 in let d2 := hex_value h2 in
    let d3 := hex_value h3 in let d4 := hex_value h4 in
    if (d1 <? 0) || (d2 <? 0) || (d3 <? 0) || (d4 <? 0) then -1
    else ((d1 * 16 + d2) * 16 + d3) * 16 + d4
  | _ => -1
  end.

(** [utf16.IsSurrogate] and [utf16.DecodeRune] *)
Definition IsSurrogate (r : Z) : bool := (0xD800 <=? r) && (r <? 0xE000).

Definition utf16_DecodeRune (r1 r2 : Z) : Z :=
  if (0xD800 <=? r1) && (r1 <? 0xDC00) && (0xDC00 <=? r2) && (r2 <? 0xE000)
  then Z.lor (Z.shiftl (r1 - 0xD800) 10) (r2 - 0xDC00) + 0x10000
  else RuneError.

(** The loop of [unquoteBytes] over the inside of a literal. *)
Fixpoint unquote (fuel : nat) (s : string) : option string :=
  match s with
  | EmptyString => Some EmptyString
  | String c r =>
    match fuel with
    | O => None
    | S fuel' =>
      let b := byte c in
      if b =? 92 then
        match r with
        | EmptyString => None
        | String e r1 =>
          let x := byte e in
          let one (d : Z) :=
            match unquote fuel' r1 with
            | Some t => Some (String (chr d) t)
            | None => None
            end in
          if (x =? 34) || (x =? 92) || (x =? 47) || (x =? 39) then one x
          else if x =? 98 then one 8
          else if x =? 102 then one 12
          else if x =? 110 then one 10
          else if x =? 114 then one 13
          else if x =? 116 then one 9
          else if x =? 117 then
            let rr := getu4 s in
            if rr <? 0 then None else
            let r6 := skip 6 s in
            if IsSurrogate rr then
              let dec := utf16_DecodeRune rr (getu4 r6) in
              if negb (dec =? RuneError) then
                match unquote fuel' (skip 6 r6) with
                | Some t => Some (EncodeRune dec +:+ t)
                | None => None
                end
              else
                match unquote fuel' r6 with
                | Some t => Some (EncodeRune RuneError +:+ t)
                | None => None
                end
            else
              match unquote fuel' r6 with
              | Some t => Some (EncodeRune rr +:+ t)
              | None => None
              end
          else None
        end
      else if (b =? 34) || (b <? 32) then None
      else if b <? RuneSelf then
        match unquote fuel' r with
        | Some t => Some (String c t)
        | None => None
        end
      else
        let '(rr, size) := DecodeRune s in
        match unquote fuel' (skip size s) with
        | Some t => Some (EncodeRune rr +:+ t)
        | None => None
        end
    end
  end.

(** A string literal after its opening quote: scanned, then unquoted. *)
Definition read_string (s : string) : option (string * string) :=
  match scan_string s with
  | None => None
  | Some (lit, rest) =>
    match unquote (String.length lit) lit with
    | Some t => Some (t, rest)
    | None => None
    end
  end.

(** *** Reading: values *)

Definition maxNestingDepth : nat := Z.to_nat 10000.

Definition literal (word : string) (v : value) (s : string)
    : option (value * string) :=
  if HasPrefix s word then Some (v, skip (String.length word) s) else None.

(** The value at the head of [s] (no space before it) and what follows
    it; [depth] counts the arrays and objects that are open. *)
Fixpoint read_value (fuel depth : nat) (s : string) : option (value * string) :=
  match fuel with
  | O => None
  | S fuel' =>
    match s with
    | EmptyString => None
    | String c r =>
      let b := byte c in
      if b =? 123 then
        if (maxNestingDepth <=? depth)%nat then None else
        match skip_space r with
        | String c' r' =>
          if byte c' =? 125 then Some (Object [], r')
          else
            match read_members fuel' (S depth) (String c' r') with
            | Some (ms, rest) => Some (Object ms, rest)
            | None => None
            end
        | EmptyString => None
        end
      else if b =? 91 then
        if (maxNestingDepth <=? depth)%nat then None else
        match skip_space r with
        | String c' r' =>
          if byte c' =? 93 then Some (Array [], r')
          else
            match read_elements fuel' (S depth) (String c' r') with
            | Some (xs, rest) => Some (Array xs, rest)
            | None => None
            end
        | EmptyString => None
        end
      else if b =? 34 then
        match read_string r with
        | Some (t, rest) => Some (Str t, rest)
        | None => None
        end
      else if (b =? 45) || in_range 48 57 b then
        match scan_number s with
        | Some (lit, rest) => Some (Number lit, rest)
        | None => None
        end
      else if b =? 116 then literal "true" (Bool true) s
      else if b =? 102 then literal "false" (Bool false) s
      else if b =? 110 then literal "null" Null s
      else None
    end
  end

with read_members (fuel depth : nat) (s : string)
    : option (list (string * value) * string) :=
  match fuel with
  | O => None
  | S fuel' =>
    match s with
    | String c r =>
      if negb (byte c =? 34) then None else
      match read_string r with
      | None => None
      | Some (k, r1) =>
        match skip_space r1 with
        | String colon r2 =>
          if negb (byte colon =? 58) then None else
          match read_value fuel' depth (skip_space r2) with
          | None => None
          | Some (v, r3) =>
            match skip_space r3 with
            | String sep r4 =>
              if byte sep =? 44 then
                match read_members fuel' depth (skip_space r4) with
                | Some (ms, rest) => Some ((k, v) :: ms, rest)
                | None => None
                end
              else if byte sep =? 125 then Some ([(k, v)], r4)
              else None
            | EmptyString => None
            end
          end
        | EmptyString => None
        end
      end
    | EmptyString => None
    end
  end

with read_elements (fuel depth : nat) (s : string)
    : option (list value * string) :=
  match fuel with
  | O => None
  | S fuel' =>
    match read_value fuel' depth s with
    | None => None
    | Some (v, r1) =>
      match skip_space r1 with
      | String sep r2 =>
        if byte sep =? 44 then
          match read_elements fuel' depth (skip_space r2) with
          | Some (xs, rest) => Some (v :: xs, rest)
          | None => None
          end
        else if byte sep =? 93 then Some ([v], r2)
        else None
      | EmptyString => None
      end
    end
  end.

(** A whole JSON text: one value, space allowed around it ([checkValid]
    accepts exactly these). Every call of the readers consumes a byte, so
    the length of the text is fuel enough. *)
Definition parse (data : string) : option value :=
  match read_value (S (String.length data)) 0 (skip_space data) with
  | Some (v, rest) =>
    match skip_space rest with
    | EmptyString => Some v
    | String _ _ => None
    end
  | None => None
  end.


(** *** Storing a value into a Go variable ([decode.go])

    A [store] function takes the JSON value and the current content of
    the variable and gives the new content, with the error [Unmarshal]
    would save: the first one is kept, and decoding goes on. [null]
    leaves a string, a bool or a struct as it is and resets a slice or a
    map. The error texts keep the kind of the value and the Go type. *)

Definition saved (A : Type) : Type := A * option Error.

Definition keep_first (e1 e2 : option Error) : option Error :=
  match e1 with Some _ => e1 | None => e2 end.

Definition kind (v : value) : string :=
  match v with
  | Null => "null" | Bool _ => "bool" | Number _ => "number"
  | Str _ => "string" | Array _ => "array" | Object _ => "object"
  end.

Definition type_error (v : value) (go_type : string) : Error :=
  "json: cannot unmarshal " +:+ kind v +:+ " into Go value of type " +:+ go_type.

Definition syntax_error : Error := "json: invalid JSON text".

Definition store_string (v : value) (cur : string) : saved string :=
  match v with
  | Str s => (s, None)
  | Null => (cur, None)
  | _ => (cur, Some (type_error v "string"))
  end.

Definition store_bool (v : value) (cur : bool) : saved bool :=
  match v with
  | Bool b => (b, None)
  | Null => (cur, None)
  | _ => (cur, Some (type_error v "bool"))
  end.

(** A field of a struct: its JSON name, and how a value is stored in it. *)
Definition field (T : Type) : Type := string * (value -> T -> saved T).

(** The field a key names: the one with exactly that name, or else the
    first one whose name equals the key under the Unicode case folding
    [fold], a parameter of the model. *)
Definition find_field {T} (fold : string -> string -> bool)
    (fields : list (field T)) (key : string) : option (field T) :=
  match List.find (fun f => String.eqb (fst f) key) fields with
  | Some f => Some f
  | None => List.find (fun f => fold (fst f) key) fields
  end.

Definition store_member {T} (fold : string -> string -> bool)
    (fields : list (field T)) (acc : saved T) (m : string * value) : saved T :=
  match find_field fold fields (fst m) with
  | Some f =>
    let '(cur, e) := snd f (snd m) (fst acc) in (cur, keep_first (snd acc) e)
  | None => acc
  end.

(** An object into a struct: the members in order, each into the field
    its key names; a key that names no field is skipped. *)
Definition store_struct {T} (fold : string -> string -> bool)
    (fields : list (field T)) (go_type : string) (v : value) (cur : T)
    : saved T :=
  match v with
  | Object ms => fold_left (store_member fold fields) ms (cur, None)
  | Null => (cur, None)
  | _ => (cur, Some (type_error v go_type))
  end.

(** An array into a slice: element [i] is decoded into the element the
    slice has at [i], or into a zero value when it has none. *)
Fixpoint store_elements {T} (store : value -> T -> saved T) (zero : T)
    (items : list value) (cur : list T) : saved (list T) :=
  match items with
  | [] => ([], None)
  | v :: items' =>
    let '(x, e) := store v (hd zero cur) in
    let '(xs, e') := store_elements store zero items' (tl cur) in
    (x :: xs, keep_first e e')
  end.

Definition store_slice {T} (store : value -> T -> saved T) (zero : T)
    (go_type : string) (v : value) (cur : slice T) : saved (slice T) :=
  match v with
  | Array items =>
    let '(xs, e) := store_elements store zero items (elems cur) in (Some xs, e)
  | Null => (None, None)
  | _ => (cur, Some (type_error v go_type))
  end.

(** An object into a [map[string]string]: every member sets its key, to
    the string it holds or to the empty string. *)
Definition store_map_member (acc : saved (gmap string string))
    (m : string * value) : saved (gmap string string) :=
  let '(x, e) := store_string (snd m) "" in
  (<[fst m := x]> (fst acc), keep_first (snd acc) e).

Definition store_map (v : value) (cur : gmap string string)
    : saved (gmap string string) :=
  match v with
  | Object ms => fold_left store_map_member ms (cur, None)
  | Null => (∅, None)
  | _ => (cur, Some (type_error v "map[string]string"))
  end.

(** [json.Unmarshal(data, &x)] for a variable [x] that holds [zero]. *)
Definition Unmarshal {T} (store : value -> T -> saved T) (zero : T)
    (data : string) : saved T :=
  match parse data with
  | None => (zero, Some syntax_error)
  | Some v => store v zero
  end.

Definition as_result {T} (r : saved T) : result T :=
  match r with
  | (x, None) => Ok x
  | (_, Some e) => Err e
  end.

(** *** The types of the program *)

Section Decoders.
Variable fold : string -> string -> bool.

Definition zero_ProgramAttributes : ProgramAttributes :=
  {| Handle := ""; Name := ""; Currency := ""; Policy := ""; State := "";
     OffersBounties := false; OpenScope := false |}.

Definition zero_Program : Program :=
  {| ID := ""; Type_ := ""; Attributes := zero_ProgramAttributes |}.

Definition set {T F} (get : T -> F) (put : F -> T -> T)
    (store : value -> F -> saved F) (v : value) (cur : T) : saved T :=
  let '(x, e) := store v (get cur) in (put x cur, e).

Definition fields_ProgramAttributes : list (field ProgramAttributes) :=
  [("handle", set Handle (fun x a =>
      {| Handle := x; Name := Name a; Currency := Currency a; Policy := Policy a;
         State := State a; OffersBounties := OffersBounties a;
         OpenScope := OpenScope a |}) store_string);
   ("name", set Name (fun x a =>
      {| Handle := Handle a; Name := x; Currency := Currency a; Policy := Policy a;
         State := State a; OffersBounties := OffersBounties a;
         OpenScope := OpenScope a |}) store_string);
   ("currency", set Currency (fun x a =>
      {| Handle := Handle a; Name := Name a; Currency := x; Policy := Policy a;
         State := State a; OffersBounties := OffersBounties a;
         OpenScope := OpenScope a |}) store_string);
   ("policy", set Policy (fun x a =>
      {| Handle := Handle a; Name := Name a; Currency := Currency a; Policy := x;
         State := State a; OffersBounties := OffersBounties a;
         OpenScope := OpenScope a |}) store_string);
   ("state", set State (fun x a =>
      {| Handle := Handle a; Name := Name a; Currency := Currency a;
         Policy := Policy a; State := x; OffersBounties := OffersBounties a;
         OpenScope := OpenScope a |}) store_string);
   ("offers_bounties", set OffersBounties (fun x a =>
      {| Handle := Handle a; Name := Name a; Currency := Currency a;
         Policy := Policy a; State := State a; OffersBounties := x;
         OpenScope := OpenScope a |}) store_bool);
   ("open_scope", set OpenScope (fun x a =>
      {| Handle := Handle a; Name := Name a; Currency := Currency a;
         Policy := Policy a; State := State a;
         OffersBounties := OffersBounties a; OpenScope := x |}) store_bool)].

Definition store_ProgramAttributes : value -> ProgramAttributes -> saved ProgramAttributes :=
  store_struct fold fields_ProgramAttributes "struct".

Definition fields_Program : list (field Program) :=
  [("id", set ID (fun x p =>
      {| ID := x; Type_ := Type_ p; Attributes := Attributes p |}) store_string);
   ("type", set Type_ (fun x p =>
      {| ID := ID p; Type_ := x; Attributes := Attributes p |}) store_string);
   ("attributes", set Attributes (fun x p =>
      {| ID := ID p; Type_ := Type_ p; Attributes := x |}) store_ProgramAttributes)].

Definition store_Program : value -> Program -> saved Program :=
  store_struct fold fields_Program "main.Program".

Definition store_Programs : value -> slice Program -> saved (slice Program) :=
  store_slice store_Program zero_Program "[]main.Program".

(** [var programs []Program; err := json.Unmarshal(data, &programs)] *)
Definition Unmarshal_Programs (data : string) : saved (slice Program) :=
  Unmarshal store_Programs None data.

Definition zero_ProgramsResponse : ProgramsResponse :=
  {| Data := []; Links := ∅ |}.

Definition fields_ProgramsResponse : list (field ProgramsResponse) :=
  [("data", set (fun r => Some (Data r))
      (fun x r => {| Data := elems x; Links := Links r |}) store_Programs);
   ("links", set Links
      (fun x r => {| Data := Data r; Links := x |}) store_map)].

Definition store_ProgramsResponse : value -> ProgramsResponse -> saved ProgramsResponse :=
  store_struct fold fields_ProgramsResponse "main.ProgramsResponse".

(** [var response ProgramsResponse; err = json.Unmarshal(body, &response)] *)
Definition Unmarshal_ProgramsResponse (body : string) : result ProgramsResponse :=
  as_result (Unmarshal store_ProgramsResponse zero_ProgramsResponse body).

(** [var response struct { Data Program }] of [GetProgram] *)
Definition fields_ProgramEnvelope : list (field Program) :=
  [("data", store_Program)].

Definition Unmarshal_ProgramEnvelope (body : string) : result Program :=
  as_result (Unmarshal (store_struct fold fields_ProgramEnvelope "struct")
                       zero_Program body).

Definition zero_ScopeAttributes : ScopeAttributes :=
  {| AssetType := ""; AssetIdentifier := ""; EligibleForBounty := false;
     EligibleForSubmission := false; Instruction := ""; MaxSeverity := "" |}.

Definition zero_StructuredScope : StructuredScope :=
  {| scope_ID := ""; scope_Type := ""; scope_Attributes := zero_ScopeAttributes |}.

Definition fields_ScopeAttributes : list (field ScopeAttributes) :=
  [("asset_type", set AssetType (fun x a =>
      {| AssetType := x; AssetIdentifier := AssetIdentifier a;
         EligibleForBounty := EligibleForBounty a;
         EligibleForSubmission := EligibleForSubmission a;
         Instruction := Instruction a; MaxSeverity := MaxSeverity a |}) store_string);
   ("asset_identifier", set AssetIdentifier (fun x a =>
      {| AssetType := AssetType a; AssetIdentifier := x;
         EligibleForBounty := EligibleForBounty a;
         EligibleForSubmission := EligibleForSubmission a;
         Instruction := Instruction a; MaxSeverity := MaxSeverity a |}) store_string);
   ("eligible_for_bounty", set EligibleForBounty (fun x a =>
      {| AssetType := AssetType a; AssetIdentifier := AssetIdentifier a;
         EligibleForBounty := x;
         EligibleForSubmission := EligibleForSubmission a;
         Instruction := Instruction a; MaxSeverity := MaxSeverity a |}) store_bool);
   ("eligible_for_submission", set EligibleForSubmission (fun x a =>
      {| AssetType := AssetType a; AssetIdentifier := AssetIdentifier a;
         EligibleForBounty := EligibleForBounty a;
         EligibleForSubmission := x;
         Instruction := Instruction a; MaxSeverity := MaxSeverity a |}) store_bool);
   ("instruction", set Instruction (fun x a =>
      {| AssetType := AssetType a; AssetIdentifier := AssetIdentifier a;
         EligibleForBounty := EligibleForBounty a;
         EligibleForSubmission := EligibleForSubmission a;
         Instruction := x; MaxSeverity := MaxSeverity a |}) store_string);
   ("max_severity", set MaxSeverity (fun x a =>
      {| AssetType := AssetType a; AssetIdentifier := AssetIdentifier a;
         EligibleForBounty := EligibleForBounty a;
         EligibleForSubmission := EligibleForSubmission a;
         Instruction := Instruction a; MaxSeverity := x |}) store_string)].

Definition fields_StructuredScope : list (field StructuredScope) :=
  [("id", set scope_ID (fun x p =>
      {| scope_ID := x; scope_Type := scope_Type p;
         scope_Attributes := scope_Attributes p |}) store_string);
   ("type", set scope_Type (fun x p =>
      {| scope_ID := scope_ID p; scope_Type := x;
         scope_Attributes := scope_Attributes p |}) store_string);
   ("attributes", set scope_Attributes (fun x p =>
      {| scope_ID := scope_ID p; scope_Type := scope_Type p;
         scope_Attributes := x |})
      (store_struct fold fields_ScopeAttributes "struct"))].

Definition zero_StructuredScopesResponse : StructuredScopesResponse :=
  {| scopes_Data := []; scopes_Links := ∅ |}.

Definition fields_StructuredScopesResponse : list (field StructuredScopesResponse) :=
  [("data", set (fun r => Some (scopes_Data r))
      (fun x r => {| scopes_Data := elems x; scopes_Links := scopes_Links r |})
      (store_slice (store_struct fold fields_StructuredScope "main.StructuredScope")
                   zero_StructuredScope "[]main.StructuredScope"));
   ("links", set scopes_Links
      (fun x r => {| scopes_Data := scopes_Data r; scopes_Links := x |}) store_map)].

Definition Unmarshal_StructuredScopesResponse (body : string)
    : result StructuredScopesResponse :=
  as_result (Unmarshal
    (store_struct fold fields_StructuredScopesResponse "main.StructuredScopesResponse")
    zero_StructuredScopesResponse body).

Definition zero_WeaknessAttributes : WeaknessAttributes :=
  {| weakness_Name := ""; Description := ""; ExternalID := "" |}.

Definition zero_Weakness : Weakness :=
  {| weakness_ID := ""; weakness_Type := "";
     weakness_Attributes := zero_WeaknessAttributes |}.

Definition fields_WeaknessAttributes : list (field WeaknessAttributes) :=
  [("name", set weakness_Name (fun x a =>
      {| weakness_Name := x; Description := Description a;
         ExternalID := ExternalID a |}) store_string);
   ("description", set Description (fun x a =>
      {| weakness_Name := weakness_Name a; Description := x;
         ExternalID := ExternalID a |}) store_string);
   ("external_id", set ExternalID (fun x a =>
      {| weakness_Name := weakness_Name a; Description := Description a;
         ExternalID := x |}) store_string)].

Definition fields_Weakness : list (field Weakness) :=
  [("id", set weakness_ID (fun x p =>
      {| weakness_ID := x; weakness_Type := weakness_Type p;
         weakness_Attributes := weakness_Attributes p |}) store_string);
   ("type", set weakness_Type (fun x p =>
      {| weakness_ID := weakness_ID p; weakness_Type := x;
         weakness_Attributes := weakness_Attributes p |}) store_string);
   ("attributes", set weakness_Attributes (fun x p =>
      {| weakness_ID := weakness_ID p; weakness_Type := weakness_Type p;
         weakness_Attributes := x |})
      (store_struct fold fields_WeaknessAttributes "struct"))].

Definition zero_WeaknessesResponse : WeaknessesResponse :=
  {| weaknesses_Data := []; weaknesses_Links := ∅ |}.

Definition fields_WeaknessesResponse : list (field WeaknessesResponse) :=
  [("data", set (fun r => Some (weaknesses_Data r))
      (fun x r => {| weaknesses_Data := elems x;
                     weaknesses_Links := weaknesses_Links r |})
      (store_slice (store_struct fold fields_Weakness "main.Weakness")
                   zero_Weakness "[]main.Weakness"));
   ("links", set weaknesses_Links
      (fun x r => {| weaknesses_Data := weaknesses_Data r;
                     weaknesses_Links := x |}) store_map)].

Definition Unmarshal_WeaknessesResponse (body : string) : result WeaknessesResponse :=
  as_result (Unmarshal
    (store_struct fold fields_WeaknessesResponse "main.WeaknessesResponse")
    zero_WeaknessesResponse body).

End Decoders.


(** *** Notions for the proofs about reading and writing *)

(** What the scanner returns, with [p] put in front of the literal. *)
Definition prepend (p : string) (o : option (string * string))
    : option (string * string) :=
  match o with
  | Some (lit, rest) => Some (p +:+ lit, rest)
  | None => None
  end.

(** What [unquote] returns, with [c] put in front. *)
Definition cons_to (c : ascii) (o : option string) : option string :=
  match o with
  | Some t => Some (String c t)
  | None => None
  end.

(** Values the encoders of the program produce: no numbers, and every
    string valid UTF-8. *)
Inductive plain : value -> Prop :=
| plain_null : plain Null
| plain_bool b : plain (Bool b)
| plain_str s : ValidString s = true -> plain (Str s)
| plain_array xs : Forall plain xs -> plain (Array xs)
| plain_object ms :
    Forall (fun m => ValidString (fst m) = true /\ plain (snd m)) ms ->
    plain (Object ms).

Fixpoint height (v : value) : nat :=
  match v with
  | Array xs => S (fold_right (fun x a => Nat.max (height x) a) 0%nat xs)
  | Object ms => S (fold_right (fun '(_, x) a => Nat.max (height x) a) 0%nat ms)
  | _ => 0%nat
  end.

Fixpoint weight (v : value) : nat :=
  match v with
  | Array xs => S (fold_right (fun x a => S (Nat.max (weight x) a)) 0%nat xs)
  | Object ms => S (fold_right (fun '(_, x) a => S (Nat.max (weight x) a)) 0%nat ms)
  | _ => 1%nat
  end.

Fixpoint elements_tail (d : nat) (xs : list value) : string :=
  match xs with
  | [] => EmptyString
  | y :: l => "," +:+ newline (S d) +:+ render (S d) y +:+ elements_tail d l
  end.

Fixpoint members_tail (d : nat) (ms : list (string * value)) : string :=
  match ms with
  | [] => EmptyString
  | (k, y) :: l =>
    "," +:+ newline (S d) +:+ appendString k +:+ ": " +:+ render (S d) y
    +:+ members_tail d l
  end.

(** A text whose first byte is no space, comma or closing bracket. *)
Definition solid (s : string) : Prop :=
  exists c t, s = String c t /\ is_space c = false
              /\ byte c <> 93 /\ byte c <> 125 /\ byte c <> 44.

Definition heights (xs : list value) : nat :=
  fold_right (fun x a => Nat.max (height x) a) 0%nat xs.
Definition weights (xs : list value) : nat :=
  fold_right (fun x a => S (Nat.max (weight x) a)) 0%nat xs.
Definition member_heights (ms : list (string * value)) : nat :=
  fold_right (fun '(_, x) a => Nat.max (height x) a) 0%nat ms.
Definition member_weights (ms : list (string * value)) : nat :=
  fold_right (fun '(_, x) a => S (Nat.max (weight x) a)) 0%nat ms.

(** [read_value] reads back the rendering of [v], whatever follows it. *)
Definition reads_back (v : value) : Prop :=
  plain v ->
  forall d depth fuel rest,
    (depth + height v <= maxNestingDepth)%nat ->
    (weight v <= fuel)%nat ->
    read_value fuel depth (render d v +:+ rest) = Some (v, rest).




(** A value as [Unmarshal] reads it back from the text [Marshal] wrote for
    it: each string with its invalid bytes replaced. *)
Fixpoint clean (v : value) : value :=
  match v with
  | Str s => Str (replace_invalid s)
  | Array xs => Array (map clean xs)
  | Object ms => Object (map (fun m => (fst m, clean (snd m))) ms)
  | _ => v
  end.

(** Values without numbers whose keys are valid UTF-8; their strings are
    any bytes. *)
Inductive keyed : value -> Prop :=
| keyed_null : keyed Null
| keyed_bool b : keyed (Bool b)
| keyed_str s : keyed (Str s)
| keyed_array xs : Forall keyed xs -> keyed (Array xs)
| keyed_object ms :
    Forall (fun m => ValidString (fst m) = true /\ keyed (snd m)) ms ->
    keyed (Object ms).

(** [read_value] reads the rendering of [v] as [clean v], whatever
    follows it. *)
Definition reads_clean (v : value) : Prop :=
  keyed v ->
  forall d depth fuel rest,
    (depth + height v <= maxNestingDepth)%nat ->
    (weight v <= fuel)%nat ->
    read_value fuel depth (render d v +:+ rest) = Some (clean v, rest).

End json.

(** ** [SaveProgramsToFile] (lines 171-184) *)

Definition SaveProgramsToFile (w : World) (programs : slice Program)
    (filename : string) : M (option Error) :=
  match json.MarshalIndent_Programs programs with
  | Err err => ret (Some err)
  | Ok file =>
    let* err := ioutil_WriteFile w filename file 420 (* 0644 *) in
    match err with
    | Some err => ret (Some err)
    | None =>
      print ("Successfully saved "
             +:+ fmt_d (Z.of_nat (length (elems programs)))
             +:+ " programs to " +:+ filename +:+ nl) ;;
      ret None
    end
  end.

(** ** The single-request modes (lines 187-253) *)

Definition decode_body {A} (decode : string -> result A) (r : bytes_err)
    : result A :=
  match r with
  | (_, Some err) => Err err
  | (body, None) => decode (default "" body)
  end.

Definition GetStructuredScopes (lib : GoLib) (w : World) (c : H1Client)
    (programHandle : string) : M (result StructuredScopesResponse) :=
  let endpoint := "/programs/" +:+ programHandle +:+ "/structured_scopes" in
  let* r := makeRequest lib w c "GET" endpoint in
  ret (decode_body (Unmarshal_StructuredScopesResponse lib) r).

Definition GetWeaknesses (lib : GoLib) (w : World) (c : H1Client)
    (programHandle : string) : M (result WeaknessesResponse) :=
  let endpoint := "/programs/" +:+ programHandle +:+ "/weaknesses" in
  let* r := makeRequest lib w c "GET" endpoint in
  ret (decode_body (Unmarshal_WeaknessesResponse lib) r).

Definition GetAllPrograms (lib : GoLib) (w : World) (c : H1Client)
    : M (result ProgramsResponse) :=
  let* r := makeRequest lib w c "GET" "/programs" in
  ret (decode_body (Unmarshal_ProgramsResponse lib) r).

Definition GetProgram (lib : GoLib) (w : World) (c : H1Client)
    (programHandle : string) : M (result Program) :=
  let endpoint := "/programs/" +:+ programHandle in
  let* r := makeRequest lib w c "GET" endpoint in
  ret (decode_body (Unmarshal_ProgramEnvelope lib) r).

(** ** Printing (lines 256-312) *)

(** [for i, x := range xs { body(i, x) }] *)
Fixpoint range {A} (body : Z -> A -> M unit) (i : Z) (xs : list A) : M unit :=
  match xs with
  | [] => ret tt
  | x :: xs' => body i x ;; range body (i + 1) xs'
  end.

Definition PrintStructuredScopes (scopes : StructuredScopesResponse)
    (programHandle : string) : M unit :=
  print (nl +:+ "=== Structured Scopes for " +:+ programHandle +:+ " ===" +:+ nl) ;;
  print ("Found " +:+ fmt_d (Z.of_nat (length (scopes_Data scopes)))
         +:+ " scope entries" +:+ nl +:+ nl) ;;
  range (fun i scope =>
    let a := scope_Attributes scope in
    print (fmt_d (i + 1) +:+ ". Asset: " +:+ AssetIdentifier a +:+ nl) ;;
    print ("   Type: " +:+ AssetType a +:+ nl) ;;
    print ("   Bounty Eligible: " +:+ fmt_t (EligibleForBounty a) +:+ nl) ;;
    print ("   Submission Eligible: " +:+ fmt_t (EligibleForSubmission a) +:+ nl) ;;
    print ("   Max Severity: " +:+ MaxSeverity a +:+ nl) ;;
    (if negb (String.eqb (Instruction a) "")
     then print ("   Instructions: " +:+ Instruction a +:+ nl)
     else ret tt) ;;
    print nl) 0 (scopes_Data scopes).

Definition PrintWeaknesses (weaknesses : WeaknessesResponse)
    (programHandle : string) : M unit :=
  print (nl +:+ "=== Weaknesses for " +:+ programHandle +:+ " ===" +:+ nl) ;;
  print ("Found " +:+ fmt_d (Z.of_nat (length (weaknesses_Data weaknesses)))
         +:+ " weakness types" +:+ nl +:+ nl) ;;
  range (fun i weakness =>
    let a := weakness_Attributes weakness in
    print (fmt_d (i + 1) +:+ ". " +:+ weakness_Name a
           +:+ " (CWE-" +:+ ExternalID a +:+ ")" +:+ nl) ;;
    print ("   Description: " +:+ Description a +:+ nl) ;;
    print nl) 0 (weaknesses_Data weaknesses).

Definition PrintPrograms (programs : list Program) : M unit :=
  print (nl +:+ "=== All Programs ===" +:+ nl) ;;
  print ("Found " +:+ fmt_d (Z.of_nat (length programs))
         +:+ " programs" +:+ nl +:+ nl) ;;
  range (fun i program =>
    let a := Attributes program in
    print (fmt_d (i + 1) +:+ ". " +:+ Name a +:+ " (" +:+ Handle a +:+ ")" +:+ nl) ;;
    print ("   State: " +:+ State a +:+ nl) ;;
    print ("   Offers Bounties: " +:+ fmt_t (OffersBounties a) +:+ nl) ;;
    print ("   Open Scope: " +:+ fmt_t (OpenScope a) +:+ nl) ;;
    print ("   Currency: " +:+ Currency a +:+ nl) ;;
    print nl) 0 programs.

Definition PrintProgram (program : Program) : M unit :=
  let a := Attributes program in
  print (nl +:+ "=== Program Details ===" +:+ nl) ;;
  print ("Name: " +:+ Name a +:+ nl) ;;
  print ("Handle: " +:+ Handle a +:+ nl) ;;
  print ("State: " +:+ State a +:+ nl) ;;
  print ("Currency: " +:+ Currency a +:+ nl) ;;
  print ("Offers Bounties: " +:+ fmt_t (OffersBounties a) +:+ nl) ;;
  print ("Open Scope: " +:+ fmt_t (OpenScope a) +:+ nl) ;;
  if negb (String.eqb (Policy a) "")
  then print ("Policy: " +:+ Policy a +:+ nl)
  else ret tt.

(** ** [main] (lines 314-408) *)

(** [os.Getenv]: the empty string for a variable that is not set. *)
Definition os_Getenv (w : World) (key : string) : string :=
  default "" (Environ w !! key).

(** [os.Args[i]], read only under a guard on [len(os.Args)]. *)
Definition os_Arg (w : World) (i : nat) : string :=
  default "" (Args w !! i).

Definition usage : M unit :=
  print ("Usage:" +:+ nl) ;;
  print ("  h1module scopes <program_handle>        - Get structured scopes for a program" +:+ nl) ;;
  print ("  h1module weaknesses <program_handle>    - Get weaknesses for a program" +:+ nl) ;;
  print ("  h1module programs                       - Get all programs (single page)" +:+ nl) ;;
  print ("  h1module programs-all                   - Get ALL programs with pagination" +:+ nl) ;;
  print ("  h1module programs-all-save <filename>   - Get ALL programs and save to file" +:+ nl) ;;
  print ("  h1module program <program_handle>       - Get specific program details" +:+ nl).

Definition credentials_msg : string :=
  "Please set HACKERONE_USERNAME and HACKERONE_TOKEN environment variables".

Definition invalid_mode_msg : string :=
  "Invalid mode. Use: scopes, weaknesses, programs, programs-all, programs-all-save, or program".

Definition few_args (w : World) : bool := (length (Args w) <? 3)%nat.

(** The [switch strings.ToLower(mode)] of [main]: the first case equal to
    the lowered argument runs, [default] when none is. *)
Definition run_mode (lib : GoLib) (w : World) (fuel : nat) (client : H1Client)
    (lowered : string) : M unit :=
  if String.eqb lowered "scopes" then
    if few_args w then log_Fatal "Please provide a program handle" else
    let programHandle := os_Arg w 2 in
    let* r := GetStructuredScopes lib w client programHandle in
    match r with
    | Err err => log_Fatal ("Error getting structured scopes: " +:+ err)
    | Ok scopes => PrintStructuredScopes scopes programHandle
    end
  else if String.eqb lowered "weaknesses" then
    if few_args w then log_Fatal "Please provide a program handle" else
    let programHandle := os_Arg w 2 in
    let* r := GetWeaknesses lib w client programHandle in
    match r with
    | Err err => log_Fatal ("Error getting weaknesses: " +:+ err)
    | Ok weaknesses => PrintWeaknesses weaknesses programHandle
    end
  else if String.eqb lowered "programs" then
    let* r := GetAllPrograms lib w client in
    match r with
    | Err err => log_Fatal ("Error getting programs: " +:+ err)
    | Ok programs => PrintPrograms (Data programs)
    end
  else if String.eqb lowered "programs-all" then
    let* (programs, err) := GetAllProgramsPaginated lib w client fuel in
    match err with
    | Some err => log_Fatal ("Error getting all programs: " +:+ err)
    | None => PrintPrograms (elems programs)
    end
  else if String.eqb lowered "programs-all-save" then
    if few_args w then log_Fatal "Please provide a filename" else
    let filename := os_Arg w 2 in
    let* (programs, err) := GetAllProgramsPaginated lib w client fuel in
    match err with
    | Some err => log_Fatal ("Error getting all programs: " +:+ err)
    | None =>
      let* err := SaveProgramsToFile w programs filename in
      match err with
      | Some err => log_Fatal ("Error saving to file: " +:+ err)
      | None => ret tt
      end
    end
  else if String.eqb lowered "program" then
    if few_args w then log_Fatal "Please provide a program handle" else
    let programHandle := os_Arg w 2 in
    let* r := GetProgram lib w client programHandle in
    match r with
    | Err err => log_Fatal ("Error getting program: " +:+ err)
    | Ok program => PrintProgram program
    end
  else
    log_Fatal invalid_mode_msg.

Definition main (lib : GoLib) (w : World) (fuel : nat) : M unit :=
  let username := os_Getenv w "HACKERONE_USERNAME" in
  let token := os_Getenv w "HACKERONE_TOKEN" in
  if String.eqb username "" || String.eqb token "" then
    log_Fatal credentials_msg
  else
    let client := NewH1Client username token in
    if (length (Args w) <? 2)%nat then usage
    else
      let mode := os_Arg w 1 in
      run_mode lib w fuel client (ToLower (unicode_lower lib) mode).

(** ** Vocabulary of the statements *)

(** The link to follow after a page: the empty string when [links] has no
    [next] entry. *)
Definition next_link (p : ProgramsResponse) : string :=
  default "" (Links p !! "next").

(** The [k]-th call of the server, asked for [endpoint], delivers the
    page [p]: the request can be built, the answer has status 200, its
    body is read whole and decodes to [p]. *)
Definition serves_page (lib : GoLib) (w : World) (c : H1Client) (k : nat)
    (endpoint : string) (p : ProgramsResponse) : Prop :=
  NewRequest_check lib "GET" (BaseURL c +:+ endpoint) = None /\
  exists resp body,
    server w k (prepare c "GET" (BaseURL c +:+ endpoint)) = Ok resp /\
    StatusCode resp = StatusOK /\
    Body resp = ReadOK body /\
    Unmarshal_ProgramsResponse lib body = Ok p.

(** From call [k] on, the server delivers the pages of the list one after
    the other, each at the endpoint its predecessor links to; all but the
    last carry a non-empty [next] link, the last carries none. *)
Fixpoint serves_chain (lib : GoLib) (w : World) (c : H1Client) (k : nat)
    (endpoint : string) (pages : list ProgramsResponse) : Prop :=
  match pages with
  | [] => False
  | p :: rest =>
    serves_page lib w c k endpoint p /\
    match rest with
    | [] => next_link p = ""
    | _ :: _ =>
      next_link p <> "" /\
      serves_chain lib w c (S k) (extractEndpoint (next_link p)) rest
    end
  end.

(** The items of a list of pages, page after page. *)
Definition items (pages : list ProgramsResponse) : list Program :=
  concat (map Data pages).

(** Requests and delays, in the order in which they happen. *)
Inductive Tick := Request_sent | Delay.

Fixpoint schedule (t : list Event) : list Tick :=
  match t with
  | [] => []
  | HttpDo _ :: t' => Request_sent :: schedule t'
  | Sleep _ :: t' => Delay :: schedule t'
  | _ :: t' => schedule t'
  end.

Definition requests (t : list Event) : nat :=
  length (List.filter (fun x => match x with Request_sent => true | _ => false end)
                      (schedule t)).

Definition delays (t : list Event) : nat :=
  length (List.filter (fun x => match x with Delay => true | _ => false end)
                      (schedule t)).

(** [n] requests with one delay between each two. *)
Fixpoint spaced (n : nat) : list Tick :=
  match n with
  | O => []
  | S O => [Request_sent]
  | S n' => Request_sent :: Delay :: spaced n'
  end.

(** The machine after [n] more calls and the events [evs]. *)
Definition after (m : Machine) (n : nat) (evs : list Event) : Machine :=
  {| calls := calls m + n; trace := trace m ++ evs |}.

(** What [makeRequest] returns and does, by the outcome of the call. *)
Definition makeRequest_outcome (lib : GoLib) (w : World) (c : H1Client)
    (method endpoint : string) (m : Machine) : Res bytes_err :=
  let url := BaseURL c +:+ endpoint in
  let req := prepare c method url in
  match NewRequest_check lib method url with
  | Some err => Ret (None, Some err) m
  | None =>
    match server w (calls m) req with
    | Err err => Ret (None, Some err) (after m 1 [HttpDo req])
    | Ok resp =>
      if StatusCode resp =? StatusOK then
        match Body resp with
        | ReadOK body =>
          Ret (Some body, None) (after m 1 [HttpDo req; BodyReadAll; BodyClose])
        | ReadFailed err =>
          Ret (None, Some err) (after m 1 [HttpDo req; BodyReadAll; BodyClose])
        end
      else
        Ret (None, Some ("API request failed with status: " +:+ Status resp))
            (after m 1 [HttpDo req; BodyClose])
    end
  end.

(** What one iteration of the loop prints, sends and reads for a page
    that arrives. *)
Definition page_events (c : H1Client) (nextURL : string) (page : Z)
    (fetched total : nat) : list Event :=
  [Stdout ("Fetching page " +:+ fmt_d page +:+ "..." +:+ nl);
   HttpDo (prepare c "GET" (BaseURL c +:+ nextURL));
   BodyReadAll;
   BodyClose;
   Stdout ("Page " +:+ fmt_d page +:+ ": fetched " +:+ fmt_d (Z.of_nat fetched)
           +:+ " programs (total: " +:+ fmt_d (Z.of_nat total) +:+ ")" +:+ nl)].

Definition six_modes : list string :=
  ["scopes"; "weaknesses"; "programs"; "programs-all"; "programs-all-save";
   "program"].

(** The world with [mode] as the first argument after the program name. *)
Definition with_mode (w : World) (mode : string) : World :=
  {| Environ := Environ w;
     Args := <[1%nat := mode]> (Args w);
     server := server w;
     WriteFile_result := WriteFile_result w |}.

(** The byte [c] is the byte [d] or, when [d] is one of ['a'..'z'], the
    capital of [d]. *)
Definition same_letter (c d : ascii) : bool :=
  let n := nat_of_ascii d in
  Ascii.eqb c d
  || ((97 <=? n) && (n <=? 122) && (nat_of_ascii c =? n - 32))%nat.

(** [s] spells [name] with any of the letters ['a'..'z'] of [name] in
    capitals: [PROGRAMS] and [Scopes] spell [programs] and [scopes]. *)
Fixpoint case_variant (s name : string) : bool :=
  match s, name with
  | EmptyString, EmptyString => true
  | String c s', String d name' => same_letter c d && case_variant s' name'
  | _, _ => false
  end.

(** The message of the [log.Fatal] a run ended with. *)
Definition fatal_message {A} (r : Res A) : option string :=
  match r with
  | Exit _ m =>
    match last (trace m) with
    | Some (LogFatal msg) => Some msg
    | _ => None
    end
  | _ => None
  end.

(** The accumulator after the pages of a list were appended to it. *)
Definition collect (acc : slice Program) (pages : list ProgramsResponse)
    : slice Program :=
  fold_left (fun a p => append a (Data p)) pages acc.

(** The first pages of a run: each is delivered and carries a link whose
    cursor is not empty, so the loop goes on after it; [next] is the
    endpoint of the request after them. *)
Fixpoint serves_prefix (lib : GoLib) (w : World) (c : H1Client) (k : nat)
    (endpoint : string) (pages : list ProgramsResponse) (next : string) : Prop :=
  match pages with
  | [] => next = endpoint
  | p :: rest =>
    serves_page lib w c k endpoint p /\
    extractEndpoint (next_link p) <> "" /\
    serves_prefix lib w c (S k) (extractEndpoint (next_link p)) rest next
  end.

(** How the [k]-th call, asked for [endpoint], fails: while fetching (the
    request cannot be built, the transport fails, the status is not 200,
    the body cannot be read) or while parsing the body; with the text of
    the error. *)
Inductive page_fails (lib : GoLib) (w : World) (c : H1Client) (k : nat)
    (endpoint : string) : string -> Error -> Prop :=
| bad_request err :
    NewRequest_check lib "GET" (BaseURL c +:+ endpoint) = Some err ->
    page_fails lib w c k endpoint "fetching" err
| transport_error err :
    NewRequest_check lib "GET" (BaseURL c +:+ endpoint) = None ->
    server w k (prepare c "GET" (BaseURL c +:+ endpoint)) = Err err ->
    page_fails lib w c k endpoint "fetching" err
| bad_status resp :
    NewRequest_check lib "GET" (BaseURL c +:+ endpoint) = None ->
    server w k (prepare c "GET" (BaseURL c +:+ endpoint)) = Ok resp ->
    StatusCode resp <> StatusOK ->
    page_fails lib w c k endpoint "fetching"
               ("API request failed with status: " +:+ Status resp)
| read_error resp err :
    NewRequest_check lib "GET" (BaseURL c +:+ endpoint) = None ->
    server w k (prepare c "GET" (BaseURL c +:+ endpoint)) = Ok resp ->
    StatusCode resp = StatusOK ->
    Body resp = ReadFailed err ->
    page_fails lib w c k endpoint "fetching" err
| parse_error resp body err :
    NewRequest_check lib "GET" (BaseURL c +:+ endpoint) = None ->
    server w k (prepare c "GET" (BaseURL c +:+ endpoint)) = Ok resp ->
    StatusCode resp = StatusOK ->
    Body resp = ReadOK body ->
    Unmarshal_ProgramsResponse lib body = Err err ->
    page_fails lib w c k endpoint "parsing" err.


(** Programs all of whose strings are valid UTF-8. *)
Definition valid_Program (p : Program) : Prop :=
  utf8.ValidString (ID p) = true /\ utf8.ValidString (Type_ p) = true
  /\ utf8.ValidString (Handle (Attributes p)) = true
  /\ utf8.ValidString (Name (Attributes p)) = true
  /\ utf8.ValidString (Currency (Attributes p)) = true
  /\ utf8.ValidString (Policy (Attributes p)) = true
  /\ utf8.ValidString (State (Attributes p)) = true.

Definition valid_Programs (programs : slice Program) : Prop :=
  Forall valid_Program (elems programs).


(** ** Concrete worlds *)

Module Examples.

(** JSON texts are written with ['] for the quote. *)
Fixpoint q (s : string) : string :=
  match s with
  | EmptyString => EmptyString
  | String c r =>
    String (if Ascii.eqb c (ascii_of_nat 39) then json.quote else c) (q r)
  end.

(** Field names compared without regard to ASCII case. *)
Definition ascii_fold (name key : string) : bool :=
  String.eqb (lower_ascii name) (lower_ascii key).

(** The library with the decoders of [json], every request accepted, and
    no lowering outside ASCII. *)
Definition lib : GoLib :=
  {| NewRequest_check := fun _ _ => None;
     Unmarshal_ProgramsResponse := json.Unmarshal_ProgramsResponse ascii_fold;
     Unmarshal_StructuredScopesResponse :=
       json.Unmarshal_StructuredScopesResponse ascii_fold;
     Unmarshal_WeaknessesResponse := json.Unmarshal_WeaknessesResponse ascii_fold;
     Unmarshal_ProgramEnvelope := json.Unmarshal_ProgramEnvelope ascii_fold;
     unicode_lower := fun s => s |}.

Definition client : H1Client := NewH1Client "alice" "s3cret".

Definition program (id handle : string) : Program :=
  {| ID := id; Type_ := "program";
     Attributes := {| Handle := handle; Name := ""; Currency := "";
                      Policy := ""; State := ""; OffersBounties := false;
                      OpenScope := false |} |}.

Definition ok_200 (body : string) : result Response :=
  Ok {| Status := "200 OK"; StatusCode := 200; Body := ReadOK body |}.

Definition world (args : list string) (srv : nat -> Request -> result Response)
    : World :=
  {| Environ := {["HACKERONE_USERNAME" := "alice"; "HACKERONE_TOKEN" := "s3cret"]};
     Args := args;
     server := srv;
     WriteFile_result := fun _ _ _ => None |}.

(** A first page whose [next] link is the base URL itself. *)
Definition body_bare : string :=
  q "{'data':[{'id':'1','type':'program','attributes':{'handle':'acme'}}],'links':{'next':'https://api.hackerone.com/v1/hackers'}}".

Definition page_bare : ProgramsResponse :=
  {| Data := [program "1" "acme"];
     Links := {["next" := "https://api.hackerone.com/v1/hackers"]} |}.

(** A page with a link to a second page. *)
Definition body_first : string :=
  q "{'data':[{'id':'1','type':'program','attributes':{'handle':'acme'}}],'links':{'next':'https://api.hackerone.com/v1/hackers/programs?page=2'}}".

Definition page_first : ProgramsResponse :=
  {| Data := [program "1" "acme"];
     Links := {["next" := "https://api.hackerone.com/v1/hackers/programs?page=2"]} |}.

(** A page without a [links] object. *)
Definition body_last : string :=
  q "{'data':[{'id':'2','type':'program','attributes':{'handle':'globex'}}]}".

Definition page_last : ProgramsResponse :=
  {| Data := [program "2" "globex"]; Links := ∅ |}.

(** The server answers the first call with [first] and every later call
    with [later], whatever is asked. *)
Definition two_pages (first later : string) (k : nat) (_ : Request)
    : result Response :=
  match k with
  | O => ok_200 first
  | S _ => ok_200 later
  end.

Definition w_bare : World := world ["h1module"; "programs-all"] (two_pages body_bare body_last).

Definition w_two : World := world ["h1module"; "programs-all"] (two_pages body_first body_last).

(** Every page carries the same link. *)
Definition w_same_bare : World :=
  world ["h1module"; "programs-all"] (fun _ _ => ok_200 body_bare).

Definition w_same : World :=
  world ["h1module"; "programs-all"] (fun _ _ => ok_200 body_first).

(** The second call is answered with status 500. *)
Definition w_broken : World :=
  world ["h1module"; "programs-all"]
    (fun k _ => match k with
                | O => ok_200 body_first
                | S _ => Ok {| Status := "500 Internal Server Error";
                               StatusCode := 500; Body := ReadOK "" |}
                end).

(** Every call is answered with the page that has no [links] object. *)
Definition w_single : World :=
  world ["h1module"; "programs-all"] (fun _ _ => ok_200 body_last).

(** No credentials in the environment. *)
Definition w_anonymous : World :=
  {| Environ := {["HACKERONE_USERNAME" := "alice"]};
     Args := ["h1module"; "programs-all"];
     server := fun _ _ => ok_200 body_last;
     WriteFile_result := fun _ _ _ => None |}.



(** A page without programs. *)
Definition body_empty : string := q "{'data':[]}".

Definition page_empty : ProgramsResponse := {| Data := []; Links := ∅ |}.

(** The answer to [program <handle>]. *)
Definition body_program : string :=
  q "{'data':{'id':'1','type':'program','attributes':{'handle':'acme'}}}".

End Examples.

(** A result that is not an exit of the process. *)
Definition no_exit {A} (r : Res A) : Prop :=
  match r with
  | Exit _ _ => False
  | _ => True
  end.

(** A result that is not the fatal error of an unknown subcommand. *)
Definition known_mode {A} (r : Res A) : Prop :=
  fatal_message r <> Some invalid_mode_msg.

(** ** Vocabulary of the further properties *)

(** The client [main] makes from the environment. *)
Definition env_client (w : World) : H1Client :=
  NewH1Client (os_Getenv w "HACKERONE_USERNAME") (os_Getenv w "HACKERONE_TOKEN").

(** The subcommand [main] dispatches on: the first argument, lowered. *)
Definition subcommand (lib : GoLib) (w : World) : string :=
  ToLower (unicode_lower lib) (os_Arg w 1).

(** Both credentials are set in the environment, to something. *)
Definition credentials_set (w : World) : Prop :=
  os_Getenv w "HACKERONE_USERNAME" <> "" /\ os_Getenv w "HACKERONE_TOKEN" <> "".

(** A run that ended (it returned or left the process) added to the trace
    only events that satisfy [P]. *)
Definition adds_only (P : Event -> Prop) {A} (m : Machine) (r : Res A) : Prop :=
  match r with
  | Ret _ m' | Exit _ m' => exists evs, trace m' = trace m ++ evs /\ Forall P evs
  | Running => True
  end.

(** A [GET] request below the base URL, with the [Accept] header and
    the credentials; any event other than a request. *)
Definition api_request (username token : string) (e : Event) : Prop :=
  match e with
  | HttpDo req =>
    Method req = "GET"
    /\ HasPrefix (URL req) hackers_api = true
    /\ Header req !! "Accept" = Some "application/json"
    /\ BasicAuth req = Some (username, token)
  | _ => True
  end.

(** A file written by the subcommand [programs-all-save] under the name
    it was given, with mode 0644; any event that writes no file. *)
Definition named_file (lib : GoLib) (w : World) (e : Event) : Prop :=
  match e with
  | WriteFile filename _ perm =>
    subcommand lib w = "programs-all-save"
    /\ filename = os_Arg w 2 /\ perm = 420
  | _ => True
  end.

(** A sleep of 100 ms in one of the two paginating subcommands; any
    event other than a sleep. *)
Definition rate_limit_sleep (lib : GoLib) (w : World) (e : Event) : Prop :=
  match e with
  | Sleep d =>
    (subcommand lib w = "programs-all" \/ subcommand lib w = "programs-all-save")
    /\ d = 100 * 1000 * 1000 (* ns *)
  | _ => True
  end.

(** Requests each followed by a delay, but for the last, which may go
    without: no two requests without a delay between them, and no delay
    that does not follow a request. *)
Inductive paced : list Tick -> Prop :=
| paced_nil : paced []
| paced_last : paced [Request_sent]
| paced_more ticks : paced ticks -> paced (Request_sent :: Delay :: ticks).

(** The [k]-th call of the server, asked for [endpoint], answers with
    status 200 and the body [body], read whole. *)
Definition answers (lib : GoLib) (w : World) (c : H1Client) (k : nat)
    (endpoint body : string) : Prop :=
  NewRequest_check lib "GET" (BaseURL c +:+ endpoint) = None /\
  exists resp,
    server w k (prepare c "GET" (BaseURL c +:+ endpoint)) = Ok resp /\
    StatusCode resp = StatusOK /\
    Body resp = ReadOK body.

(** The error of a decoding that failed. *)
Definition decode_error {A} (r : result A) : option Error :=
  match r with
  | Err e => Some e
  | Ok _ => None
  end.

(** The subcommands that send one request: the name, the endpoint for the
    handle given, the text before the error in the fatal message, and the
    decoding of the body. *)
Definition single_request_modes (lib : GoLib) (handle : string)
    : list (string * string * string * (string -> option Error)) :=
  [("scopes", "/programs/" +:+ handle +:+ "/structured_scopes",
    "Error getting structured scopes: ",
    fun body => decode_error (Unmarshal_StructuredScopesResponse lib body));
   ("weaknesses", "/programs/" +:+ handle +:+ "/weaknesses",
    "Error getting weaknesses: ",
    fun body => decode_error (Unmarshal_WeaknessesResponse lib body));
   ("programs", "/programs",
    "Error getting programs: ",
    fun body => decode_error (Unmarshal_ProgramsResponse lib body));
   ("program", "/programs/" +:+ handle,
    "Error getting program: ",
    fun body => decode_error (Unmarshal_ProgramEnvelope lib body))].

(** The subcommands that need an operand, with the complaint about a
    missing one. *)
Definition operand_modes : list (string * string) :=
  [("scopes", "Please provide a program handle");
   ("weaknesses", "Please provide a program handle");
   ("programs-all-save", "Please provide a filename");
   ("program", "Please provide a program handle")].

(** Events none of which writes a file. *)
Definition no_file_written (evs : list Event) : Prop :=
  Forall (fun e => forall f d p, e <> WriteFile f d p) evs.

(** A computation that writes the lines to standard output, does nothing
    else and returns. *)
Definition prints (x : M unit) (lines : list string) : Prop :=
  forall m, x m = Ret tt (after m 0 (map Stdout lines)).

(** The lines of a [range] loop whose body prints [entry i x]. *)
Fixpoint numbered {A} (entry : Z -> A -> list string) (i : Z) (xs : list A)
    : list string :=
  match xs with
  | [] => []
  | x :: xs' => entry i x ++ numbered entry (i + 1) xs'
  end.

(** The lines [PrintPrograms] writes for the program at index [i]. *)
Definition program_entry (i : Z) (program : Program) : list string :=
  let a := Attributes program in
  [fmt_d (i + 1) +:+ ". " +:+ Name a +:+ " (" +:+ Handle a +:+ ")" +:+ nl;
   "   State: " +:+ State a +:+ nl;
   "   Offers Bounties: " +:+ fmt_t (OffersBounties a) +:+ nl;
   "   Open Scope: " +:+ fmt_t (OpenScope a) +:+ nl;
   "   Currency: " +:+ Currency a +:+ nl;
   nl].

(** The lines [PrintWeaknesses] writes for the weakness at index [i]. *)
Definition weakness_entry (i : Z) (weakness : Weakness) : list string :=
  let a := weakness_Attributes weakness in
  [fmt_d (i + 1) +:+ ". " +:+ weakness_Name a +:+ " (CWE-" +:+ ExternalID a +:+ ")" +:+ nl;
   "   Description: " +:+ Description a +:+ nl;
   nl].

(** The scope has an instruction to print. *)
Definition has_instruction (scope : StructuredScope) : bool :=
  negb (String.eqb (Instruction (scope_Attributes scope)) "").

(** The lines [PrintStructuredScopes] writes for the scope at index [i]. *)
Definition scope_entry (i : Z) (scope : StructuredScope) : list string :=
  let a := scope_Attributes scope in
  [fmt_d (i + 1) +:+ ". Asset: " +:+ AssetIdentifier a +:+ nl;
   "   Type: " +:+ AssetType a +:+ nl;
   "   Bounty Eligible: " +:+ fmt_t (EligibleForBounty a) +:+ nl;
   "   Submission Eligible: " +:+ fmt_t (EligibleForSubmission a) +:+ nl;
   "   Max Severity: " +:+ MaxSeverity a +:+ nl]
  ++ (if has_instruction scope
      then ["   Instructions: " +:+ Instruction a +:+ nl] else [])
  ++ [nl].

(** What a run wrote to standard output. *)
Fixpoint stdout (evs : list Event) : list string :=
  match evs with
  | [] => []
  | Stdout text :: evs' => text :: stdout evs'
  | _ :: evs' => stdout evs'
  end.

(** The two lines of the loop for each page of a list: the first page is
    numbered [page], and [total] items were collected before it. *)
Fixpoint progress (page : Z) (total : nat) (pages : list ProgramsResponse)
    : list string :=
  match pages with
  | [] => []
  | p :: rest =>
    ("Fetching page " +:+ fmt_d page +:+ "..." +:+ nl)
    :: ("Page " +:+ fmt_d page +:+ ": fetched "
        +:+ fmt_d (Z.of_nat (length (Data p)))
        +:+ " programs (total: "
        +:+ fmt_d (Z.of_nat (total + length (Data p))) +:+ ")" +:+ nl)
    :: progress (page + 1) (total + length (Data p))%nat rest
  end.

(** A program as it is read back from what was written for it. *)
Definition clean_ProgramAttributes (a : ProgramAttributes) : ProgramAttributes :=
  {| Handle := utf8.replace_invalid (Handle a);
     Name := utf8.replace_invalid (Name a);
     Currency := utf8.replace_invalid (Currency a);
     Policy := utf8.replace_invalid (Policy a);
     State := utf8.replace_invalid (State a);
     OffersBounties := OffersBounties a;
     OpenScope := OpenScope a |}.

Definition clean_Program (p : Program) : Program :=
  {| ID := utf8.replace_invalid (ID p);
     Type_ := utf8.replace_invalid (Type_ p);
     Attributes := clean_ProgramAttributes (Attributes p) |}.

Definition clean_Programs (programs : slice Program) : slice Program :=
  match programs with
  | None => None
  | Some l => Some (map clean_Program l)
  end.

(** The URLs of the requests of a run, in order. *)
Fixpoint urls (evs : list Event) : list string :=
  match evs with
  | [] => []
  | HttpDo req :: evs' => URL req :: urls evs'
  | _ :: evs' => urls evs'
  end.

(** The URL that is requested for a [next] link: the link itself when
    it starts with the base URL, the base URL with the link after it
    otherwise. *)
Definition requested (link : string) : string :=
  if HasPrefix link hackers_api then link else hackers_api +:+ link.

(** The messages [main] can die with: the fixed ones, and the beginnings
    of those that end with the text of an error. *)
Definition fatal_texts : list string :=
  [credentials_msg; "Please provide a program handle";
   "Please provide a filename"; invalid_mode_msg].

Definition fatal_prefixes : list string :=
  ["Error getting structured scopes: "; "Error getting weaknesses: ";
   "Error getting programs: "; "Error getting all programs: ";
   "Error saving to file: "; "Error getting program: "].

(** A run that, if it left the process, did so with status 1 right after
    logging one of these messages. *)
Definition fatal_exit {A} (r : Res A) : Prop :=
  match r with
  | Exit code m' =>
    code = 1
    /\ exists msg,
         last (trace m') = Some (LogFatal msg)
         /\ (In msg fatal_texts
             \/ exists prefix err, In prefix fatal_prefixes /\ msg = prefix +:+ err)
  | _ => True
  end.

(** * Properties *)

(** ** Strings *)

#[local] Arguments String.append !_ _ / : simpl nomatch.

Section StringFacts.

Lemma append_nil_r (s : string) : s +:+ "" = s.
Proof. induction s as [|c s IH]; simpl; [reflexivity | now rewrite IH]. Qed.

Lemma append_assoc (a b c : string) : (a +:+ b) +:+ c = a +:+ (b +:+ c).
Proof. induction a as [|x a IH]; simpl; [reflexivity | now rewrite IH]. Qed.

Lemma length_append (a b : string) :
  String.length (a +:+ b) = (String.length a + String.length b)%nat.
Proof. induction a as [|x a IH]; simpl; [reflexivity | now rewrite IH]. Qed.

Lemma substring_whole (s : string) : substring 0 (String.length s) s = s.
Proof. induction s as [|c s IH]; simpl; [reflexivity | now rewrite IH]. Qed.

Lemma slice_to_append (p t : string) : slice_to (p +:+ t) (len p) = p.
Proof.
  unfold slice_to, len.
  induction p as [|c p IH]; simpl.
  - now destruct t.
  - now rewrite IH.
Qed.

Lemma slice_from_append (p t : string) : slice_from (p +:+ t) (len p) = t.
Proof.
  unfold slice_from, len.
  induction p as [|c p IH]; simpl.
  - rewrite Nat.sub_0_r. apply substring_whole.
  - exact IH.
Qed.

Lemma slice_split (s : string) (n : nat) :
  (n <= len s)%nat -> slice_to s n +:+ slice_from s n = s.
Proof.
  unfold slice_to, slice_from, len.
  revert n. induction s as [|c s IH]; intros [|n] Hn; simpl in *; try lia.
  - reflexivity.
  - now rewrite substring_whole.
  - f_equal. apply IH. lia.
Qed.

(** [strings.HasPrefix] holds exactly of the strings that start with the
    prefix. *)
Lemma HasPrefix_true (s p : string) :
  HasPrefix s p = true <-> exists t, s = p +:+ t.
Proof.
  unfold HasPrefix. split.
  - intros H. apply andb_prop in H as [Hlen Heq].
    apply Nat.leb_le in Hlen. apply String.eqb_eq in Heq.
    exists (slice_from s (len p)).
    rewrite <- Heq at 1. symmetry. now apply slice_split.
  - intros [t ->]. apply andb_true_intro. split.
    + apply Nat.leb_le. unfold len. rewrite length_append. lia.
    + rewrite slice_to_append. apply String.eqb_refl.
Qed.

Lemma HasPrefix_false (s p : string) :
  HasPrefix s p = false <-> forall t, s <> p +:+ t.
Proof.
  split.
  - intros H t ->.
    assert (HasPrefix (p +:+ t) p = true) by (apply HasPrefix_true; eauto).
    congruence.
  - intros H. destruct (HasPrefix s p) eqn:E; [|reflexivity].
    apply HasPrefix_true in E as [t ->]. now destruct (H t).
Qed.

Lemma TrimPrefix_append (p t : string) : TrimPrefix (p +:+ t) p = t.
Proof.
  unfold TrimPrefix.
  assert (HasPrefix (p +:+ t) p = true) as -> by (apply HasPrefix_true; eauto).
  apply slice_from_append.
Qed.

End StringFacts.

(** ** [extractEndpoint] *)

Lemma extractEndpoint_strips (t : string) :
  extractEndpoint (hackers_api +:+ t) = t.
Proof.
  unfold extractEndpoint. fold hackers_api.
  assert (HasPrefix (hackers_api +:+ t) hackers_api = true) as ->
    by (apply HasPrefix_true; eauto).
  apply TrimPrefix_append.
Qed.

Lemma extractEndpoint_other (link : string) :
  HasPrefix link hackers_api = false -> extractEndpoint link = link.
Proof. unfold extractEndpoint. fold hackers_api. now intros ->. Qed.

(** C5: [extractEndpoint] strips the base URL from a link that starts with
    it and returns any other link unchanged; the prefix it strips is the
    [BaseURL] that [NewH1Client] sets and [makeRequest] prepends, so for a
    link with the prefix the URL requested for the derived cursor is the
    link itself. *)
Theorem extractEndpoint_cursor (link username token : string) :
  let c := NewH1Client username token in
  BaseURL c = hackers_api
  /\ (forall t, link = hackers_api +:+ t ->
        extractEndpoint link = t
        /\ BaseURL c +:+ extractEndpoint link = link
        /\ URL (prepare c "GET" (BaseURL c +:+ extractEndpoint link)) = link)
  /\ ((forall t, link <> hackers_api +:+ t) -> extractEndpoint link = link)
  /\ (HasPrefix link hackers_api = true <-> exists t, link = hackers_api +:+ t).
Proof.
  intros c. split; [reflexivity|]. split; [|split].
  - intros t ->. rewrite extractEndpoint_strips. now repeat split.
  - intros H. apply extractEndpoint_other. now apply HasPrefix_false.
  - apply HasPrefix_true.
Qed.

(** ** The machine *)

Lemma after_0 (m : Machine) : after m 0 [] = m.
Proof.
  destruct m as [k t]. unfold after. simpl.
  now rewrite Nat.add_0_r, app_nil_r.
Qed.

Lemma after_after (m : Machine) (n1 n2 : nat) (e1 e2 : list Event) :
  after (after m n1 e1) n2 e2 = after m (n1 + n2) (e1 ++ e2).
Proof. unfold after. simpl. now rewrite Nat.add_assoc, app_assoc. Qed.

Lemma emit_after (e : Event) (m : Machine) : emit e m = Ret tt (after m 0 [e]).
Proof. unfold emit, after. now rewrite Nat.add_0_r. Qed.

Lemma print_after (text : string) (m : Machine) :
  print text m = Ret tt (after m 0 [Stdout text]).
Proof. apply emit_after. Qed.

Lemma log_Fatal_after {A} (msg : string) (m : Machine) :
  @log_Fatal A msg m = Exit 1 (after m 0 [LogFatal msg]).
Proof. unfold log_Fatal, after. now rewrite Nat.add_0_r. Qed.

Lemma client_Do_after (w : World) (req : Request) (m : Machine) :
  client_Do w req m = Ret (server w (calls m) req) (after m 1 [HttpDo req]).
Proof. unfold client_Do, after. now rewrite Nat.add_1_r. Qed.

Lemma bind_Ret {A B} (x : M A) (f : A -> M B) (m m' : Machine) (a : A) :
  x m = Ret a m' -> bind x f m = f a m'.
Proof. unfold bind. now intros ->. Qed.

Lemma bind_ext {A B} (x1 x2 : M A) (f1 f2 : A -> M B) (m : Machine) :
  x1 m = x2 m -> (forall a m', f1 a m' = f2 a m') ->
  bind x1 f1 m = bind x2 f2 m.
Proof. unfold bind. intros -> H. destruct (x2 m); auto. Qed.

(** ** [makeRequest] *)

Lemma makeRequest_runs lib w c method endpoint m :
  makeRequest lib w c method endpoint m
  = makeRequest_outcome lib w c method endpoint m.
Proof.
  unfold makeRequest, makeRequest_outcome.
  destruct (NewRequest_check _ _ _) as [err|]; [reflexivity|].
  unfold bind at 1. rewrite client_Do_after.
  destruct (server _ _ _) as [resp|err]; [|reflexivity].
  destruct (StatusCode resp =? StatusOK); simpl.
  - unfold ioutil_ReadAll, bind, ret. rewrite emit_after, emit_after.
    rewrite !after_after. simpl. now destruct (Body resp).
  - unfold bind, ret. rewrite emit_after, after_after. reflexivity.
Qed.

(** ** The pagination loop *)

Lemma paginate_done lib w c fuel acc page m :
  paginate lib w c fuel acc "" page m = Ret (acc, None) m.
Proof. now destruct fuel. Qed.

Lemma paginate_S lib w c fuel acc url page :
  url <> "" ->
  paginate lib w c (S fuel) acc url page =
  (print ("Fetching page " +:+ fmt_d page +:+ "..." +:+ nl) ;;
   let* (body, err) := makeRequest lib w c "GET" url in
   match err with
   | Some err =>
     ret (None, Some ("error fetching page " +:+ fmt_d page +:+ ": " +:+ err))
   | None =>
     match Unmarshal_ProgramsResponse lib (default "" body) with
     | Err err =>
       ret (None, Some ("error parsing page " +:+ fmt_d page +:+ ": " +:+ err))
     | Ok response =>
       let allPrograms := append acc (Data response) in
       print ("Page " +:+ fmt_d page +:+ ": fetched "
              +:+ fmt_d (Z.of_nat (length (Data response)))
              +:+ " programs (total: "
              +:+ fmt_d (Z.of_nat (length (elems allPrograms)))
              +:+ ")" +:+ nl) ;;
       match Links response !! "next" with
       | Some nextLink =>
         if negb (String.eqb nextLink "") then
           time_Sleep (RateLimitDelay c) ;;
           paginate lib w c fuel allPrograms (extractEndpoint nextLink)
                    (int_wrap (page + 1))
         else paginate lib w c fuel allPrograms "" page
       | None => paginate lib w c fuel allPrograms "" page
       end
     end
   end)%go.
Proof.
  intros Hurl. apply String.eqb_neq in Hurl.
  cbn [paginate]. now rewrite Hurl.
Qed.

Lemma Running_without_fuel lib w c acc url page m :
  url <> "" -> paginate lib w c 0 acc url page m = Running.
Proof. intros Hurl. apply String.eqb_neq in Hurl. cbn. now rewrite Hurl. Qed.

(** One iteration on a page that arrives: the items are appended; with no
    link to follow the loop returns, otherwise it sleeps once and goes on
    at the cursor taken from the link. *)
Lemma paginate_page lib w c fuel acc url page m p :
  url <> "" ->
  serves_page lib w c (calls m) url p ->
  paginate lib w c (S fuel) acc url page m =
  let acc' := append acc (Data p) in
  let m1 := after m 1 (page_events c url page (length (Data p))
                                   (length (elems acc'))) in
  if String.eqb (next_link p) "" then Ret (acc', None) m1
  else paginate lib w c fuel acc' (extractEndpoint (next_link p))
                (int_wrap (page + 1)) (after m1 0 [Sleep (RateLimitDelay c)]).
Proof.
  intros Hurl (Hreq & resp & body & Hsrv & Hcode & Hbody & Hdec).
  rewrite paginate_S by assumption.
  unfold bind at 1. rewrite print_after.
  unfold bind at 1. rewrite makeRequest_runs. unfold makeRequest_outcome.
  rewrite Hreq. change (calls (after m 0 _)) with (calls m + 0)%nat.
  rewrite Nat.add_0_r, Hsrv, Hcode, Hbody. cbn [Z.eqb StatusOK Pos.eqb].
  rewrite after_after. change (default "" (Some body)) with body. rewrite Hdec.
  unfold bind at 1. rewrite print_after, after_after.
  unfold next_link. cbn [app Nat.add page_events].
  destruct (Links p !! "next") as [l|] eqn:Hl; cbn [from_option id].
  - destruct (String.eqb l "") eqn:E; cbn [negb].
    + apply paginate_done.
    + unfold bind at 1, time_Sleep. rewrite emit_after. reflexivity.
  - apply paginate_done.
Qed.

Lemma elems_append {A} (s : slice A) (xs : list A) :
  elems (append s xs) = elems s ++ xs.
Proof. destruct xs; simpl; [now rewrite app_nil_r | reflexivity]. Qed.

Lemma elems_collect (pages : list ProgramsResponse) (acc : slice Program) :
  elems (collect acc pages) = elems acc ++ items pages.
Proof.
  revert acc. induction pages as [|p ps IH]; intros acc.
  - unfold items. simpl. now rewrite app_nil_r.
  - change (collect acc (p :: ps)) with (collect (append acc (Data p)) ps).
    rewrite IH, elems_append, <- app_assoc. reflexivity.
Qed.

Lemma schedule_app (t1 t2 : list Event) :
  schedule (t1 ++ t2) = schedule t1 ++ schedule t2.
Proof.
  induction t1 as [|e t1 IH]; simpl; [reflexivity|].
  destruct e; simpl; now rewrite ?IH.
Qed.

Lemma extractEndpoint_empty (link : string) :
  extractEndpoint link = "" <-> link = "" \/ link = hackers_api.
Proof.
  split.
  - intros H. destruct (HasPrefix link hackers_api) eqn:E.
    + apply HasPrefix_true in E as [t ->].
      rewrite extractEndpoint_strips in H. subst t. right. apply append_nil_r.
    + rewrite extractEndpoint_other in H by assumption. now left.
  - intros [-> | ->]; reflexivity.
Qed.

Lemma cursor_nonempty (p : ProgramsResponse) :
  next_link p <> "" -> next_link p <> hackers_api ->
  extractEndpoint (next_link p) <> "".
Proof.
  intros H1 H2 H. destruct (HasPrefix (next_link p) hackers_api) eqn:E.
  - apply HasPrefix_true in E as [t E]. rewrite E in H, H2.
    rewrite extractEndpoint_strips in H. subst t. now rewrite append_nil_r in H2.
  - rewrite extractEndpoint_other in H by assumption. contradiction.
Qed.

(** The loop over a chain of pages none of which links to the bare base
    URL: it returns all their items after one request per page, with one
    delay between consecutive requests. *)
Lemma paginate_chain lib w c (pages : list ProgramsResponse) :
  forall fuel acc url page m,
    url <> "" ->
    serves_chain lib w c (calls m) url pages ->
    Forall (fun p => next_link p <> hackers_api) pages ->
    (length pages <= fuel)%nat ->
    exists m',
      paginate lib w c fuel acc url page m = Ret (collect acc pages, None) m'
      /\ calls m' = (calls m + length pages)%nat
      /\ schedule (trace m') = schedule (trace m) ++ spaced (length pages).
Proof.
  induction pages as [|p rest IH]; intros fuel acc url page m Hurl Hchain Hbare Hfuel.
  - destruct Hchain.
  - destruct Hchain as [Hp Hrest].
    destruct fuel as [|fuel]; [simpl in Hfuel; lia|].
    rewrite (paginate_page _ _ _ _ _ _ _ _ p) by assumption.
    cbv zeta. inversion Hbare as [|? ? Hp_bare Hrest_bare]; subst.
    destruct rest as [|p' rest'].
    + rewrite Hrest. cbn [String.eqb].
      eexists. split; [reflexivity|]. split; [reflexivity|].
      cbn [after trace]. rewrite schedule_app. reflexivity.
    + destruct Hrest as [Hlink Hchain'].
      assert (String.eqb (next_link p) "" = false) as -> by now apply String.eqb_neq.
      rewrite after_after.
      edestruct (IH fuel (append acc (Data p)) (extractEndpoint (next_link p))
                   (int_wrap (page + 1))
                   (after m (1 + 0) (page_events c url page (length (Data p))
                       (length (elems (append acc (Data p))))
                     ++ [Sleep (RateLimitDelay c)])))
        as (m' & Hrun & Hcalls & Hsched).
      * now apply cursor_nonempty.
      * cbn [after calls]. replace (calls m + (1 + 0))%nat with (S (calls m)) by lia.
        exact Hchain'.
      * assumption.
      * simpl in Hfuel |- *. lia.
      * exists m'. split; [exact Hrun|]. split.
        -- rewrite Hcalls. cbn [after calls length]. lia.
        -- rewrite Hsched. cbn [after trace]. rewrite !schedule_app.
           rewrite <- !app_assoc. reflexivity.
Qed.

(** ** Concrete runs *)

Module ExampleFacts.
Import Examples.

Lemma decode_bare : Unmarshal_ProgramsResponse lib body_bare = Ok page_bare.
Proof. vm_compute. reflexivity. Qed.

Lemma decode_first : Unmarshal_ProgramsResponse lib body_first = Ok page_first.
Proof. vm_compute. reflexivity. Qed.

Lemma decode_last : Unmarshal_ProgramsResponse lib body_last = Ok page_last.
Proof. vm_compute. reflexivity. Qed.

Lemma accepts_all (method url : string) : NewRequest_check lib method url = None.
Proof. reflexivity. Qed.

Lemma serves_answer (w : World) (k : nat) (endpoint body : string)
    (p : ProgramsResponse) :
  server w k (prepare client "GET" (BaseURL client +:+ endpoint)) = ok_200 body ->
  Unmarshal_ProgramsResponse lib body = Ok p ->
  serves_page lib w client k endpoint p.
Proof.
  intros Hsrv Hdec. split; [apply accepts_all|].
  eexists _, body. split; [exact Hsrv|]. now repeat split.
Qed.

Lemma bare_chain :
  serves_chain lib w_bare client 0 "/programs" [page_bare; page_last].
Proof.
  split; [apply (serves_answer _ _ _ body_bare); [reflexivity | apply decode_bare]|].
  split; [discriminate|].
  split; [apply (serves_answer _ _ _ body_last); [reflexivity | apply decode_last]|].
  reflexivity.
Qed.

(** The run on a first page that links to the bare base URL. *)
Lemma bare_run (w : World) (fuel : nat) :
  server w 0 (prepare client "GET" (BaseURL client +:+ "/programs"))
    = ok_200 body_bare ->
  GetAllProgramsPaginated lib w client (S fuel) boot
  = Ret (Some [program "1" "acme"], None)
        (after boot 1 (page_events client "/programs" 1 1 1
                         ++ [Sleep (RateLimitDelay client)])).
Proof.
  intros Hsrv. unfold GetAllProgramsPaginated.
  rewrite (paginate_page _ _ _ _ _ _ _ _ page_bare).
  - cbv zeta.
    change (String.eqb (next_link page_bare) "") with false.
    change (extractEndpoint (next_link page_bare)) with "".
    rewrite paginate_done, after_after. reflexivity.
  - discriminate.
  - apply (serves_answer _ _ _ body_bare); [exact Hsrv | apply decode_bare].
Qed.

End ExampleFacts.

(** C1 (the code at a failing input): the server holds two pages, the
    first with a non-empty [next] link (the base URL itself), the second
    with none; [GetAllProgramsPaginated] returns the items of the first
    page only, after a single request. *)
Theorem bare_link_drops_second_page :
  serves_chain Examples.lib Examples.w_bare Examples.client 0 "/programs"
               [Examples.page_bare; Examples.page_last]
  /\ items [Examples.page_bare; Examples.page_last]
     = [Examples.program "1" "acme"; Examples.program "2" "globex"]
  /\ forall fuel, exists m',
       GetAllProgramsPaginated Examples.lib Examples.w_bare Examples.client
                               (S fuel) boot
       = Ret (Some [Examples.program "1" "acme"], None) m'
       /\ requests (trace m') = 1%nat.
Proof.
  split; [apply ExampleFacts.bare_chain|]. split; [reflexivity|].
  intros fuel. eexists. split.
  - apply ExampleFacts.bare_run. reflexivity.
  - reflexivity.
Qed.

(** C3 (the code at a failing input): a successful run over one page,
    whose [next] link is the base URL itself, sleeps once, after the page
    that turns out to be the last. *)
Theorem bare_link_delay_after_last_page :
  forall fuel, exists r m',
    GetAllProgramsPaginated Examples.lib Examples.w_bare Examples.client
                            (S fuel) boot = Ret (r, None) m'
    /\ schedule (trace m') = [Request_sent; Delay]
    /\ requests (trace m') = 1%nat
    /\ delays (trace m') = 1%nat.
Proof.
  intros fuel. eexists _, _. split.
  - apply ExampleFacts.bare_run. reflexivity.
  - now repeat split.
Qed.

(** C4 (the code at a failing input): the server returns the same
    non-empty [next] link, the base URL itself, on every page; the loop
    returns after one iteration. *)
Theorem same_bare_link_terminates :
  (forall k req, exists resp,
      server Examples.w_same_bare k req = Ok resp
      /\ StatusCode resp = StatusOK
      /\ Body resp = ReadOK Examples.body_bare)
  /\ Unmarshal_ProgramsResponse Examples.lib Examples.body_bare
     = Ok Examples.page_bare
  /\ next_link Examples.page_bare = hackers_api
  /\ forall fuel, exists m',
       GetAllProgramsPaginated Examples.lib Examples.w_same_bare Examples.client
                               (S fuel) boot
       = Ret (Some [Examples.program "1" "acme"], None) m'
       /\ calls m' = 1%nat.
Proof.
  split; [intros k req; eexists; now repeat split|].
  split; [apply ExampleFacts.decode_bare|]. split; [reflexivity|].
  intros fuel. eexists. split.
  - apply ExampleFacts.bare_run. reflexivity.
  - reflexivity.
Qed.

(** ** Runs over a chain of pages *)

Lemma spaced_step (n : nat) :
  spaced (S (S n)) = Request_sent :: Delay :: spaced (S n).
Proof. reflexivity. Qed.

Lemma spaced_counts (n : nat) :
  length (List.filter (fun x => match x with Request_sent => true | _ => false end)
                      (spaced n)) = n
  /\ length (List.filter (fun x => match x with Delay => true | _ => false end)
                         (spaced n)) = (n - 1)%nat.
Proof.
  induction n as [|n [IHr IHd]]; [now split|].
  destruct n as [|n]; [now split|].
  rewrite spaced_step. cbn [List.filter length]. rewrite IHr, IHd.
  split; lia.
Qed.

Lemma requests_app (t : list Event) (ticks : list Tick) (n : nat) :
  schedule t = ticks ++ spaced n ->
  requests t
  = (length (List.filter (fun x => match x with Request_sent => true | _ => false end)
                         ticks) + n)%nat
  /\ delays t
     = (length (List.filter (fun x => match x with Delay => true | _ => false end)
                            ticks) + (n - 1))%nat.
Proof.
  intros H. unfold requests, delays. rewrite H, !List.filter_app, !length_app.
  now destruct (spaced_counts n) as [-> ->].
Qed.

(** The run over a chain of [n] pages, none of which links to the bare
    base URL: [GetAllProgramsPaginated] returns the items of all pages in
    order, after [n] requests and [n - 1] delays, one between each two
    consecutive requests. *)
Theorem collects_every_page lib w c (pages : list ProgramsResponse) fuel m :
  serves_chain lib w c (calls m) "/programs" pages ->
  Forall (fun p => next_link p <> hackers_api) pages ->
  (length pages <= fuel)%nat ->
  exists r m',
    GetAllProgramsPaginated lib w c fuel m = Ret (r, None) m'
    /\ elems r = items pages
    /\ schedule (trace m') = schedule (trace m) ++ spaced (length pages)
    /\ requests (trace m') = (requests (trace m) + length pages)%nat
    /\ delays (trace m') = (delays (trace m) + (length pages - 1))%nat.
Proof.
  intros Hchain Hbare Hfuel.
  destruct (paginate_chain lib w c pages fuel None "/programs" 1 m)
    as (m' & Hrun & _ & Hsched); try assumption; [discriminate|].
  exists (collect None pages), m'. split; [exact Hrun|].
  split; [apply elems_collect|]. split; [exact Hsched|].
  apply requests_app in Hsched. exact Hsched.
Qed.

Lemma collects_every_page_witness :
  exists r m',
    GetAllProgramsPaginated Examples.lib Examples.w_two Examples.client 2 boot
    = Ret (r, None) m'
    /\ elems r = [Examples.program "1" "acme"; Examples.program "2" "globex"]
    /\ delays (trace m') = 1%nat.
Proof.
  destruct (collects_every_page Examples.lib Examples.w_two Examples.client
              [Examples.page_first; Examples.page_last] 2 boot)
    as (r & m' & Hrun & Hitems & _ & _ & Hdelays).
  - split; [apply (ExampleFacts.serves_answer _ _ _ Examples.body_first);
            [reflexivity | apply ExampleFacts.decode_first]|].
    split; [discriminate|].
    split; [apply (ExampleFacts.serves_answer _ _ _ Examples.body_last);
            [reflexivity | apply ExampleFacts.decode_last]|].
    reflexivity.
  - repeat constructor; discriminate.
  - simpl. lia.
  - exists r, m'. repeat split; assumption.
Defined.

(** A server whose every page carries a [next] link that is neither empty
    nor the bare base URL keeps the loop running: no amount of fuel lets
    it return. *)
Theorem linked_pages_never_return lib w c :
  (forall k endpoint, exists p,
      serves_page lib w c k endpoint p
      /\ next_link p <> "" /\ next_link p <> hackers_api) ->
  forall fuel m, GetAllProgramsPaginated lib w c fuel m = Running.
Proof.
  intros Hsrv fuel. unfold GetAllProgramsPaginated.
  assert (forall acc url page m, url <> "" ->
            paginate lib w c fuel acc url page m = Running) as H.
  { induction fuel as [|fuel IH]; intros acc url page m Hurl.
    - now apply Running_without_fuel.
    - destruct (Hsrv (calls m) url) as (p & Hp & Hne & Hbare).
      rewrite (paginate_page _ _ _ _ _ _ _ _ p) by assumption. cbv zeta.
      assert (String.eqb (next_link p) "" = false) as -> by now apply String.eqb_neq.
      apply IH. now apply cursor_nonempty. }
  intros m. apply H. discriminate.
Qed.

Lemma linked_pages_never_return_witness :
  GetAllProgramsPaginated Examples.lib Examples.w_same Examples.client 1000 boot
  = Running.
Proof.
  apply (linked_pages_never_return Examples.lib Examples.w_same Examples.client).
  intros k endpoint. exists Examples.page_first. split.
  - apply (ExampleFacts.serves_answer _ _ _ Examples.body_first);
      [reflexivity | apply ExampleFacts.decode_first].
  - split; discriminate.
Defined.

(** ** A page that fails *)

Lemma int_wrap_id (z : Z) : int_min <= z <= int_max -> int_wrap z = z.
Proof.
  unfold int_wrap, int_min, int_max. intros H.
  rewrite Z.mod_small by lia. lia.
Qed.

(** The loop over pages that arrive and let it go on: it reaches the
    request after them with the page counter advanced by their number. *)
Lemma paginate_prefix lib w c (pages : list ProgramsResponse) :
  forall acc url page m next,
    url <> "" ->
    serves_prefix lib w c (calls m) url pages next ->
    1 <= page -> page + Z.of_nat (length pages) <= int_max ->
    exists acc' m',
      calls m' = (calls m + length pages)%nat
      /\ next <> ""
      /\ forall fuel,
           paginate lib w c (length pages + fuel) acc url page m
           = paginate lib w c fuel acc' next (page + Z.of_nat (length pages)) m'.
Proof.
  induction pages as [|p rest IH]; intros acc url page m next Hurl Hpre Hlo Hhi.
  - simpl in Hpre. subst next. exists acc, m. split; [simpl; lia|].
    split; [assumption|]. intros fuel. simpl. now rewrite Z.add_0_r.
  - destruct Hpre as (Hp & Hcursor & Hrest).
    assert (next_link p <> "") as Hlink by (intros E; rewrite E in Hcursor; now apply Hcursor).
    cbn [length] in Hhi. rewrite Nat2Z.inj_succ in Hhi.
    edestruct (IH (append acc (Data p)) (extractEndpoint (next_link p)) (page + 1)
                 (after (after m 1 (page_events c url page (length (Data p))
                                      (length (elems (append acc (Data p))))))
                        0 [Sleep (RateLimitDelay c)]) next)
      as (acc' & m' & Hcalls & Hnext & Hrun); try assumption; try lia.
    + cbn [after calls]. replace (calls m + 1 + 0)%nat with (S (calls m)) by lia.
      exact Hrest.
    + exists acc', m'. split; [rewrite Hcalls; cbn [after calls length]; lia|].
      split; [assumption|]. intros fuel. cbn [length Nat.add].
      rewrite (paginate_page _ _ _ _ _ _ _ _ p) by assumption. cbv zeta.
      assert (String.eqb (next_link p) "" = false) as -> by now apply String.eqb_neq.
      rewrite int_wrap_id by (unfold int_min, int_max in *; lia).
      rewrite Hrun. f_equal. rewrite Nat2Z.inj_succ. lia.
Qed.

(** One iteration on a page that fails: nothing is returned but the
    error, which names the stage and the page counter. *)
Lemma paginate_fails lib w c fuel acc url page m stage err :
  url <> "" ->
  page_fails lib w c (calls m) url stage err ->
  exists m',
    paginate lib w c (S fuel) acc url page m
    = Ret (None, Some ("error " +:+ stage +:+ " page " +:+ fmt_d page
                       +:+ ": " +:+ err)) m'.
Proof.
  intros Hurl Hfail. rewrite paginate_S by assumption.
  unfold bind at 1. rewrite print_after.
  unfold bind at 1. rewrite makeRequest_runs. unfold makeRequest_outcome.
  change (calls (after m 0 _)) with (calls m + 0)%nat. rewrite Nat.add_0_r.
  destruct Hfail as [e Hreq | e Hreq Hsrv | resp Hreq Hsrv Hcode
                     | resp e Hreq Hsrv Hcode Hbody
                     | resp body e Hreq Hsrv Hcode Hbody Hdec];
    rewrite Hreq; try rewrite Hsrv.
  - eexists. reflexivity.
  - eexists. reflexivity.
  - assert ((StatusCode resp =? StatusOK) = false) as -> by now apply Z.eqb_neq.
    eexists. reflexivity.
  - rewrite Hcode, Hbody. eexists. reflexivity.
  - rewrite Hcode, Hbody. cbn [Z.eqb StatusOK Pos.eqb].
    change (default "" (Some body)) with body. rewrite Hdec.
    eexists. reflexivity.
Qed.

(** C2: when the pages before page [k] arrive and let the loop go on, and
    fetching or parsing page [k] fails, [GetAllProgramsPaginated] returns
    no items ([nil]) and an error whose message carries the stage, the
    index [k] and the text of the failure. *)
Theorem failing_page_is_reported lib w c (pages : list ProgramsResponse)
    endpoint stage err fuel m :
  serves_prefix lib w c (calls m) "/programs" pages endpoint ->
  page_fails lib w c (calls m + length pages) endpoint stage err ->
  Z.of_nat (S (length pages)) <= int_max ->
  (length pages < fuel)%nat ->
  exists m',
    GetAllProgramsPaginated lib w c fuel m
    = Ret (None, Some ("error " +:+ stage +:+ " page "
                       +:+ fmt_d (Z.of_nat (S (length pages)))
                       +:+ ": " +:+ err)) m'.
Proof.
  intros Hpre Hfail Hmax Hfuel. unfold GetAllProgramsPaginated.
  rewrite Nat2Z.inj_succ in Hmax.
  destruct (paginate_prefix lib w c pages None "/programs" 1 m endpoint)
    as (acc' & m1 & Hcalls & Hnext & Hrun); try assumption; try lia; [discriminate|].
  replace fuel with (length pages + S (fuel - S (length pages)))%nat by lia.
  rewrite Hrun. rewrite <- Hcalls in Hfail.
  destruct (paginate_fails lib w c (fuel - S (length pages)) acc' endpoint
              (1 + Z.of_nat (length pages)) m1 stage err Hnext Hfail) as (m' & Hm').
  exists m'. rewrite Hm'. repeat f_equal. lia.
Qed.

Lemma failing_page_is_reported_witness :
  exists m',
    GetAllProgramsPaginated Examples.lib Examples.w_broken Examples.client 5 boot
    = Ret (None, Some "error fetching page 2: API request failed with status: 500 Internal Server Error") m'.
Proof.
  apply (failing_page_is_reported Examples.lib Examples.w_broken Examples.client
           [Examples.page_first] "/programs?page=2" "fetching"
           "API request failed with status: 500 Internal Server Error" 5 boot).
  - split; [apply (ExampleFacts.serves_answer _ _ _ Examples.body_first);
            [reflexivity | apply ExampleFacts.decode_first]|].
    split; [discriminate | reflexivity].
  - apply (bad_status _ _ _ _ _
             {| Status := "500 Internal Server Error"; StatusCode := 500;
                Body := ReadOK "" |}); [reflexivity | reflexivity | discriminate].
  - vm_compute. discriminate.
  - simpl. lia.
Defined.

(** ** A page without a link to follow *)

(** C9: a page whose [links] map is empty (no [links] object in the
    body), or has no [next] key, is treated as a page whose [next] link is
    the empty string: the loop returns the items accumulated so far with
    the page's own appended, without an error and without a delay. *)
Theorem missing_next_link_ends_run lib w c fuel acc url page m p :
  url <> "" ->
  serves_page lib w c (calls m) url p ->
  Links p = ∅ \/ Links p !! "next" = None \/ Links p !! "next" = Some "" ->
  paginate lib w c (S fuel) acc url page m
  = Ret (append acc (Data p), None)
        (after m 1 (page_events c url page (length (Data p))
                                (length (elems (append acc (Data p)))))).
Proof.
  intros Hurl Hp Hlinks.
  rewrite (paginate_page _ _ _ _ _ _ _ _ p) by assumption. cbv zeta.
  assert (next_link p = "") as ->; [|reflexivity].
  unfold next_link. destruct Hlinks as [H | [H | H]]; rewrite H; reflexivity.
Qed.

Lemma missing_next_link_ends_run_witness :
  Links Examples.page_last = ∅
  /\ GetAllProgramsPaginated Examples.lib Examples.w_single Examples.client 1 boot
     = Ret (Some [Examples.program "2" "globex"], None)
           (after boot 1 (page_events Examples.client "/programs" 1 1 1)).
Proof.
  split; [reflexivity|].
  apply (missing_next_link_ends_run Examples.lib Examples.w_single Examples.client
           0 None "/programs" 1 boot Examples.page_last).
  - discriminate.
  - apply (ExampleFacts.serves_answer _ _ _ Examples.body_last);
      [reflexivity | apply ExampleFacts.decode_last].
  - left. reflexivity.
Defined.

(** ** [makeRequest] makes one attempt *)

(** C6: [makeRequest] calls the server at most once, exactly once when
    the request can be built, and never retries; a transport failure is
    returned as it is with no bytes, a status other than 200 gives the
    status error with no bytes and the body is not read, a failed read of
    the body gives its error, and bytes come back without an error only
    for status 200 with the body read whole. *)
Theorem makeRequest_single_attempt lib w c method endpoint m :
  let url := BaseURL c +:+ endpoint in
  let req := prepare c method url in
  exists r n evs,
    makeRequest lib w c method endpoint m = Ret r (after m n evs)
    /\ (n <= 1)%nat /\ requests evs = n
    /\ (NewRequest_check lib method url = None ->
        n = 1%nat
        /\ (exists rest, evs = HttpDo req :: rest)
        /\ match server w (calls m) req with
           | Err err => r = (None, Some err)
           | Ok resp =>
             (StatusCode resp <> StatusOK ->
                r = (None, Some ("API request failed with status: "
                                 +:+ Status resp))
                /\ ~ In BodyReadAll evs)
             /\ (StatusCode resp = StatusOK ->
                   match Body resp with
                   | ReadFailed err => r = (None, Some err)
                   | ReadOK body => r = (Some body, None)
                   end)
           end)
    /\ (snd r = None <->
        exists resp body,
          NewRequest_check lib method url = None
          /\ server w (calls m) req = Ok resp
          /\ StatusCode resp = StatusOK
          /\ Body resp = ReadOK body
          /\ fst r = Some body).
Proof.
  intros url req. rewrite makeRequest_runs. unfold makeRequest_outcome.
  fold url. fold req.
  destruct (NewRequest_check lib method url) as [e|] eqn:Hreq.
  { exists (None, Some e), 0%nat, []. rewrite after_0.
    split; [reflexivity|]. split; [lia|]. split; [reflexivity|].
    split; [discriminate|]. split; [discriminate|].
    intros (resp & body & H & _). discriminate. }
  destruct (server w (calls m) req) as [resp|e] eqn:Hsrv.
  2:{ eexists _, 1%nat, _. split; [reflexivity|]. split; [lia|].
      split; [reflexivity|]. split; [now eauto|]. split; [discriminate|].
      intros (resp & body & _ & H & _). discriminate. }
  destruct (StatusCode resp =? StatusOK) eqn:Hcode.
  - apply Z.eqb_eq in Hcode.
    destruct (Body resp) as [body|e] eqn:Hbody;
      (eexists _, 1%nat, _; split; [reflexivity|]; split; [lia|];
       split; [reflexivity|]; split;
       [intros _; split; [reflexivity|]; split; [eauto|];
        split; [intros H; now destruct H | now intros _]|]).
    + split; [intros _|reflexivity]. exists resp, body. now repeat split.
    + split; [discriminate|].
      intros (resp' & body & _ & H1 & _ & H2 & _).
      injection H1 as <-. congruence.
  - apply Z.eqb_neq in Hcode.
    eexists _, 1%nat, _. split; [reflexivity|]. split; [lia|].
    split; [reflexivity|]. split.
    + intros _. split; [reflexivity|]. split; [eauto|]. split.
      * intros _. split; [reflexivity|]. simpl. intros [H|[H|[]]]; discriminate.
      * intros H. now destruct Hcode.
    + split; [discriminate|].
      intros (resp' & body & _ & H1 & H2 & _). injection H1 as <-. now destruct Hcode.
Qed.

(** ** [main] *)

Lemma os_Getenv_empty (w : World) (key : string) :
  os_Getenv w key = "" <-> Environ w !! key = None \/ Environ w !! key = Some "".
Proof.
  unfold os_Getenv. destruct (Environ w !! key) as [v|]; simpl.
  - split; [intros ->; now right | intros [H|H]; congruence].
  - split; [now left | reflexivity].
Qed.

(** C8: when [HACKERONE_USERNAME] or [HACKERONE_TOKEN] is not set or is
    empty, [main] logs the fatal configuration message and exits with
    status 1 at once: whatever the arguments are, nothing else happens,
    and no request is sent. *)
Theorem missing_credentials_are_fatal lib w fuel m :
  Environ w !! "HACKERONE_USERNAME" = None
  \/ Environ w !! "HACKERONE_USERNAME" = Some ""
  \/ Environ w !! "HACKERONE_TOKEN" = None
  \/ Environ w !! "HACKERONE_TOKEN" = Some "" ->
  main lib w fuel m = Exit 1 (after m 0 [LogFatal credentials_msg])
  /\ calls (after m 0 [LogFatal credentials_msg]) = calls m
  /\ requests (trace (after m 0 [LogFatal credentials_msg])) = requests (trace m).
Proof.
  intros H.
  assert (os_Getenv w "HACKERONE_USERNAME" = "" \/ os_Getenv w "HACKERONE_TOKEN" = "")
    as Hempty.
  { destruct H as [H|[H|[H|H]]]; [left|left|right|right];
      apply os_Getenv_empty; auto. }
  split; [|split].
  - unfold main.
    assert (String.eqb (os_Getenv w "HACKERONE_USERNAME") ""
            || String.eqb (os_Getenv w "HACKERONE_TOKEN") "" = true) as ->.
    { destruct Hempty as [-> | ->]; [reflexivity|]. apply orb_true_r. }
    apply log_Fatal_after.
  - simpl. lia.
  - unfold requests. cbn [after trace]. rewrite schedule_app, app_nil_r. reflexivity.
Qed.

Lemma missing_credentials_are_fatal_witness :
  main Examples.lib Examples.w_anonymous 10 boot
  = Exit 1 (after boot 0 [LogFatal credentials_msg]).
Proof.
  apply (missing_credentials_are_fatal Examples.lib Examples.w_anonymous 10 boot).
  right. right. left. reflexivity.
Defined.

(** *** The programs depend on the world through its server and disk *)

Section SameServer.
Variables (lib : GoLib) (w1 w2 : World).
Hypothesis same_server : server w1 = server w2.
Hypothesis same_disk : WriteFile_result w1 = WriteFile_result w2.

Lemma makeRequest_ext c method endpoint m :
  makeRequest lib w1 c method endpoint m = makeRequest lib w2 c method endpoint m.
Proof. rewrite !makeRequest_runs. unfold makeRequest_outcome. now rewrite same_server. Qed.

Lemma paginate_ext c fuel :
  forall acc url page m,
    paginate lib w1 c fuel acc url page m = paginate lib w2 c fuel acc url page m.
Proof.
  induction fuel as [|fuel IH]; intros acc url page m;
    (destruct (string_dec url "") as [-> | Hurl]; [now rewrite !paginate_done|]).
  - now rewrite !Running_without_fuel.
  - rewrite !paginate_S by assumption.
    apply bind_ext; [reflexivity|]. intros [] m0.
    apply bind_ext; [apply makeRequest_ext|]. intros [body [err|]] m1;
      [reflexivity|].
    destruct (Unmarshal_ProgramsResponse lib (default "" body)) as [p|e];
      [|reflexivity].
    apply bind_ext; [reflexivity|]. intros [] m2.
    destruct (Links p !! "next") as [l|]; [|apply IH].
    destruct (negb (String.eqb l "")); [|apply IH].
    apply bind_ext; [reflexivity|]. intros [] m3. apply IH.
Qed.

Lemma SaveProgramsToFile_ext programs filename m :
  SaveProgramsToFile w1 programs filename m = SaveProgramsToFile w2 programs filename m.
Proof. unfold SaveProgramsToFile, ioutil_WriteFile. now rewrite same_disk. Qed.

Lemma run_mode_ext fuel client lowered m :
  few_args w1 = few_args w2 ->
  os_Arg w1 2 = os_Arg w2 2 ->
  run_mode lib w1 fuel client lowered m = run_mode lib w2 fuel client lowered m.
Proof.
  intros Hfew Harg. unfold run_mode. rewrite Hfew, Harg.
  unfold GetStructuredScopes, GetWeaknesses, GetAllPrograms, GetProgram,
    GetAllProgramsPaginated.
  repeat first
    [ reflexivity
    | apply makeRequest_ext
    | apply paginate_ext
    | apply SaveProgramsToFile_ext
    | apply bind_ext; [|intros]
    | match goal with
      | |- context [match ?x with _ => _ end] => destruct x
      end ].
Qed.

End SameServer.

(** *** Only [main] exits *)

Lemma bind_no_exit {A B} (x : M A) (f : A -> M B) (m : Machine) :
  no_exit (x m) -> (forall a m', no_exit (f a m')) -> no_exit (bind x f m).
Proof. unfold bind. destruct (x m); simpl; auto. Qed.

Lemma range_no_exit {A} (body : Z -> A -> M unit) (xs : list A) :
  (forall i a m, no_exit (body i a m)) ->
  forall i m, no_exit (range body i xs m).
Proof.
  intros Hbody. induction xs as [|x xs IH]; intros i m; simpl; [exact I|].
  apply bind_no_exit; auto.
Qed.

Lemma makeRequest_no_exit lib w c method endpoint m :
  no_exit (makeRequest lib w c method endpoint m).
Proof.
  rewrite makeRequest_runs. unfold makeRequest_outcome.
  repeat match goal with
         | |- context [match ?x with _ => _ end] => destruct x
         end; exact I.
Qed.

Lemma paginate_no_exit lib w c fuel :
  forall acc url page m, no_exit (paginate lib w c fuel acc url page m).
Proof.
  induction fuel as [|fuel IH]; intros acc url page m;
    (destruct (string_dec url "") as [-> | Hurl];
     [rewrite paginate_done; exact I|]).
  - now rewrite Running_without_fuel.
  - rewrite paginate_S by assumption.
    apply bind_no_exit; [exact I|]. intros [] m0.
    apply bind_no_exit; [apply makeRequest_no_exit|]. intros [body [err|]] m1;
      [exact I|].
    destruct (Unmarshal_ProgramsResponse lib (default "" body)) as [p|e];
      [|exact I].
    apply bind_no_exit; [exact I|]. intros [] m2.
    destruct (Links p !! "next") as [l|]; [|apply IH].
    destruct (negb (String.eqb l "")); [|apply IH].
    apply bind_no_exit; [exact I|]. intros [] m3. apply IH.
Qed.

Ltac no_exit_tac :=
  repeat first
    [ exact I
    | apply makeRequest_no_exit
    | apply paginate_no_exit
    | apply range_no_exit; intros
    | apply bind_no_exit; [|intros]
    | match goal with
      | |- no_exit (match ?x with _ => _ end _) => destruct x
      | |- no_exit ((if ?b then _ else _) _) => destruct b
      end ].

Lemma no_exit_known_mode {A} (r : Res A) : no_exit r -> known_mode r.
Proof. unfold known_mode. destruct r; simpl; intros H; [discriminate | destruct H | discriminate]. Qed.

Lemma bind_known_mode {A B} (x : M A) (f : A -> M B) (m : Machine) :
  no_exit (x m) -> (forall a m', known_mode (f a m')) -> known_mode (bind x f m).
Proof.
  unfold bind. destruct (x m); simpl; intros H Hf; auto; try destruct H.
  unfold known_mode. discriminate.
Qed.

Lemma fatal_message_log {A} (msg : string) (m : Machine) :
  fatal_message (@log_Fatal A msg m) = Some msg.
Proof. unfold log_Fatal, fatal_message. cbn [trace]. now rewrite last_snoc. Qed.

Lemma log_known_mode {A} (msg : string) (m : Machine) :
  msg <> invalid_mode_msg -> known_mode (@log_Fatal A msg m).
Proof. unfold known_mode. rewrite fatal_message_log. congruence. Qed.

Ltac known_mode_tac :=
  repeat first
    [ apply log_known_mode; discriminate
    | apply no_exit_known_mode; solve [no_exit_tac]
    | apply bind_known_mode; [solve [no_exit_tac]|intros]
    | match goal with
      | |- known_mode (match ?x with _ => _ end _) => destruct x
      | |- known_mode ((if ?b then _ else _) _) => destruct b
      end ].

(** Each of the six subcommands ends in a way other than the fatal error
    of an unknown subcommand. *)
Lemma six_modes_known lib w fuel client name m :
  In name six_modes -> known_mode (run_mode lib w fuel client name m).
Proof.
  intros Hin. unfold six_modes in Hin. simpl in Hin.
  destruct Hin as [<-|[<-|[<-|[<-|[<-|[<-|[]]]]]]];
    unfold run_mode; cbn [String.eqb Ascii.eqb Bool.eqb];
    unfold GetStructuredScopes, GetWeaknesses, GetAllPrograms, GetProgram,
      GetAllProgramsPaginated, SaveProgramsToFile, ioutil_WriteFile,
      PrintStructuredScopes, PrintWeaknesses, PrintPrograms, PrintProgram;
    known_mode_tac.
Qed.

(** *** Dispatch *)

Lemma six_modes_lower (name : string) :
  In name six_modes -> isASCII name = true /\ lower_ascii name = name.
Proof.
  unfold six_modes. simpl.
  intros [<-|[<-|[<-|[<-|[<-|[<-|[]]]]]]]; split; reflexivity.
Qed.

Lemma ToLower_ascii ul (s : string) : isASCII s = true -> ToLower ul s = lower_ascii s.
Proof. unfold ToLower. now intros ->. Qed.

Lemma same_letter_lower (c d : ascii) :
  same_letter c d = true -> (nat_of_ascii d <? 128)%nat = true -> lower_byte d = d ->
  (nat_of_ascii c <? 128)%nat = true /\ lower_byte c = d.
Proof.
  unfold same_letter. intros H Hd Hl.
  apply orb_true_iff in H as [H|H].
  - apply Ascii.eqb_eq in H. subst c. auto.
  - apply andb_true_iff in H as [H Hc]. apply andb_true_iff in H as [Hlo Hhi].
    apply Nat.leb_le in Hlo, Hhi. apply Nat.eqb_eq in Hc.
    split; [apply Nat.ltb_lt; lia|].
    unfold lower_byte. rewrite Hc.
    assert ((65 <=? nat_of_ascii d - 32)%nat && (nat_of_ascii d - 32 <=? 90)%nat = true) as ->.
    { apply andb_true_iff. split; apply Nat.leb_le; lia. }
    replace (nat_of_ascii d - 32 + 32)%nat with (nat_of_ascii d) by lia.
    apply ascii_nat_embedding.
Qed.

Lemma lower_same_letter (c : ascii) : same_letter c (lower_byte c) = true.
Proof.
  unfold same_letter, lower_byte.
  destruct ((65 <=? nat_of_ascii c)%nat && (nat_of_ascii c <=? 90)%nat) eqn:E.
  - apply andb_true_iff in E as [Hlo Hhi]. apply Nat.leb_le in Hlo, Hhi.
    rewrite nat_ascii_embedding by lia. apply orb_true_iff. right.
    repeat (apply andb_true_iff; split);
      [apply Nat.leb_le; lia | apply Nat.leb_le; lia | apply Nat.eqb_eq; lia].
  - now rewrite Ascii.eqb_refl.
Qed.

Lemma case_variant_lower (s : string) :
  forall name,
    case_variant s name = true -> isASCII name = true -> lower_ascii name = name ->
    isASCII s = true /\ lower_ascii s = name.
Proof.
  induction s as [|c s IH]; intros [|d name]; cbn [case_variant isASCII lower_ascii];
    try discriminate; [auto|].
  intros H Ha Hl. apply andb_true_iff in H as [Hc Hs]. apply andb_true_iff in Ha as [Hd Ha].
  injection Hl as Hl1 Hl2.
  destruct (same_letter_lower c d Hc Hd Hl1) as [Hc1 Hc2].
  destruct (IH name Hs Ha Hl2) as [Hs1 Hs2].
  rewrite Hc1, Hs1, Hc2, Hs2. auto.
Qed.

Lemma lower_case_variant (s : string) : case_variant s (lower_ascii s) = true.
Proof.
  induction s as [|c s IH]; cbn [case_variant lower_ascii]; [reflexivity|].
  now rewrite lower_same_letter, IH.
Qed.

Lemma case_variant_ToLower ul (s name : string) :
  In name six_modes -> case_variant s name = true -> ToLower ul s = name.
Proof.
  intros Hin Hs. destruct (six_modes_lower name Hin) as [Ha Hl].
  destruct (case_variant_lower s name Hs Ha Hl) as [Hs1 Hs2].
  now rewrite ToLower_ascii.
Qed.

Lemma os_Arg_mode (w : World) (s : string) :
  (2 <= length (Args w))%nat -> os_Arg (with_mode w s) 1 = s.
Proof.
  intros H. unfold os_Arg, with_mode. cbn [Args].
  rewrite list_lookup_insert_eq by lia. reflexivity.
Qed.

Lemma main_with_mode lib w fuel m (s : string) :
  main lib (with_mode w s) fuel m =
  if String.eqb (os_Getenv w "HACKERONE_USERNAME") ""
     || String.eqb (os_Getenv w "HACKERONE_TOKEN") ""
  then log_Fatal credentials_msg m
  else if (length (Args w) <? 2)%nat then usage m
  else run_mode lib w fuel
         (NewH1Client (os_Getenv w "HACKERONE_USERNAME")
                      (os_Getenv w "HACKERONE_TOKEN"))
         (ToLower (unicode_lower lib) s) m.
Proof.
  unfold main.
  change (os_Getenv (with_mode w s)) with (os_Getenv w).
  destruct (_ || _); [reflexivity|].
  change (Args (with_mode w s)) with (<[1%nat := s]> (Args w)).
  rewrite length_insert.
  destruct (length (Args w) <? 2)%nat eqn:Hlen; [reflexivity|].
  apply Nat.ltb_ge in Hlen. rewrite os_Arg_mode by assumption.
  apply run_mode_ext; try reflexivity.
  - unfold few_args, with_mode. cbn [Args]. now rewrite length_insert.
  - unfold os_Arg, with_mode. cbn [Args].
    now rewrite list_lookup_insert_ne by discriminate.
Qed.

(** C10: [main] lowers its argument before the [switch]: an argument
    that spells one of the six subcommand names with any of its letters
    in capitals is lowered to the name, runs as the name itself and
    enters the case of that name, never the fatal error of an unknown
    subcommand; two arguments with the same lowered form give the same
    run; and the run ends in that fatal error exactly when the lowered
    argument is none of the six names, which for an ASCII argument means
    that it spells none of them. *)
Theorem dispatch_ignores_case lib w fuel m :
  (forall s s',
      ToLower (unicode_lower lib) s = ToLower (unicode_lower lib) s' ->
      main lib (with_mode w s) fuel m = main lib (with_mode w s') fuel m)
  /\ (forall s name,
        In name six_modes -> case_variant s name = true ->
        ToLower (unicode_lower lib) s = name
        /\ main lib (with_mode w s) fuel m = main lib (with_mode w name) fuel m)
  /\ (os_Getenv w "HACKERONE_USERNAME" <> "" ->
      os_Getenv w "HACKERONE_TOKEN" <> "" ->
      (2 <= length (Args w))%nat ->
      let mode := os_Arg w 1 in
      let lowered := ToLower (unicode_lower lib) mode in
      (forall name,
          In name six_modes -> case_variant mode name = true ->
          main lib w fuel m = run_mode lib w fuel (env_client w) name m
          /\ known_mode (main lib w fuel m))
      /\ (isASCII mode = true ->
          (fatal_message (main lib w fuel m) = Some invalid_mode_msg
           <-> forall name, In name six_modes -> case_variant mode name = false))
      /\ (~ In lowered six_modes ->
          main lib w fuel m = Exit 1 (after m 0 [LogFatal invalid_mode_msg]))
      /\ (In lowered six_modes -> known_mode (main lib w fuel m))
      /\ (fatal_message (main lib w fuel m) = Some invalid_mode_msg
          <-> ~ In lowered six_modes)).
Proof.
  assert (forall s s',
      ToLower (unicode_lower lib) s = ToLower (unicode_lower lib) s' ->
      main lib (with_mode w s) fuel m = main lib (with_mode w s') fuel m) as Hsame.
  { intros s s' H. rewrite !main_with_mode. now rewrite H. }
  split; [exact Hsame|]. split.
  - intros s name Hin Hs.
    pose proof (case_variant_ToLower (unicode_lower lib) s name Hin Hs) as Hlow.
    split; [exact Hlow|]. apply Hsame. rewrite Hlow.
    destruct (six_modes_lower name Hin) as [Ha Hl]. now rewrite ToLower_ascii.
  - intros Huser Htoken Hargs mode lowered.
    assert (main lib w fuel m
            = run_mode lib w fuel (env_client w) lowered m) as Hmain.
    { unfold main. apply String.eqb_neq in Huser, Htoken.
      rewrite Huser, Htoken. cbn [orb].
      assert ((length (Args w) <? 2)%nat = false) as -> by now apply Nat.ltb_ge.
      reflexivity. }
    assert (~ In lowered six_modes ->
            main lib w fuel m = Exit 1 (after m 0 [LogFatal invalid_mode_msg])) as Hunknown.
    { intros Hnot. rewrite Hmain. unfold run_mode.
      unfold six_modes in Hnot. simpl in Hnot.
      repeat match goal with
             | |- (if String.eqb lowered ?name then _ else _) _ = _ =>
               destruct (String.eqb_spec lowered name) as [E|_];
               [exfalso; apply Hnot; rewrite E; tauto|]
             end.
      apply log_Fatal_after. }
    assert (In lowered six_modes -> known_mode (main lib w fuel m)) as Hknown.
    { intros Hin. rewrite Hmain. now apply six_modes_known. }
    assert (fatal_message (main lib w fuel m) = Some invalid_mode_msg
            <-> ~ In lowered six_modes) as Hiff.
    { split.
      - intros Hfatal Hin. now apply (Hknown Hin).
      - intros Hnot. rewrite (Hunknown Hnot). unfold fatal_message.
        cbn [after trace]. now rewrite last_snoc. }
    split; [|split; [|auto]].
    + intros name Hin Hs.
      pose proof (case_variant_ToLower (unicode_lower lib) mode name Hin Hs) as Hlow.
      fold lowered in Hlow. split.
      * now rewrite Hmain, Hlow.
      * apply Hknown. now rewrite Hlow.
    + intros Hascii. rewrite Hiff. unfold lowered. rewrite ToLower_ascii by assumption.
      split.
      * intros Hnot name Hin. destruct (case_variant mode name) eqn:Hs; [|reflexivity].
        exfalso. apply Hnot.
        destruct (six_modes_lower name Hin) as [Ha Hl].
        destruct (case_variant_lower mode name Hs Ha Hl) as [_ <-]. exact Hin.
      * intros Hnone Hin. specialize (Hnone _ Hin).
        now rewrite lower_case_variant in Hnone.
Qed.

Lemma dispatch_ignores_case_witness :
  (main Examples.lib (with_mode Examples.w_single "PROGRAMS-All") 3 boot
   = run_mode Examples.lib (with_mode Examples.w_single "PROGRAMS-All") 3
       Examples.client "programs-all" boot
   /\ known_mode (main Examples.lib (with_mode Examples.w_single "PROGRAMS-All")
                       3 boot))
  /\ main Examples.lib (with_mode Examples.w_single "PROGRAMS-All") 3 boot
     = main Examples.lib Examples.w_single 3 boot
  /\ main Examples.lib (with_mode Examples.w_single "frobnicate") 3 boot
     = Exit 1 (after boot 0 [LogFatal invalid_mode_msg]).
Proof.
  destruct (dispatch_ignores_case Examples.lib
              (with_mode Examples.w_single "PROGRAMS-All") 3 boot)
    as (_ & _ & Hmode).
  destruct (dispatch_ignores_case Examples.lib Examples.w_single 3 boot)
    as (_ & Hvariant & _).
  destruct (dispatch_ignores_case Examples.lib
              (with_mode Examples.w_single "frobnicate") 3 boot)
    as (_ & _ & Hunknown).
  split; [|split].
  - apply Hmode; try discriminate; [simpl; lia | simpl; tauto | reflexivity].
  - apply (Hvariant "PROGRAMS-All" "programs-all"); [simpl; tauto | reflexivity].
  - apply Hunknown; try discriminate.
    + simpl. lia.
    + vm_compute. intuition discriminate.
Defined.

(** ** [encoding/json]: what is written is read back *)

Module JsonFacts.
Import utf8 json.

(** *** UTF-8 *)

Ltac zlia := Z.to_euclidean_division_equations; lia.

Lemma land_lowbits (x k : Z) : 0 <= k -> Z.land x (2 ^ k - 1) = x mod 2 ^ k.
Proof.
  intros Hk. rewrite <- Z.land_ones by assumption. f_equal.
  rewrite Z.ones_equiv. lia.
Qed.

Lemma land_shifted_small (a b k : Z) :
  0 <= k -> 0 <= b < 2 ^ k -> Z.land (a * 2 ^ k) b = 0.
Proof.
  intros Hk Hb. apply Z.bits_inj'. intros n Hn.
  rewrite Z.land_spec, Z.bits_0, <- Z.shiftl_mul_pow2 by assumption.
  destruct (Z.lt_ge_cases n k) as [Hlt|Hge].
  - now rewrite Z.shiftl_spec_low.
  - rewrite <- (Z.mod_small b (2 ^ k)) by assumption.
    rewrite Z.mod_pow2_bits_high by zlia. apply andb_false_r.
Qed.

Lemma lor_disjoint (a b k : Z) :
  0 <= k -> 0 <= b < 2 ^ k -> Z.lor (a * 2 ^ k) b = a * 2 ^ k + b.
Proof.
  intros Hk Hb.
  pose proof (land_shifted_small a b k Hk Hb) as H.
  rewrite <- (Z.lxor_lor _ _ H). symmetry. now apply Z.add_nocarry_lxor.
Qed.

Lemma byte_range (c : ascii) : 0 <= byte c < 256.
Proof. unfold byte. pose proof (nat_ascii_bounded c). lia. Qed.

Lemma chr_byte (c : ascii) : chr (byte c) = c.
Proof. unfold chr, byte. rewrite Nat2Z.id. apply ascii_nat_embedding. Qed.

Lemma byte_chr (z : Z) : 0 <= z < 256 -> byte (chr z) = z.
Proof.
  intros H. unfold chr, byte. rewrite nat_ascii_embedding by zlia. lia.
Qed.

Lemma land_63 x : Z.land x 63 = x mod 64.
Proof. apply (land_lowbits x 6). lia. Qed.
Lemma land_31 x : Z.land x 31 = x mod 32.
Proof. apply (land_lowbits x 5). lia. Qed.
Lemma land_15 x : Z.land x 15 = x mod 16.
Proof. apply (land_lowbits x 4). lia. Qed.
Lemma land_7 x : Z.land x 7 = x mod 8.
Proof. apply (land_lowbits x 3). lia. Qed.

Lemma shiftl_6 a : Z.shiftl a 6 = a * 64.
Proof. now rewrite Z.shiftl_mul_pow2 by zlia. Qed.
Lemma shiftl_12 a : Z.shiftl a 12 = a * 4096.
Proof. now rewrite Z.shiftl_mul_pow2 by zlia. Qed.
Lemma shiftl_18 a : Z.shiftl a 18 = a * 262144.
Proof. now rewrite Z.shiftl_mul_pow2 by zlia. Qed.
Lemma shiftr_6 a : Z.shiftr a 6 = a / 64.
Proof. now rewrite Z.shiftr_div_pow2 by zlia. Qed.
Lemma shiftr_12 a : Z.shiftr a 12 = a / 4096.
Proof. now rewrite Z.shiftr_div_pow2 by zlia. Qed.
Lemma shiftr_18 a : Z.shiftr a 18 = a / 262144.
Proof. now rewrite Z.shiftr_div_pow2 by zlia. Qed.

Lemma lor_mul64 a b : 0 <= b < 64 -> Z.lor (a * 64) b = a * 64 + b.
Proof. intros H. apply (lor_disjoint a b 6); zlia. Qed.

Lemma lor_lead (t x k p : Z) :
  p = 2 ^ k -> 0 <= k -> 0 <= x < p -> t mod p = 0 -> Z.lor t x = t + x.
Proof.
  intros -> Hk Hx Ht.
  assert (0 < 2 ^ k) as Hpos by (apply Z.pow_pos_nonneg; lia).
  assert (t = t / 2 ^ k * 2 ^ k) as E.
  { pose proof (Z.div_mod t (2 ^ k) ltac:(lia)) as H.
    rewrite Ht, Z.add_0_r, Z.mul_comm in H. exact H. }
  rewrite E. now apply lor_disjoint.
Qed.

Lemma cont_byte (r b : Z) :
  0x80 <= b <= 0xBF -> r mod 64 = b - 0x80 -> cont r = chr b.
Proof.
  intros Hb Hr. unfold cont. f_equal.
  rewrite land_63, Hr. rewrite (lor_lead 0x80 (b - 0x80) 6 64); [zlia | reflexivity | zlia | zlia | reflexivity].
Qed.

Ltac decide_tests :=
  repeat match goal with
         | |- context [?a <=? ?b] =>
           first [ replace (a <=? b) with true by (symmetry; apply Z.leb_le; zlia)
                 | replace (a <=? b) with false by (symmetry; apply Z.leb_gt; zlia) ]
         | |- context [?a <? ?b] =>
           first [ replace (a <? b) with true by (symmetry; apply Z.ltb_lt; zlia)
                 | replace (a <? b) with false by (symmetry; apply Z.ltb_ge; zlia) ]
         end.

(** Two bytes. *)
Lemma encode2 (b0 b1 : Z) :
  0xC2 <= b0 <= 0xDF -> 0x80 <= b1 <= 0xBF ->
  EncodeRune (Z.lor (Z.shiftl (Z.land b0 0x1F) 6) (Z.land b1 0x3F))
  = String (chr b0) (String (chr b1) EmptyString).
Proof.
  intros H0 H1.
  rewrite land_31, land_63, shiftl_6, lor_mul64 by zlia.
  set (r := b0 mod 32 * 64 + b1 mod 64).
  assert (r = (b0 - 0xC0) * 64 + (b1 - 0x80)) as Hr by (unfold r; zlia).
  unfold EncodeRune. decide_tests. cbn [andb].
  f_equal; [|f_equal].
  - f_equal. rewrite shiftr_6. rewrite (lor_lead 0xC0 (r / 64) 6 64); [zlia | reflexivity | zlia | zlia | reflexivity].
  - apply cont_byte; zlia.
Qed.

Lemma lead_byte (t x k p b : Z) :
  p = 2 ^ k -> 0 <= k -> 0 <= x < p -> t mod p = 0 -> t + x = b ->
  chr (Z.lor t x) = chr b.
Proof. intros Hp Hk Hx Ht <-. f_equal. now apply (lor_lead t x k p). Qed.

(** Three bytes. *)
Lemma encode3 (b0 b1 b2 : Z) :
  0xE0 <= b0 <= 0xEF -> 0x80 <= b1 <= 0xBF -> 0x80 <= b2 <= 0xBF ->
  (b0 = 0xE0 -> 0xA0 <= b1) -> (b0 = 0xED -> b1 <= 0x9F) ->
  EncodeRune (Z.lor (Z.lor (Z.shiftl (Z.land b0 0x0F) 12)
                           (Z.shiftl (Z.land b1 0x3F) 6))
                    (Z.land b2 0x3F))
  = String (chr b0) (String (chr b1) (String (chr b2) EmptyString)).
Proof.
  intros H0 H1 H2 Hlo Hhi.
  rewrite land_15, !land_63, shiftl_12, shiftl_6.
  rewrite (lor_lead (b0 mod 16 * 4096) (b1 mod 64 * 64) 12 4096);
    [|reflexivity|zlia..].
  rewrite (lor_lead (b0 mod 16 * 4096 + b1 mod 64 * 64) (b2 mod 64) 6 64);
    [|reflexivity|zlia..].
  set (r := b0 mod 16 * 4096 + b1 mod 64 * 64 + b2 mod 64).
  assert (r = (b0 - 0xE0) * 4096 + (b1 - 0x80) * 64 + (b2 - 0x80)) as Hr
    by (unfold r; zlia).
  assert (0x800 <= r <= 0xFFFF) as Hrange by zlia.
  assert (r < 0xD800 \/ 0xDFFF < r) as Hsur by zlia.
  unfold EncodeRune, MaxRune, RuneError.
  assert ((0xD800 <=? r) && (r <=? 0xDFFF) = false) as ->.
  { apply andb_false_iff. rewrite !Z.leb_gt. lia. }
  decide_tests. cbn [andb orb]. decide_tests.
  f_equal; [|f_equal; [|f_equal]].
  - rewrite shiftr_12. apply (lead_byte _ _ 4 16); [reflexivity|zlia..].
  - rewrite shiftr_6. apply cont_byte; zlia.
  - apply cont_byte; zlia.
Qed.

(** Four bytes. *)
Lemma encode4 (b0 b1 b2 b3 : Z) :
  0xF0 <= b0 <= 0xF4 -> 0x80 <= b1 <= 0xBF -> 0x80 <= b2 <= 0xBF ->
  0x80 <= b3 <= 0xBF ->
  (b0 = 0xF0 -> 0x90 <= b1) -> (b0 = 0xF4 -> b1 <= 0x8F) ->
  EncodeRune (Z.lor (Z.lor (Z.lor (Z.shiftl (Z.land b0 0x07) 18)
                                  (Z.shiftl (Z.land b1 0x3F) 12))
                           (Z.shiftl (Z.land b2 0x3F) 6))
                    (Z.land b3 0x3F))
  = String (chr b0) (String (chr b1) (String (chr b2)
                                        (String (chr b3) EmptyString))).
Proof.
  intros H0 H1 H2 H3 Hlo Hhi.
  rewrite land_7, !land_63, shiftl_18, shiftl_12, shiftl_6.
  rewrite (lor_lead (b0 mod 8 * 262144) (b1 mod 64 * 4096) 18 262144);
    [|reflexivity|zlia..].
  rewrite (lor_lead (b0 mod 8 * 262144 + b1 mod 64 * 4096) (b2 mod 64 * 64)
                    12 4096); [|reflexivity|zlia..].
  rewrite (lor_lead (b0 mod 8 * 262144 + b1 mod 64 * 4096 + b2 mod 64 * 64)
                    (b3 mod 64) 6 64); [|reflexivity|zlia..].
  set (r := b0 mod 8 * 262144 + b1 mod 64 * 4096 + b2 mod 64 * 64 + b3 mod 64).
  assert (r = (b0 - 0xF0) * 262144 + (b1 - 0x80) * 4096 + (b2 - 0x80) * 64
              + (b3 - 0x80)) as Hr by (unfold r; zlia).
  assert (0x10000 <= r <= 0x10FFFF) as Hrange by zlia.
  unfold EncodeRune, MaxRune, RuneError.
  decide_tests. cbn [andb orb]. decide_tests.
  f_equal; [|f_equal; [|f_equal; [|f_equal]]].
  - rewrite shiftr_18. apply (lead_byte _ _ 3 8); [reflexivity|zlia..].
  - rewrite shiftr_12. apply cont_byte; zlia.
  - rewrite shiftr_6. apply cont_byte; zlia.
  - apply cont_byte; zlia.
Qed.

Ltac tests_to_props :=
  repeat match goal with
         | H : negb _ = false |- _ => apply negb_false_iff in H
         | H : negb _ = true |- _ => apply negb_true_iff in H
         | H : in_range _ _ _ = true |- _ => unfold in_range in H
         | H : (_ && _) = true |- _ => apply andb_prop in H as [? ?]
         | H : (_ <=? _) = true |- _ => apply Z.leb_le in H
         | H : (_ <=? _) = false |- _ => apply Z.leb_gt in H
         | H : (_ <? _) = true |- _ => apply Z.ltb_lt in H
         | H : (_ <? _) = false |- _ => apply Z.ltb_ge in H
         | H : (_ =? _) = true |- _ => apply Z.eqb_eq in H
         | H : (_ =? _) = false |- _ => apply Z.eqb_neq in H
         end.

Lemma first_cases (b0 : Z) (sz : nat) (lo hi : Z) :
  first b0 = Some (sz, lo, hi) ->
  0x80 <= lo /\ hi <= 0xBF
  /\ ((sz = 2%nat /\ 0xC2 <= b0 <= 0xDF)
      \/ (sz = 3%nat /\ 0xE0 <= b0 <= 0xEF
          /\ (b0 = 0xE0 -> 0xA0 <= lo) /\ (b0 = 0xED -> hi <= 0x9F))
      \/ (sz = 4%nat /\ 0xF0 <= b0 <= 0xF4
          /\ (b0 = 0xF0 -> 0x90 <= lo) /\ (b0 = 0xF4 -> hi <= 0x8F))).
Proof.
  unfold first.
  repeat match goal with
         | |- context [if ?b then _ else _] => destruct b eqn:?
         end; intros H; try discriminate; injection H as <- <- <-;
    tests_to_props; (split; [lia|]); (split; [lia|]);
    [left | right; left | right; left | right; left | right; left
     | right; right | right; right | right; right]; repeat split; lia.
Qed.

Lemma DecodeRune_encoding (s : string) (r : Z) (size : nat) :
  DecodeRune s = (r, size) -> s <> EmptyString ->
  (r, size) <> (RuneError, 1%nat) -> encoding s r size.
Proof.
  intros Hdec Hs Hvalid. destruct s as [|c0 s1]; [congruence|]. clear Hs.
  unfold DecodeRune in Hdec.
  destruct (byte c0 <? RuneSelf) eqn:Hascii.
  { injection Hdec as <- <-. constructor. now apply Z.ltb_lt. }
  destruct (first (byte c0)) as [[[sz lo] hi]|] eqn:Hfirst; [|congruence].
  apply first_cases in Hfirst as (Hlo & Hhi & Hsz).
  destruct s1 as [|c1 s2]; [congruence|].
  destruct (negb (in_range lo hi (byte c1))) eqn:Hb1; [congruence|].
  tests_to_props.
  destruct Hsz as [[-> ?] | [(-> & ? & ? & ?) | (-> & ? & ? & ?)]]; cbn [Nat.leb] in Hdec.
  - injection Hdec as <- <-. constructor; lia.
  - destruct s2 as [|c2 s3]; [congruence|].
    destruct (negb (in_range 128 191 (byte c2))) eqn:Hb2; [congruence|].
    tests_to_props. injection Hdec as <- <-. constructor; lia.
  - destruct s2 as [|c2 s3]; [congruence|].
    destruct (negb (in_range 128 191 (byte c2))) eqn:Hb2; [congruence|].
    destruct s3 as [|c3 s4]; [congruence|].
    destruct (negb (in_range 128 191 (byte c3))) eqn:Hb3; [congruence|].
    tests_to_props. injection Hdec as <- <-. constructor; lia.
Qed.

Lemma encoding_DecodeRune (s : string) (r : Z) (size : nat) :
  encoding s r size -> DecodeRune s = (r, size).
Proof.
  destruct 1; unfold DecodeRune, first, in_range, RuneSelf in *;
    repeat match goal with
           | |- context [if ?b then _ else _] => destruct b eqn:?
           end; cbn [Nat.leb negb] in *;
    tests_to_props; try reflexivity; try discriminate; try lia.
Qed.


(** Facts about a valid encoding at the head of a string. *)
Lemma encoding_encode s r size :
  encoding s r size -> EncodeRune r = take size s.
Proof.
  destruct 1; cbn [take].
  - unfold EncodeRune, RuneSelf in *. pose proof (byte_range c).
    decide_tests. cbn [andb]. now rewrite chr_byte.
  - rewrite encode2 by assumption. now rewrite !chr_byte.
  - rewrite encode3 by assumption. now rewrite !chr_byte.
  - rewrite encode4 by assumption. now rewrite !chr_byte.
Qed.

Lemma encoding_split s r size :
  encoding s r size ->
  take size s +:+ skip size s = s
  /\ (String.length (skip size s) < String.length s)%nat
  /\ forall t, skip size (take size s +:+ t) = t
               /\ encoding (take size s +:+ t) r size.
Proof.
  destruct 1; cbn [take skip String.append String.length];
    (split; [reflexivity|]); (split; [lia|]); intros t;
    (split; [reflexivity|]); now constructor.
Qed.

Lemma encoding_high s r size c t :
  encoding s r size -> s = String c t -> RuneSelf <= byte c ->
  high (take size s).
Proof.
  unfold RuneSelf.
  destruct 1; intros E Hc; injection E as <- <-; cbn [take high];
    repeat split; unfold RuneSelf; lia.
Qed.

Lemma prepend_prepend p1 p2 o :
  prepend p1 (prepend p2 o) = prepend (p1 +:+ p2) o.
Proof. destruct o as [[lit rest]|]; simpl; [now rewrite append_assoc | reflexivity]. Qed.

Lemma scan_high (p t : string) :
  high p -> scan_string (p +:+ t) = prepend p (scan_string t).
Proof.
  induction p as [|c p IH]; intros Hp.
  - simpl. now destruct (scan_string t) as [[? ?]|].
  - destruct Hp as [Hc Hp]. unfold RuneSelf in Hc.
    cbn [String.append scan_string]. decide_tests.
    replace (byte c =? 34) with false by (symmetry; apply Z.eqb_neq; lia).
    replace (byte c =? 92) with false by (symmetry; apply Z.eqb_neq; lia).
    rewrite (IH Hp). now destruct (scan_string t) as [[? ?]|].
Qed.

Lemma scan_safe (c : ascii) (t : string) :
  htmlSafe (byte c) = true ->
  scan_string (String c t) = prepend (String c EmptyString) (scan_string t).
Proof.
  intros H. unfold htmlSafe in H. apply andb_prop in H as [H1 H2].
  apply negb_true_iff in H2. repeat (apply orb_false_elim in H2 as [H2 ?]).
  cbn [scan_string]. tests_to_props. decide_tests.
  replace (byte c =? 34) with false by (symmetry; apply Z.eqb_neq; lia).
  replace (byte c =? 92) with false by (symmetry; apply Z.eqb_neq; lia).
  now destruct (scan_string t) as [[? ?]|].
Qed.

Lemma scan_escape_byte (c : ascii) (t : string) :
  byte c < RuneSelf -> htmlSafe (byte c) = false ->
  scan_string (escape_byte (byte c) +:+ t)
  = prepend (escape_byte (byte c)) (scan_string t).
Proof.
  destruct c as [[] [] [] [] [] [] [] []]; intros Hc Hs;
    try discriminate Hs; try (exfalso; revert Hc; vm_compute; congruence);
    vm_compute escape_byte; cbn [String.append scan_string];
    (destruct (scan_string t) as [[? ?]|]; reflexivity).
Qed.

Lemma not_invalid (r : Z) (size : nat) :
  (r =? RuneError) && (size =? 1)%nat = false -> (r, size) <> (RuneError, 1%nat).
Proof.
  intros H E. injection E as -> ->. discriminate.
Qed.

Lemma separator_digit (r : Z) :
  (r =? 0x2028) || (r =? 0x2029) = true ->
  is_hex (hex_digit (Z.land r 0xF)) = true
  /\ getu4 (String backslash ("u202" +:+ String (hex_digit (Z.land r 0xF)) EmptyString)) = r.
Proof.
  intros H. apply orb_prop in H as [H|H]; apply Z.eqb_eq in H; subst r;
    split; reflexivity.
Qed.

(** The scanner reads what [appendString] wrote up to the closing quote. *)
Lemma scan_escape (n : nat) :
  forall s rest,
    (String.length s <= n)%nat ->
    scan_string (escape n s +:+ String quote rest) = Some (escape n s, rest).
Proof.
  induction n as [|n IH]; intros s rest Hlen.
  - destruct s; [reflexivity | simpl in Hlen; lia].
  - destruct s as [|c r]; [reflexivity|]. cbn [String.length] in Hlen.
    cbn [escape]. destruct (byte c <? RuneSelf) eqn:Hascii.
    + destruct (htmlSafe (byte c)) eqn:Hsafe.
      * cbn [String.append]. rewrite scan_safe by assumption.
        rewrite IH by lia. reflexivity.
      * rewrite append_assoc, scan_escape_byte; [|now apply Z.ltb_lt|assumption].
        rewrite IH by lia. reflexivity.
    + destruct (DecodeRune (String c r)) as [rr size] eqn:Hdec.
      destruct ((rr =? RuneError) && (size =? 1)%nat) eqn:Hinv.
      * cbn [String.append scan_string]. rewrite IH by lia. reflexivity.
      * apply not_invalid in Hinv.
        pose proof (DecodeRune_encoding _ _ _ Hdec ltac:(discriminate) Hinv) as Henc.
        destruct (encoding_split _ _ _ Henc) as (_ & Hskip & _).
        cbn [String.length] in Hskip.
        destruct ((rr =? 0x2028) || (rr =? 0x2029)) eqn:Hsep.
        -- destruct (separator_digit rr Hsep) as [Hhex _].
           cbn [String.append scan_string]. rewrite Hhex.
           change (is_hex "2" && is_hex "0" && is_hex "2" && true) with true.
           cbv iota. rewrite IH by lia. reflexivity.
        -- rewrite append_assoc, scan_high.
           ++ rewrite IH by lia. reflexivity.
           ++ apply (encoding_high _ _ _ c r Henc eq_refl).
              now apply Z.ltb_ge.
Qed.

Lemma unquote_escape_byte (c : ascii) (t : string) (k : nat) :
  byte c < RuneSelf -> htmlSafe (byte c) = false ->
  unquote (S k) (escape_byte (byte c) +:+ t) = cons_to c (unquote k t).
Proof.
  destruct c as [[] [] [] [] [] [] [] []]; intros Hc Hs;
    try discriminate Hs; try (exfalso; revert Hc; vm_compute; congruence);
    vm_compute escape_byte; reflexivity.
Qed.

Lemma unquote_safe (c : ascii) (t : string) (k : nat) :
  byte c < RuneSelf -> htmlSafe (byte c) = true ->
  unquote (S k) (String c t) = cons_to c (unquote k t).
Proof.
  intros Hc H. unfold htmlSafe in H. apply andb_prop in H as [H1 H2].
  apply negb_true_iff in H2. repeat (apply orb_false_elim in H2 as [H2 ?]).
  cbn [unquote]. tests_to_props. decide_tests.
  replace (byte c =? 34) with false by (symmetry; apply Z.eqb_neq; lia).
  replace (byte c =? 92) with false by (symmetry; apply Z.eqb_neq; lia).
  reflexivity.
Qed.

Lemma unquote_rune (s : string) (r : Z) (size : nat) (c : ascii) (s' t : string)
    (k : nat) :
  encoding s r size -> s = String c s' -> RuneSelf <= byte c ->
  unquote (S k) (take size s +:+ t)
  = match unquote k t with
    | Some u => Some (take size s +:+ u)
    | None => None
    end.
Proof.
  intros Henc Hs Hc.
  destruct (encoding_split _ _ _ Henc) as (_ & _ & Ht).
  destruct (Ht t) as [Hskip Henc'].
  pose proof (encoding_DecodeRune _ _ _ Henc') as Hdec.
  pose proof (encoding_encode _ _ _ Henc) as Hencode.
  assert (exists p, take size s +:+ t = String c p) as [p Hp].
  { clear Hdec Hencode Henc' Hskip Ht.
    destruct Henc; injection Hs as <- <-; cbn [take String.append]; eauto. }
  rewrite Hp in *. cbn [unquote]. unfold RuneSelf in Hc. decide_tests.
  replace (byte c =? 34) with false by (symmetry; apply Z.eqb_neq; lia).
  replace (byte c =? 92) with false by (symmetry; apply Z.eqb_neq; lia).
  cbn [orb]. replace (byte c <? RuneSelf) with false
    by (symmetry; apply Z.ltb_ge; unfold RuneSelf; lia).
  rewrite Hdec, Hskip, Hencode. reflexivity.
Qed.

Lemma unquote_nil (k : nat) : unquote k EmptyString = Some EmptyString.
Proof. now destruct k. Qed.

(** [unquote] gives back the string [appendString] was given, when that
    string is valid UTF-8. *)
Lemma unquote_escape (n : nat) :
  forall s k,
    (String.length s <= n)%nat -> Valid n s = true ->
    (String.length (escape n s) <= k)%nat ->
    unquote k (escape n s) = Some s.
Proof.
  induction n as [|n IH]; intros s k Hlen Hvalid Hk.
  - destruct s; [apply unquote_nil | simpl in Hlen; lia].
  - destruct s as [|c r]; [apply unquote_nil|]. cbn [String.length] in Hlen.
    cbn [escape Valid] in *.
    destruct (DecodeRune (String c r)) as [rr size] eqn:Hdec.
    destruct ((rr =? RuneError) && (size =? 1)%nat) eqn:Hinv; [discriminate|].
    apply not_invalid in Hinv.
    pose proof (DecodeRune_encoding _ _ _ Hdec ltac:(discriminate) Hinv) as Henc.
    destruct (encoding_split _ _ _ Henc) as (Hsplit & Hskip & _).
    cbn [String.length] in Hskip.
    destruct (byte c <? RuneSelf) eqn:Hascii.
    + assert (size = 1%nat) as ->.
      { unfold DecodeRune in Hdec. rewrite Hascii in Hdec. congruence. }
      cbn [skip] in Hvalid. apply Z.ltb_lt in Hascii.
      destruct (htmlSafe (byte c)) eqn:Hsafe.
      * cbn [String.length] in Hk. destruct k as [|k]; [lia|].
        rewrite unquote_safe by assumption. rewrite IH by (assumption || lia). reflexivity.
      * rewrite length_append in Hk.
        assert (1 <= String.length (escape_byte (byte c)))%nat
          by (unfold escape_byte;
              repeat match goal with |- context [if ?b then _ else _] => destruct b end;
              simpl; lia).
        destruct k as [|k]; [lia|].
        rewrite unquote_escape_byte by assumption. rewrite IH by (assumption || lia). reflexivity.
    + apply Z.ltb_ge in Hascii.
      destruct ((rr =? 0x2028) || (rr =? 0x2029)) eqn:Hsep.
      * destruct (separator_digit rr Hsep) as [_ Hu4].
        rewrite length_append in Hk. cbn [String.length String.append] in Hk.
        destruct k as [|k]; [lia|].
        cbn [String.append unquote].
        change (byte backslash =? 92) with true. cbv iota.
        change (byte "u" =? 34) with false. change (byte "u" =? 92) with false.
        change (byte "u" =? 47) with false. change (byte "u" =? 39) with false.
        change (byte "u" =? 98) with false. change (byte "u" =? 102) with false.
        change (byte "u" =? 110) with false. change (byte "u" =? 114) with false.
        change (byte "u" =? 116) with false. change (byte "u" =? 117) with true.
        cbn [orb]. cbv iota.
        match goal with
        | |- context [getu4 ?x] =>
          replace (getu4 x) with rr
        end.
        assert ((rr <? 0) = false) as ->.
        { apply orb_prop in Hsep as [H|H]; apply Z.eqb_eq in H; now subst. }
        assert (IsSurrogate rr = false) as ->.
        { apply orb_prop in Hsep as [H|H]; apply Z.eqb_eq in H; now subst. }
        cbn [skip]. rewrite IH by (assumption || lia).
        rewrite (encoding_encode _ _ _ Henc), Hsplit. reflexivity.
      * rewrite length_append in Hk.
        assert (1 <= String.length (take size (String c r)))%nat
          by (destruct Henc; simpl; lia).
        destruct k as [|k]; [lia|].
        rewrite (unquote_rune _ _ _ c r _ _ Henc eq_refl Hascii).
        rewrite IH by (assumption || lia). now rewrite Hsplit.
Qed.

Lemma read_appendString (s rest : string) :
  ValidString s = true ->
  read_string (escape (String.length s) s +:+ String quote rest) = Some (s, rest).
Proof.
  intros Hvalid. unfold read_string.
  rewrite scan_escape by lia.
  rewrite unquote_escape; [reflexivity | lia | exact Hvalid | lia].
Qed.

(** *** Rendered values *)

Lemma render_array (d : nat) (x : value) (xs : list value) :
  render d (Array (x :: xs))
  = "[" +:+ newline (S d) +:+ render (S d) x +:+ elements_tail d xs
    +:+ newline d +:+ "]".
Proof.
  cbn [render]. do 3 f_equal. f_equal.
  induction xs as [|y l IH]; [reflexivity|].
  cbn [elements_tail]. now rewrite <- IH.
Qed.

Lemma render_object (d : nat) (k : string) (x : value) (ms : list (string * value)) :
  render d (Object ((k, x) :: ms))
  = "{" +:+ newline (S d) +:+ appendString k +:+ ": " +:+ render (S d) x
    +:+ members_tail d ms +:+ newline d +:+ "}".
Proof.
  cbn [render]. do 5 f_equal. f_equal.
  induction ms as [|[k' y] l IH]; [reflexivity|].
  cbn [members_tail]. now rewrite <- IH.
Qed.

Lemma value_induction (P : value -> Prop) :
  P Null -> (forall b, P (Bool b)) -> (forall lit, P (Number lit)) ->
  (forall s, P (Str s)) ->
  (forall xs, Forall P xs -> P (Array xs)) ->
  (forall ms, Forall (fun m => P (snd m)) ms -> P (Object ms)) ->
  forall v, P v.
Proof.
  intros Hnull Hbool Hnum Hstr Harr Hobj.
  fix IH 1. intros [ | b | lit | s | xs | ms].
  - exact Hnull.
  - apply Hbool.
  - apply Hnum.
  - apply Hstr.
  - apply Harr. induction xs as [|x xs IHxs]; constructor; [apply IH | exact IHxs].
  - apply Hobj. induction ms as [|[k x] ms IHms]; constructor; [apply IH | exact IHms].
Qed.

(** *** Space and the first byte of a rendered value *)

Lemma skip_space_solid (s : string) : solid s -> skip_space s = s.
Proof. intros (c & t & -> & Hc & _). cbn [skip_space]. now rewrite Hc. Qed.

Lemma skip_space_indentation (d : nat) (t : string) :
  skip_space (indentation d +:+ t) = skip_space t.
Proof. induction d as [|d IH]; [reflexivity|]. cbn [indentation]. exact IH. Qed.

Lemma skip_space_newline (d : nat) (t : string) :
  skip_space (newline d +:+ t) = skip_space t.
Proof. unfold newline, nl. cbn [String.append skip_space]. apply skip_space_indentation. Qed.

Lemma solid_append (s t : string) : solid s -> solid (s +:+ t).
Proof. intros (c & u & -> & H). exists c, (u +:+ t). now split. Qed.

Lemma solid_appendString (k : string) : solid (appendString k).
Proof. unfold appendString. eexists _, _. split; [reflexivity|]. now vm_compute. Qed.

Lemma solid_render (d : nat) (v : value) : plain v -> solid (render d v).
Proof.
  intros Hv. destruct Hv as [ | b | s Hs | xs Hxs | ms Hms].
  - eexists _, _. split; [reflexivity|]. now vm_compute.
  - destruct b; (eexists _, _; split; [reflexivity|]; now vm_compute).
  - apply solid_appendString.
  - destruct xs; (eexists _, _; split; [reflexivity|]; now vm_compute).
  - destruct ms as [|[k x] ms]; (eexists _, _; split; [reflexivity|]; now vm_compute).
Qed.

(** *** Reading what [render] wrote *)

Lemma literal_here (word : string) (v : value) (rest : string) :
  literal word v (word +:+ rest) = Some (v, rest).
Proof.
  unfold literal.
  assert (HasPrefix (word +:+ rest) word = true) as ->
    by (apply HasPrefix_true; eauto).
  f_equal. f_equal. induction word as [|c w IH]; [reflexivity | exact IH].
Qed.

Lemma read_null f depth rest :
  read_value (S f) depth ("null" +:+ rest) = Some (Null, rest).
Proof. apply (literal_here "null"). Qed.

Lemma read_bool f depth b rest :
  read_value (S f) depth (fmt_t b +:+ rest) = Some (Bool b, rest).
Proof. destruct b; [apply (literal_here "true") | apply (literal_here "false")]. Qed.

Lemma read_value_quote f depth X :
  read_value (S f) depth (String quote X)
  = match read_string X with
    | Some (t, rest) => Some (Str t, rest)
    | None => None
    end.
Proof. reflexivity. Qed.

Lemma appendString_append (s rest : string) :
  appendString s +:+ rest
  = String quote (escape (String.length s) s +:+ String quote rest).
Proof. unfold appendString. cbn [String.append]. now rewrite append_assoc. Qed.

Lemma read_str f depth s rest :
  ValidString s = true ->
  read_value (S f) depth (appendString s +:+ rest) = Some (Str s, rest).
Proof.
  intros Hs. rewrite appendString_append, read_value_quote.
  now rewrite read_appendString.
Qed.

Lemma read_value_array f depth X :
  (depth < maxNestingDepth)%nat ->
  read_value (S f) depth (String "[" X)
  = match skip_space X with
    | String c' r' =>
      if byte c' =? 93 then Some (Array [], r')
      else
        match read_elements f (S depth) (String c' r') with
        | Some (xs, rest) => Some (Array xs, rest)
        | None => None
        end
    | EmptyString => None
    end.
Proof.
  intros H. apply Nat.leb_gt in H.
  change (read_value (S f) depth (String "[" X))
    with (if (maxNestingDepth <=? depth)%nat then None else
          match skip_space X with
          | String c' r' =>
            if byte c' =? 93 then Some (Array [], r')
            else
              match read_elements f (S depth) (String c' r') with
              | Some (xs, rest) => Some (Array xs, rest)
              | None => None
              end
          | EmptyString => None
          end).
  now rewrite H.
Qed.

Lemma read_value_object f depth X :
  (depth < maxNestingDepth)%nat ->
  read_value (S f) depth (String "{" X)
  = match skip_space X with
    | String c' r' =>
      if byte c' =? 125 then Some (Object [], r')
      else
        match read_members f (S depth) (String c' r') with
        | Some (ms, rest) => Some (Object ms, rest)
        | None => None
        end
    | EmptyString => None
    end.
Proof.
  intros H. apply Nat.leb_gt in H.
  change (read_value (S f) depth (String "{" X))
    with (if (maxNestingDepth <=? depth)%nat then None else
          match skip_space X with
          | String c' r' =>
            if byte c' =? 125 then Some (Object [], r')
            else
              match read_members f (S depth) (String c' r') with
              | Some (ms, rest) => Some (Object ms, rest)
              | None => None
              end
          | EmptyString => None
          end).
  now rewrite H.
Qed.

Lemma read_elements_S f depth s :
  read_elements (S f) depth s
  = match read_value f depth s with
    | None => None
    | Some (v, r1) =>
      match skip_space r1 with
      | String sep r2 =>
        if byte sep =? 44 then
          match read_elements f depth (skip_space r2) with
          | Some (xs, rest) => Some (v :: xs, rest)
          | None => None
          end
        else if byte sep =? 93 then Some ([v], r2)
        else None
      | EmptyString => None
      end
    end.
Proof. reflexivity. Qed.

Lemma read_members_S f depth r :
  read_members (S f) depth (String quote r)
  = match read_string r with
    | None => None
    | Some (k, r1) =>
      match skip_space r1 with
      | String colon r2 =>
        if negb (byte colon =? 58) then None else
        match read_value f depth (skip_space r2) with
        | None => None
        | Some (v, r3) =>
          match skip_space r3 with
          | String sep r4 =>
            if byte sep =? 44 then
              match read_members f depth (skip_space r4) with
              | Some (ms, rest) => Some ((k, v) :: ms, rest)
              | None => None
              end
            else if byte sep =? 125 then Some ([(k, v)], r4)
            else None
          | EmptyString => None
          end
        end
      | EmptyString => None
      end
    end.
Proof. reflexivity. Qed.

Lemma open_array f depth X Y :
  (depth < maxNestingDepth)%nat -> skip_space X = Y -> solid Y ->
  read_value (S f) depth (String "[" X)
  = match read_elements f (S depth) Y with
    | Some (xs, rest) => Some (Array xs, rest)
    | None => None
    end.
Proof.
  intros Hd HX (c & t & -> & _ & Hc & _).
  rewrite read_value_array, HX by assumption.
  now apply Z.eqb_neq in Hc as ->.
Qed.

Lemma open_object f depth X Y :
  (depth < maxNestingDepth)%nat -> skip_space X = Y -> solid Y ->
  read_value (S f) depth (String "{" X)
  = match read_members f (S depth) Y with
    | Some (ms, rest) => Some (Object ms, rest)
    | None => None
    end.
Proof.
  intros Hd HX (c & t & -> & _ & _ & Hc & _).
  rewrite read_value_object, HX by assumption.
  now apply Z.eqb_neq in Hc as ->.
Qed.

Lemma skip_to_value (d' d : nat) (v : value) (t : string) :
  plain v ->
  skip_space (newline d' +:+ render d v +:+ t) = render d v +:+ t.
Proof.
  intros Hv. rewrite skip_space_newline. apply skip_space_solid.
  now apply solid_append, solid_render.
Qed.

Lemma read_elements_render (d : nat) (l : list value) :
  forall x fuel depth rest,
    reads_back x -> Forall reads_back l -> plain x -> Forall plain l ->
    (depth + Nat.max (height x) (heights l) <= maxNestingDepth)%nat ->
    (S (Nat.max (weight x) (weights l)) <= fuel)%nat ->
    read_elements fuel depth
      (render (S d) x +:+ elements_tail d l +:+ newline d +:+ "]" +:+ rest)
    = Some (x :: l, rest).
Proof.
  induction l as [|y l IH]; intros x fuel depth rest Hx Hl Px Pl Hdepth Hfuel;
    (destruct fuel as [|f]; [lia|]); rewrite read_elements_S;
    cbn [heights weights fold_right] in Hdepth, Hfuel.
  - rewrite (Hx Px) by lia.
    cbn [elements_tail String.append]. rewrite skip_space_newline. reflexivity.
  - fold (heights l) in Hdepth; fold (weights l) in Hfuel.
    rewrite (Hx Px) by lia.
    cbn [elements_tail]. rewrite !append_assoc. cbn [String.append skip_space].
    change (is_space ",") with false. cbv iota.
    change (byte "," =? 44) with true. cbv iota.
    rewrite skip_to_value by (now inversion Pl).
    inversion Hl; inversion Pl; subst.
    change (String "]" rest) with ("]" +:+ rest).
    rewrite IH by (assumption || lia). reflexivity.
Qed.

Lemma read_member (f depth : nat) (k V : string) :
  ValidString k = true ->
  read_members (S f) depth (appendString k +:+ ": " +:+ V)
  = match read_value f depth (skip_space V) with
    | None => None
    | Some (v, r3) =>
      match skip_space r3 with
      | String sep r4 =>
        if byte sep =? 44 then
          match read_members f depth (skip_space r4) with
          | Some (ms, rest) => Some ((k, v) :: ms, rest)
          | None => None
          end
        else if byte sep =? 125 then Some ([(k, v)], r4)
        else None
      | EmptyString => None
      end
    end.
Proof.
  intros Hk.
  rewrite appendString_append, read_members_S, read_appendString by assumption.
  reflexivity.
Qed.

Lemma read_members_render (d : nat) (l : list (string * value)) :
  forall k x fuel depth rest,
    reads_back x -> Forall (fun m => reads_back (snd m)) l ->
    ValidString k = true -> plain x ->
    Forall (fun m => ValidString (fst m) = true /\ plain (snd m)) l ->
    (depth + Nat.max (height x) (member_heights l) <= maxNestingDepth)%nat ->
    (S (Nat.max (weight x) (member_weights l)) <= fuel)%nat ->
    read_members fuel depth
      (appendString k +:+ ": " +:+ render (S d) x +:+ members_tail d l
       +:+ newline d +:+ "}" +:+ rest)
    = Some ((k, x) :: l, rest).
Proof.
  induction l as [|[k' y] l IH];
    intros k x fuel depth rest Hx Hl Hk Px Pl Hdepth Hfuel;
    (destruct fuel as [|f]; [lia|]);
    rewrite read_member by assumption;
    cbn [member_heights member_weights fold_right] in Hdepth, Hfuel;
    try (fold (member_heights l) in Hdepth; fold (member_weights l) in Hfuel);
    rewrite (skip_space_solid (render (S d) x +:+ _))
      by (now apply solid_append, solid_render).
  - rewrite (Hx Px) by lia.
    cbn [members_tail String.append]. rewrite skip_space_newline. reflexivity.
  - rewrite (Hx Px) by lia.
    cbn [members_tail]. rewrite !append_assoc. cbn [String.append skip_space].
    change (is_space ",") with false. cbv iota.
    change (byte "," =? 44) with true. cbv iota.
    rewrite skip_space_newline.
    inversion Hl as [|? ? Hy Hl']; inversion Pl as [|? ? [Hk' Py] Pl']; subst.
    cbn [fst snd] in *.
    match goal with
    | |- context [skip_space ?X] =>
      replace (skip_space X)
        with (appendString k' +:+ ": " +:+ render (S d) y +:+ members_tail d l
              +:+ newline d +:+ "}" +:+ rest)
    end.
    + rewrite IH by (assumption || lia). reflexivity.
    + symmetry. apply skip_space_solid, solid_append, solid_appendString.
Qed.

Theorem read_render (v : value) : reads_back v.
Proof.
  induction v as [ | b | lit | s | xs IH | ms IH] using value_induction;
    intros Hv d depth fuel rest Hdepth Hfuel;
    (destruct fuel as [|f]; [simpl in Hfuel; lia|]).
  - apply read_null.
  - apply read_bool.
  - inversion Hv.
  - inversion Hv; subst. now apply read_str.
  - inversion Hv as [ | | | ? Pxs | ]; subst.
    destruct xs as [|x l].
    + cbn [render String.append]. rewrite read_value_array by (simpl in Hdepth; lia).
      reflexivity.
    + rewrite render_array. rewrite !append_assoc. cbn [String.append].
      cbn [height weight] in Hdepth, Hfuel.
      fold (heights (x :: l)) in Hdepth. fold (weights (x :: l)) in Hfuel.
      cbn [heights weights fold_right] in Hdepth, Hfuel.
      fold (heights l) in Hdepth. fold (weights l) in Hfuel.
      inversion IH; inversion Pxs; subst.
      rewrite (open_array f depth _ (render (S d) x +:+ elements_tail d l
                                       +:+ newline d +:+ "]" +:+ rest)).
      * rewrite read_elements_render by (assumption || lia). reflexivity.
      * lia.
      * now apply skip_to_value.
      * now apply solid_append, solid_render.
  - inversion Hv as [ | | | | ? Pms]; subst.
    destruct ms as [|[k x] l].
    + cbn [render String.append]. rewrite read_value_object by (simpl in Hdepth; lia).
      reflexivity.
    + rewrite render_object. rewrite !append_assoc. cbn [String.append].
      cbn [height weight] in Hdepth, Hfuel.
      fold (member_heights ((k, x) :: l)) in Hdepth.
      fold (member_weights ((k, x) :: l)) in Hfuel.
      cbn [member_heights member_weights fold_right] in Hdepth, Hfuel.
      fold (member_heights l) in Hdepth. fold (member_weights l) in Hfuel.
      inversion IH as [|? ? Hx Hl]; inversion Pms as [|? ? [Hk Px] Pl]; subst.
      cbn [fst snd] in *.
      rewrite (open_object f depth _
                 (appendString k +:+ ": " +:+ render (S d) x +:+ members_tail d l
                  +:+ newline d +:+ "}" +:+ rest)).
      * rewrite read_members_render by (assumption || lia). reflexivity.
      * lia.
      * rewrite skip_space_newline.
        apply skip_space_solid, solid_append, solid_appendString.
      * apply solid_append, solid_appendString.
Qed.

(** *** The length of a text bounds the fuel its reading takes *)

Lemma length_appendString (k : string) : (2 <= String.length (appendString k))%nat.
Proof. unfold appendString. cbn [String.length]. rewrite length_append. simpl. lia. Qed.

Lemma length_newline (d : nat) : (1 <= String.length (newline d))%nat.
Proof. unfold newline, nl. cbn [String.append String.length]. lia. Qed.

Ltac measure :=
  repeat (progress (rewrite ?length_append; cbn [String.length String.append])).

Lemma weight_length (v : value) :
  plain v -> forall d, (weight v <= String.length (render d v))%nat.
Proof.
  induction v as [ | b | lit | s | xs IH | ms IH] using value_induction;
    intros Hv d.
  - simpl. lia.
  - destruct b; simpl; lia.
  - inversion Hv.
  - pose proof (length_appendString s). simpl. lia.
  - inversion Hv as [ | | | ? Pxs | ]; subst.
    destruct xs as [|x l]; [simpl; lia|].
    rewrite render_array. cbn [weight]. measure.
    fold (weights (x :: l)). cbn [weights fold_right]. fold (weights l).
    inversion IH as [|? ? Hx Hl]; inversion Pxs as [|? ? Px Pl]; subst.
    pose proof (Hx Px (S d)).
    assert (weights l <= String.length (elements_tail d l))%nat.
    { clear - Hl Pl. induction l as [|y l IHl]; [simpl; lia|].
      inversion Hl as [|? ? Hy Hl']; inversion Pl as [|? ? Py Pl']; subst.
      cbn [weights fold_right elements_tail String.append String.length].
      fold (weights l). measure.
      pose proof (Hy Py (S d)). pose proof (IHl Hl' Pl'). lia. }
    lia.
  - inversion Hv as [ | | | | ? Pms]; subst.
    destruct ms as [|[k x] l]; [simpl; lia|].
    rewrite render_object. cbn [weight]. measure.
    fold (member_weights ((k, x) :: l)). cbn [member_weights fold_right].
    fold (member_weights l).
    inversion IH as [|? ? Hx Hl]; inversion Pms as [|? ? [Hk Px] Pl]; subst.
    cbn [fst snd] in *. pose proof (Hx Px (S d)).
    assert (member_weights l <= String.length (members_tail d l))%nat.
    { clear - Hl Pl. induction l as [|[k' y] l IHl]; [simpl; lia|].
      inversion Hl as [|? ? Hy Hl']; inversion Pl as [|? ? [Hk' Py] Pl']; subst.
      cbn [fst snd] in *.
      cbn [member_weights fold_right members_tail String.append String.length].
      fold (member_weights l). measure.
      pose proof (Hy Py (S d)). pose proof (IHl Hl' Pl'). lia. }
    lia.
Qed.

(** [parse] reads back the text [render] wrote for a plain value that is
    not nested too deep. *)
Theorem parse_render (v : value) :
  plain v -> (height v <= maxNestingDepth)%nat -> parse (render 0 v) = Some v.
Proof.
  intros Hv Hh. unfold parse.
  rewrite skip_space_solid by now apply solid_render.
  rewrite <- (append_nil_r (render 0 v)) at 2.
  rewrite read_render; [reflexivity | assumption | simpl; lia |].
  pose proof (weight_length v Hv 0). lia.
Qed.

(** *** Programs *)
Lemma plain_encode_Program (p : Program) :
  valid_Program p -> plain (encode_Program p).
Proof.
  intros (H1 & H2 & H3 & H4 & H5 & H6 & H7).
  unfold encode_Program, encode_ProgramAttributes.
  repeat first [ apply plain_object | apply plain_str; assumption
               | apply plain_bool | apply List.Forall_cons | apply List.Forall_nil
               | split; [reflexivity|] ].
Qed.

Lemma plain_encode_Programs (programs : slice Program) :
  valid_Programs programs -> plain (encode_Programs programs).
Proof.
  destruct programs as [l|]; [|constructor].
  unfold valid_Programs. cbn [elems from_option id encode_Programs].
  intros H. constructor. induction H; constructor; auto using plain_encode_Program.
Qed.

Lemma height_encode_Programs (programs : slice Program) :
  (height (encode_Programs programs) <= 3)%nat.
Proof.
  destruct programs as [l|]; [|simpl; lia].
  cbn [encode_Programs height].
  assert (fold_right (fun x a => Nat.max (height x) a) 0%nat (map encode_Program l) <= 2)%nat; [|lia].
  induction l as [|p l IH]; [simpl; lia|].
  cbn [map fold_right]. change (height (encode_Program p)) with 2%nat. lia.
Qed.

Section Store.
Variable fold : string -> string -> bool.

Lemma store_encode_Program (p cur : Program) :
  store_Program fold (encode_Program p) cur = (p, None).
Proof. destruct p as [i t [h n c po st ob os]]. reflexivity. Qed.

Lemma store_encode_elements (l : list Program) :
  forall cur,
    store_elements (store_Program fold) zero_Program (map encode_Program l) cur
    = (l, None).
Proof.
  induction l as [|p l IH]; intros cur; [reflexivity|].
  cbn [map store_elements]. now rewrite store_encode_Program, IH.
Qed.

Lemma store_encode_Programs (programs cur : slice Program) :
  store_Programs fold (encode_Programs programs) cur = (programs, None).
Proof.
  destruct programs as [l|]; [|reflexivity].
  unfold store_Programs, store_slice. cbn [encode_Programs].
  now rewrite store_encode_elements.
Qed.

(** What [json.MarshalIndent] writes for programs whose strings are valid
    UTF-8 is the text of their encoding, and [json.Unmarshal] reads it
    back as the same programs. *)
Theorem Unmarshal_MarshalIndent (programs : slice Program) :
  valid_Programs programs ->
  exists file,
    MarshalIndent_Programs programs = Ok file
    /\ parse file = Some (encode_Programs programs)
    /\ Unmarshal_Programs fold file = (programs, None).
Proof.
  intros Hvalid. eexists. split; [reflexivity|].
  assert (parse (render 0 (encode_Programs programs))
          = Some (encode_Programs programs)) as Hparse.
  { apply parse_render; [now apply plain_encode_Programs|].
    pose proof (height_encode_Programs programs).
    assert (3 <= maxNestingDepth)%nat; [|lia].
    unfold maxNestingDepth. lia. }
  split; [exact Hparse|].
  unfold Unmarshal_Programs, Unmarshal. rewrite Hparse.
  apply store_encode_Programs.
Qed.

End Store.

(** *** The order of members does not matter *)


Section AttributesOrder.
Variable fold : string -> string -> bool.


End AttributesOrder.

Section ProgramsOrder.
Variable fold : string -> string -> bool.








End ProgramsOrder.

End JsonFacts.

(** ** Saving and loading *)

Lemma SaveProgramsToFile_writes (w : World) (programs : slice Program)
    (filename file : string) (m : Machine) :
  json.MarshalIndent_Programs programs = Ok file ->
  exists evs,
    SaveProgramsToFile w programs filename m
    = Ret (WriteFile_result w filename file 420)
          (after m 0 (WriteFile filename file 420 :: evs)).
Proof.
  intros Hfile. unfold SaveProgramsToFile. rewrite Hfile.
  unfold bind at 1. unfold ioutil_WriteFile, bind at 1.
  rewrite emit_after. cbn [ret].
  destruct (WriteFile_result w filename file 420) as [err|].
  - exists []. reflexivity.
  - eexists [_]. unfold bind. rewrite print_after, after_after. reflexivity.
Qed.




(** ** The [programs-all-save] mode, end to end *)

Lemma valid_collect (pages : list ProgramsResponse) :
  Forall (fun p => Forall valid_Program (Data p)) pages ->
  valid_Programs (collect None pages).
Proof.
  intros H. unfold valid_Programs. rewrite elems_collect. cbn [elems from_option id app].
  unfold items. induction H as [|p ps Hp _ IH]; [constructor|].
  cbn [map concat]. apply Forall_app. now split.
Qed.

(** When the server delivers a chain of pages (none linking to the bare
    base URL) whose strings are valid UTF-8 and the file can be written,
    [h1module programs-all-save <filename>] returns normally after
    writing a file that [json.Unmarshal] reads back as the items of all
    the pages, in order. *)
Theorem save_mode_round_trip lib (fold : string -> string -> bool) w
    (pages : list ProgramsResponse) (fuel : nat) (prog mode filename : string) :
  os_Getenv w "HACKERONE_USERNAME" <> "" ->
  os_Getenv w "HACKERONE_TOKEN" <> "" ->
  Args w = [prog; mode; filename] ->
  ToLower (unicode_lower lib) mode = "programs-all-save" ->
  serves_chain lib w
    (NewH1Client (os_Getenv w "HACKERONE_USERNAME") (os_Getenv w "HACKERONE_TOKEN"))
    0 "/programs" pages ->
  Forall (fun p => next_link p <> hackers_api) pages ->
  Forall (fun p => Forall valid_Program (Data p)) pages ->
  (forall data, WriteFile_result w filename data 420 = None) ->
  (length pages <= fuel)%nat ->
  exists file m',
    main lib w fuel boot = Ret tt m'
    /\ In (WriteFile filename file 420) (trace m')
    /\ json.Unmarshal_Programs fold file = (collect None pages, None)
    /\ elems (collect None pages) = items pages.
Proof.
  intros Huser Htoken Hargs Hmode Hchain Hbare Hvalid Hdisk Hfuel.
  set (client := NewH1Client _ _) in Hchain.
  destruct (paginate_chain lib w client pages fuel None "/programs" 1 boot)
    as (m1 & Hrun & _ & _); try assumption; [discriminate|].
  destruct (JsonFacts.Unmarshal_MarshalIndent fold (collect None pages)
              (valid_collect pages Hvalid)) as (file & Hfile & _ & Hload).
  destruct (SaveProgramsToFile_writes w (collect None pages) filename file m1 Hfile)
    as [evs Hsave].
  rewrite Hdisk in Hsave.
  exists file, (after m1 0 (WriteFile filename file 420 :: evs)).
  split; [|split; [|split; [exact Hload | apply elems_collect]]].
  - unfold main. apply String.eqb_neq in Huser, Htoken.
    rewrite Huser, Htoken, Hargs. cbn [orb length Nat.ltb Nat.leb].
    unfold os_Arg. rewrite Hargs. cbn [lookup list_lookup from_option id].
    rewrite Hmode. unfold run_mode. cbn [String.eqb Ascii.eqb Bool.eqb].
    unfold few_args. rewrite Hargs. cbn [length Nat.ltb Nat.leb].
    unfold os_Arg. rewrite Hargs. cbn [lookup list_lookup from_option id].
    fold client. unfold GetAllProgramsPaginated.
    rewrite (bind_Ret _ _ _ _ _ Hrun). cbv beta iota.
    rewrite (bind_Ret _ _ _ _ _ Hsave). reflexivity.
  - cbn [after trace]. apply in_or_app. right. now left.
Qed.

Lemma save_mode_round_trip_witness :
  exists file m',
    main Examples.lib (with_mode (Examples.world ["h1module"; "x"; "out.json"]
                                    (Examples.two_pages Examples.body_first
                                                        Examples.body_last))
                                 "Programs-All-Save") 2 boot
    = Ret tt m'
    /\ json.Unmarshal_Programs Examples.ascii_fold file
       = (Some [Examples.program "1" "acme"; Examples.program "2" "globex"], None)
    /\ In (WriteFile "out.json" file 420) (trace m').
Proof.
  destruct (save_mode_round_trip Examples.lib Examples.ascii_fold
              (with_mode (Examples.world ["h1module"; "x"; "out.json"]
                            (Examples.two_pages Examples.body_first
                                                Examples.body_last))
                         "Programs-All-Save")
              [Examples.page_first; Examples.page_last] 2
              "h1module" "Programs-All-Save" "out.json")
    as (file & m' & Hrun & Hin & Hload & _);
    try reflexivity; try discriminate.
  - split; [apply (ExampleFacts.serves_answer _ _ _ Examples.body_first);
            [reflexivity | apply ExampleFacts.decode_first]|].
    split; [discriminate|].
    split; [apply (ExampleFacts.serves_answer _ _ _ Examples.body_last);
            [reflexivity | apply ExampleFacts.decode_last]|].
    reflexivity.
  - repeat constructor; discriminate.
  - repeat constructor.
  - exists file, m'. now repeat split.
Defined.

(** * Further properties of the program *)

(** ** What a run does to the world

    The events a run adds to the trace, by kind: a property that holds of
    the request, the sleep and the file of a client holds of every event
    of a run that ends. *)

Section Footprint.
Variable P : Event -> Prop.

Lemma adds_only_ret {A} (a : A) (m : Machine) : adds_only P m (Ret a m).
Proof. exists []. now rewrite app_nil_r. Qed.

Lemma adds_only_bind {A B} (x : M A) (f : A -> M B) (m : Machine) :
  adds_only P m (x m) -> (forall a m', adds_only P m' (f a m')) ->
  adds_only P m (bind x f m).
Proof.
  unfold bind. destruct (x m) as [a m'| |]; simpl; auto.
  intros (evs & Ht & Hevs) Hf. specialize (Hf a m').
  destruct (f a m') as [b m''|code m''|]; simpl in *; auto;
    destruct Hf as (evs' & Ht' & Hevs'); exists (evs ++ evs');
    (split; [now rewrite Ht', Ht, app_assoc | now apply Forall_app]).
Qed.

Lemma adds_only_emit (e : Event) (m : Machine) : P e -> adds_only P m (emit e m).
Proof. intros H. exists [e]. split; [reflexivity|]. now constructor. Qed.

Lemma adds_only_log_Fatal {A} (msg : string) (m : Machine) :
  P (LogFatal msg) -> adds_only P m (@log_Fatal A msg m).
Proof. intros H. exists [LogFatal msg]. split; [reflexivity|]. now constructor. Qed.

Lemma adds_only_range {A} (body : Z -> A -> M unit) (xs : list A) :
  (forall i a m, adds_only P m (body i a m)) ->
  forall i m, adds_only P m (range body i xs m).
Proof.
  intros Hbody. induction xs as [|x xs IH]; intros i m; cbn [range].
  - apply adds_only_ret.
  - apply adds_only_bind; auto.
Qed.

Hypothesis P_Stdout : forall text, P (Stdout text).
Hypothesis P_LogFatal : forall msg, P (LogFatal msg).
Hypothesis P_BodyReadAll : P BodyReadAll.
Hypothesis P_BodyClose : P BodyClose.

Lemma adds_only_makeRequest lib w c method endpoint m :
  P (HttpDo (prepare c method (BaseURL c +:+ endpoint))) ->
  adds_only P m (makeRequest lib w c method endpoint m).
Proof.
  intros Hreq. rewrite makeRequest_runs. unfold makeRequest_outcome.
  repeat match goal with
         | |- context [match ?x with _ => _ end] => destruct x
         end;
    first [ apply adds_only_ret
          | eexists; split; [reflexivity|]; repeat constructor; auto ].
Qed.

Lemma adds_only_paginate lib w c fuel :
  (forall endpoint, P (HttpDo (prepare c "GET" (BaseURL c +:+ endpoint)))) ->
  P (Sleep (RateLimitDelay c)) ->
  forall acc url page m, adds_only P m (paginate lib w c fuel acc url page m).
Proof.
  intros Hreq Hsleep.
  induction fuel as [|fuel IH]; intros acc url page m;
    (destruct (string_dec url "") as [-> | Hurl];
     [rewrite paginate_done; apply adds_only_ret|]).
  - now rewrite Running_without_fuel.
  - rewrite paginate_S by assumption.
    apply adds_only_bind; [apply adds_only_emit, P_Stdout|]. intros [] m0.
    apply adds_only_bind; [apply adds_only_makeRequest, Hreq|].
    intros [body [err|]] m1; [apply adds_only_ret|].
    destruct (Unmarshal_ProgramsResponse lib (default "" body)) as [p|e];
      [|apply adds_only_ret].
    apply adds_only_bind; [apply adds_only_emit, P_Stdout|]. intros [] m2.
    destruct (Links p !! "next") as [l|]; [|apply IH].
    destruct (negb (String.eqb l "")); [|apply IH].
    apply adds_only_bind; [apply adds_only_emit, Hsleep|]. intros [] m3. apply IH.
Qed.

Lemma adds_only_SaveProgramsToFile w programs filename m :
  (forall data, P (WriteFile filename data 420)) ->
  adds_only P m (SaveProgramsToFile w programs filename m).
Proof.
  intros Hfile. unfold SaveProgramsToFile.
  destruct (json.MarshalIndent_Programs programs) as [file|e]; [|apply adds_only_ret].
  apply adds_only_bind.
  - unfold ioutil_WriteFile. apply adds_only_bind; [apply adds_only_emit, Hfile|].
    intros. apply adds_only_ret.
  - intros [e|] m'; [apply adds_only_ret|].
    apply adds_only_bind; [apply adds_only_emit, P_Stdout|]. intros. apply adds_only_ret.
Qed.

Ltac footprint :=
  repeat first
    [ apply adds_only_ret
    | apply adds_only_log_Fatal, P_LogFatal
    | apply adds_only_emit, P_Stdout
    | apply adds_only_range; intros
    | apply adds_only_bind; [|intros]
    | match goal with
      | |- adds_only _ _ (match ?x with _ => _ end _) => destruct x
      | |- adds_only _ _ ((if ?b then _ else _) _) => destruct b
      | |- adds_only _ _ ((let (_, _) := ?x in _) _) => destruct x
      end ].

Lemma adds_only_PrintPrograms programs m : adds_only P m (PrintPrograms programs m).
Proof. unfold PrintPrograms, print. footprint. Qed.

Lemma adds_only_PrintProgram program m : adds_only P m (PrintProgram program m).
Proof. unfold PrintProgram, print. footprint. Qed.

Lemma adds_only_PrintStructuredScopes scopes h m :
  adds_only P m (PrintStructuredScopes scopes h m).
Proof. unfold PrintStructuredScopes, print. footprint. Qed.

Lemma adds_only_PrintWeaknesses ws h m :
  adds_only P m (PrintWeaknesses ws h m).
Proof. unfold PrintWeaknesses, print. footprint. Qed.

Lemma adds_only_run_mode lib w fuel client lowered m :
  (forall endpoint, P (HttpDo (prepare client "GET" (BaseURL client +:+ endpoint)))) ->
  (lowered = "programs-all" \/ lowered = "programs-all-save" ->
   P (Sleep (RateLimitDelay client))) ->
  (lowered = "programs-all-save" -> forall data, P (WriteFile (os_Arg w 2) data 420)) ->
  adds_only P m (run_mode lib w fuel client lowered m).
Proof.
  intros Hreq Hsleep Hfile. unfold run_mode.
  repeat match goal with
         | |- adds_only _ _ ((if String.eqb lowered ?name then _ else _) _) =>
           destruct (String.eqb_spec lowered name) as [E|_]
         end.
  7: apply adds_only_log_Fatal, P_LogFatal.
  all: unfold GetStructuredScopes, GetWeaknesses, GetAllPrograms, GetProgram,
         GetAllProgramsPaginated.
  all: repeat first
    [ apply adds_only_ret
    | apply adds_only_log_Fatal, P_LogFatal
    | apply adds_only_PrintPrograms
    | apply adds_only_PrintProgram
    | apply adds_only_PrintStructuredScopes
    | apply adds_only_PrintWeaknesses
    | apply adds_only_makeRequest, Hreq
    | apply adds_only_paginate; [apply Hreq | apply Hsleep; auto]
    | apply adds_only_SaveProgramsToFile; auto
    | apply adds_only_bind; [|intros]
    | match goal with
      | |- adds_only _ _ (match ?x with _ => _ end _) => destruct x
      | |- adds_only _ _ ((if ?b then _ else _) _) => destruct b
      | |- adds_only _ _ ((let (_, _) := ?x in _) _) => destruct x
      end ].
Qed.

Lemma adds_only_usage m : adds_only P m (usage m).
Proof. unfold usage, print. footprint. Qed.

Lemma adds_only_main lib w fuel m :
  let client := NewH1Client (os_Getenv w "HACKERONE_USERNAME")
                            (os_Getenv w "HACKERONE_TOKEN") in
  let lowered := subcommand lib w in
  (forall endpoint, P (HttpDo (prepare client "GET" (BaseURL client +:+ endpoint)))) ->
  (lowered = "programs-all" \/ lowered = "programs-all-save" ->
   P (Sleep (RateLimitDelay client))) ->
  (lowered = "programs-all-save" -> forall data, P (WriteFile (os_Arg w 2) data 420)) ->
  adds_only P m (main lib w fuel m).
Proof.
  intros client lowered Hreq Hsleep Hfile. unfold main.
  destruct (_ || _); [apply adds_only_log_Fatal, P_LogFatal|].
  destruct (_ <? _)%nat; [apply adds_only_usage|].
  now apply adds_only_run_mode.
Qed.

End Footprint.

(** Every request [main] sends is a [GET] below the base URL with the
    [Accept] header and the credentials of the environment. *)
Theorem requests_carry_credentials lib w fuel m :
  adds_only (api_request (os_Getenv w "HACKERONE_USERNAME")
                         (os_Getenv w "HACKERONE_TOKEN")) m (main lib w fuel m).
Proof.
  apply adds_only_main; try exact I; try (intros; exact I).
  intros endpoint. unfold api_request, prepare, SetBasicAuth, Header_Set, new_request.
  cbn [Method URL Header BasicAuth NewH1Client BaseURL Username APIToken].
  split; [reflexivity|]. split; [apply HasPrefix_true; eauto|].
  split; [reflexivity | reflexivity].
Qed.

(** The only file [main] ever writes is the one named by the operand of
    [programs-all-save], with mode 0644: no other subcommand writes a
    file. *)
Theorem writes_only_the_named_file lib w fuel m :
  adds_only (named_file lib w) m (main lib w fuel m).
Proof.
  apply adds_only_main; try exact I; try (intros; exact I).
  intros H data. now repeat split.
Qed.

(** [main] sleeps only in the subcommands [programs-all] and
    [programs-all-save], and every sleep lasts 100 ms. *)
Theorem sleeps_only_while_paginating lib w fuel m :
  adds_only (rate_limit_sleep lib w) m (main lib w fuel m).
Proof.
  apply adds_only_main; try exact I; try (intros; exact I).
  intros H. split; [exact H | reflexivity].
Qed.

(** ** The pace of the requests *)

Lemma paced_paginate lib w c fuel :
  forall acc url page m r m',
    paginate lib w c fuel acc url page m = Ret r m' ->
    exists evs,
      trace m' = trace m ++ evs /\ paced (schedule evs)
      /\ (calls m' = calls m + requests evs)%nat.
Proof.
  induction fuel as [|fuel IH]; intros acc url page m r m';
    (destruct (string_dec url "") as [-> | Hurl];
     [rewrite paginate_done; intros [= <- <-]; exists [];
      split; [now rewrite app_nil_r|]; split; [apply paced_nil | unfold requests; simpl; lia]|]).
  - now rewrite Running_without_fuel.
  - rewrite paginate_S by assumption.
    unfold bind at 1. rewrite print_after.
    unfold bind at 1. rewrite makeRequest_runs. unfold makeRequest_outcome.
    set (req := prepare c "GET" (BaseURL c +:+ url)).
    set (line := Stdout _).
    destruct (NewRequest_check lib "GET" (BaseURL c +:+ url)) as [e|].
    { intros [= <- <-]. exists [line].
      split; [reflexivity|]. split; [apply paced_nil | unfold requests; simpl; lia]. }
    destruct (server w _ req) as [resp|e].
    2:{ intros [= <- <-]. rewrite after_after. eexists. split; [reflexivity|].
        split; [apply paced_last | unfold requests; simpl; lia]. }
    destruct (StatusCode resp =? StatusOK).
    2:{ intros [= <- <-]. rewrite after_after. eexists. split; [reflexivity|].
        split; [apply paced_last | unfold requests; simpl; lia]. }
    destruct (Body resp) as [body|e].
    2:{ intros [= <- <-]. rewrite after_after. eexists. split; [reflexivity|].
        split; [apply paced_last | unfold requests; simpl; lia]. }
    rewrite after_after. cbn [from_option id].
    destruct (Unmarshal_ProgramsResponse lib body) as [p|e].
    2:{ intros [= <- <-]. eexists. split; [reflexivity|].
        split; [apply paced_last | unfold requests; simpl; lia]. }
    unfold bind at 1. rewrite print_after, after_after.
    set (line' := Stdout _).
    assert (forall acc' page' r m',
              paginate lib w c fuel acc' "" page'
                (after m (0 + 1 + 0) (([line] ++ [HttpDo req; BodyReadAll; BodyClose])
                                      ++ [line'])) = Ret r m' ->
              exists evs, trace m' = trace m ++ evs /\ paced (schedule evs)
                          /\ (calls m' = calls m + requests evs)%nat) as Hstop.
    { intros acc' page' r0 m0. rewrite paginate_done. intros [= <- <-].
      eexists. split; [reflexivity|]. split; [apply paced_last | unfold requests; simpl; lia]. }
    destruct (Links p !! "next") as [l|]; [|apply Hstop].
    destruct (negb (String.eqb l "")); [|apply Hstop].
    unfold bind at 1, time_Sleep. rewrite emit_after, after_after.
    intros Hrun. apply IH in Hrun as (evs & Ht & Hp & Hc).
    eexists. split; [rewrite Ht; cbn [after trace]; now rewrite <- app_assoc|].
    split.
    + rewrite schedule_app. cbn [app schedule line line']. now constructor.
    + rewrite Hc. cbn [after calls]. unfold requests.
      rewrite schedule_app. cbn [app schedule line line' List.filter length]. lia.
Qed.

Lemma sleeps_paginate lib w c fuel acc url page m :
  adds_only (fun e => forall d, e = Sleep d -> d = RateLimitDelay c) m
            (paginate lib w c fuel acc url page m).
Proof.
  apply adds_only_paginate; try discriminate. now intros d [= <-].
Qed.

(** Whatever the server answers, the requests of a run of
    [GetAllProgramsPaginated] that returns are paced: each but the last is
    followed by a sleep of [RateLimitDelay] before the next one. *)
Theorem requests_are_paced lib w c fuel m r m' :
  GetAllProgramsPaginated lib w c fuel m = Ret r m' ->
  exists evs,
    trace m' = trace m ++ evs
    /\ paced (schedule evs)
    /\ (calls m' = calls m + requests evs)%nat
    /\ Forall (fun e => forall d, e = Sleep d -> d = RateLimitDelay c) evs.
Proof.
  intros Hrun. pose proof (sleeps_paginate lib w c fuel None "/programs" 1 m) as Hs.
  unfold GetAllProgramsPaginated in Hrun. rewrite Hrun in Hs.
  destruct Hs as (evs' & Ht' & Hsleep).
  apply paced_paginate in Hrun as (evs & Ht & Hp & Hc).
  rewrite Ht in Ht'. apply app_inv_head in Ht'. subst evs'.
  exists evs. auto.
Qed.

Lemma requests_are_paced_witness :
  exists m' evs,
    GetAllProgramsPaginated Examples.lib Examples.w_bare Examples.client 5 boot
    = Ret (Some [Examples.program "1" "acme"], None) m'
    /\ trace m' = trace boot ++ evs
    /\ paced (schedule evs).
Proof.
  eexists.
  edestruct (requests_are_paced Examples.lib Examples.w_bare Examples.client 5 boot)
    as (evs & Ht & Hp & _); [vm_compute; reflexivity|].
  exists evs. split; [vm_compute; reflexivity|]. split; assumption.
Defined.

(** ** An error comes alone *)

(** An error of [GetAllProgramsPaginated] never comes with items: the
    slice is [nil], and the error names the stage and the page. *)
Theorem error_returns_no_programs lib w c fuel m programs err m' :
  GetAllProgramsPaginated lib w c fuel m = Ret (programs, Some err) m' ->
  programs = None
  /\ exists stage k cause,
       (stage = "fetching" \/ stage = "parsing")
       /\ err = "error " +:+ stage +:+ " page " +:+ fmt_d k +:+ ": " +:+ cause.
Proof.
  unfold GetAllProgramsPaginated.
  enough (forall acc url page m0 programs0 err0 m1,
             paginate lib w c fuel acc url page m0 = Ret (programs0, Some err0) m1 ->
             programs0 = None
             /\ exists stage k cause,
                  (stage = "fetching" \/ stage = "parsing")
                  /\ err0 = "error " +:+ stage +:+ " page " +:+ fmt_d k
                            +:+ ": " +:+ cause) as H by apply H.
  clear m programs err m'.
  induction fuel as [|fuel IH]; intros acc url page m programs err m';
    (destruct (string_dec url "") as [-> | Hurl];
     [rewrite paginate_done; discriminate|]).
  - now rewrite Running_without_fuel.
  - rewrite paginate_S by assumption.
    unfold bind at 1. rewrite print_after.
    unfold bind at 1. rewrite makeRequest_runs.
    destruct (makeRequest_outcome lib w c "GET" url _) as [[body [e|]] m1| |];
      try discriminate.
    { intros [= <- <- <-]. split; [reflexivity|]. exists "fetching", page, e. auto. }
    destruct (Unmarshal_ProgramsResponse lib (default "" body)) as [p|e].
    2:{ intros [= <- <- <-]. split; [reflexivity|]. exists "parsing", page, e. auto. }
    unfold bind at 1. rewrite print_after.
    destruct (Links p !! "next") as [l|]; [|apply IH].
    destruct (negb (String.eqb l "")); [|apply IH].
    unfold bind at 1, time_Sleep. rewrite emit_after. apply IH.
Qed.

Lemma error_returns_no_programs_witness :
  exists m',
    GetAllProgramsPaginated Examples.lib Examples.w_broken Examples.client 5 boot
    = Ret (None, Some "error fetching page 2: API request failed with status: 500 Internal Server Error") m'
    /\ exists stage k cause,
         (stage = "fetching" \/ stage = "parsing")
         /\ "error fetching page 2: API request failed with status: 500 Internal Server Error"
            = "error " +:+ stage +:+ " page " +:+ fmt_d k +:+ ": " +:+ cause.
Proof.
  eexists. split; [vm_compute; reflexivity|].
  eapply (error_returns_no_programs Examples.lib Examples.w_broken Examples.client
            5 boot None).
  vm_compute. reflexivity.
Defined.

(** ** Standard output *)

Lemma main_dispatch lib w fuel m :
  credentials_set w -> (2 <= length (Args w))%nat ->
  main lib w fuel m = run_mode lib w fuel (env_client w) (subcommand lib w) m.
Proof.
  intros [Huser Htoken] Hargs. unfold main.
  apply String.eqb_neq in Huser, Htoken. rewrite Huser, Htoken. cbn [orb].
  assert ((length (Args w) <? 2)%nat = false) as -> by now apply Nat.ltb_ge.
  reflexivity.
Qed.

Lemma prints_ret : prints (ret tt) [].
Proof. intros m. unfold ret. now rewrite after_0. Qed.

Lemma prints_print (text : string) : prints (print text) [text].
Proof. intros m. apply print_after. Qed.

Lemma prints_bind (x : M unit) (f : unit -> M unit) (l1 l2 : list string) :
  prints x l1 -> prints (f tt) l2 -> prints (bind x f) (l1 ++ l2).
Proof.
  intros H1 H2 m. unfold bind. rewrite H1, H2, after_after, map_app. reflexivity.
Qed.

Lemma prints_range {A} (body : Z -> A -> M unit) (entry : Z -> A -> list string) :
  (forall i x, prints (body i x) (entry i x)) ->
  forall xs i, prints (range body i xs) (numbered entry i xs).
Proof.
  intros Hbody. induction xs as [|x xs IH]; intros i; cbn [range numbered].
  - apply prints_ret.
  - apply prints_bind; auto.
Qed.

Lemma prints_if (b : bool) (x y : M unit) (l1 l2 : list string) :
  prints x l1 -> prints y l2 -> prints (if b then x else y) (if b then l1 else l2).
Proof. now destruct b. Qed.

Lemma numbered_length {A} (entry : Z -> A -> list string) (n : nat) (xs : list A) :
  (forall i x, length (entry i x) = n) ->
  forall i, length (numbered entry i xs) = (n * length xs)%nat.
Proof.
  intros Hn. induction xs as [|x xs IH]; intros i; cbn [numbered length]; [lia|].
  rewrite length_app, Hn, IH. lia.
Qed.

Lemma numbered_lookup {A} (entry : Z -> A -> list string) (n : nat) (xs : list A) :
  (forall i x, length (entry i x) = n) ->
  forall k x i (j : nat),
    xs !! k = Some x -> (j < n)%nat ->
    numbered entry i xs !! (n * k + j)%nat = entry (i + Z.of_nat k) x !! j.
Proof.
  intros Hn. induction xs as [|y xs IH]; intros k x i j Hk Hj; [discriminate|].
  cbn [numbered]. destruct k as [|k].
  - injection Hk as ->. rewrite Nat.mul_0_r, Nat.add_0_l, Z.add_0_r.
    apply lookup_app_l. now rewrite Hn.
  - cbn [lookup list_lookup] in Hk.
    rewrite lookup_app_r by (rewrite Hn; lia).
    rewrite Hn. replace (n * S k + j - n)%nat with (n * k + j)%nat by lia.
    rewrite (IH k x (i + 1) j Hk Hj). f_equal. f_equal. lia.
Qed.

(** ** What the printing functions write *)

Lemma PrintPrograms_prints (programs : list Program) :
  prints (PrintPrograms programs)
    ([nl +:+ "=== All Programs ===" +:+ nl;
      "Found " +:+ fmt_d (Z.of_nat (length programs)) +:+ " programs" +:+ nl +:+ nl]
     ++ numbered program_entry 0 programs).
Proof.
  unfold PrintPrograms.
  apply (prints_bind _ _ [_]); [apply prints_print|].
  apply (prints_bind _ _ [_]); [apply prints_print|].
  apply prints_range. intros i x. unfold program_entry.
  repeat (apply (prints_bind _ _ [_]); [apply prints_print|]).
  apply prints_print.
Qed.

Lemma PrintWeaknesses_prints (weaknesses : WeaknessesResponse) (h : string) :
  prints (PrintWeaknesses weaknesses h)
    ([nl +:+ "=== Weaknesses for " +:+ h +:+ " ===" +:+ nl;
      "Found " +:+ fmt_d (Z.of_nat (length (weaknesses_Data weaknesses)))
      +:+ " weakness types" +:+ nl +:+ nl]
     ++ numbered weakness_entry 0 (weaknesses_Data weaknesses)).
Proof.
  unfold PrintWeaknesses.
  apply (prints_bind _ _ [_]); [apply prints_print|].
  apply (prints_bind _ _ [_]); [apply prints_print|].
  apply prints_range. intros i x. unfold weakness_entry.
  repeat (apply (prints_bind _ _ [_]); [apply prints_print|]).
  apply prints_print.
Qed.

Lemma PrintStructuredScopes_prints (scopes : StructuredScopesResponse) (h : string) :
  prints (PrintStructuredScopes scopes h)
    ([nl +:+ "=== Structured Scopes for " +:+ h +:+ " ===" +:+ nl;
      "Found " +:+ fmt_d (Z.of_nat (length (scopes_Data scopes)))
      +:+ " scope entries" +:+ nl +:+ nl]
     ++ numbered scope_entry 0 (scopes_Data scopes)).
Proof.
  unfold PrintStructuredScopes.
  apply (prints_bind _ _ [_]); [apply prints_print|].
  apply (prints_bind _ _ [_]); [apply prints_print|].
  apply prints_range. intros i x. unfold scope_entry, has_instruction.
  do 5 (apply (prints_bind _ _ [_]); [apply prints_print|]).
  apply prints_bind; [|apply prints_print].
  apply prints_if; [apply prints_print | apply prints_ret].
Qed.

Lemma PrintProgram_prints (program : Program) :
  let a := Attributes program in
  prints (PrintProgram program)
    ([nl +:+ "=== Program Details ===" +:+ nl;
      "Name: " +:+ Name a +:+ nl;
      "Handle: " +:+ Handle a +:+ nl;
      "State: " +:+ State a +:+ nl;
      "Currency: " +:+ Currency a +:+ nl;
      "Offers Bounties: " +:+ fmt_t (OffersBounties a) +:+ nl;
      "Open Scope: " +:+ fmt_t (OpenScope a) +:+ nl]
     ++ (if negb (String.eqb (Policy a) "")
         then ["Policy: " +:+ Policy a +:+ nl] else [])).
Proof.
  intros a. unfold PrintProgram. fold a.
  do 7 (apply (prints_bind _ _ [_]); [apply prints_print|]).
  apply prints_if; [apply prints_print | apply prints_ret].
Qed.

Lemma scope_lines (xs : list StructuredScope) :
  forall i, length (numbered scope_entry i xs)
            = (6 * length xs + length (List.filter has_instruction xs))%nat.
Proof.
  induction xs as [|x xs IH]; intros i; cbn [numbered length List.filter]; [lia|].
  rewrite length_app, IH. unfold scope_entry.
  destruct (has_instruction x); cbn [length app]; lia.
Qed.

(** [PrintPrograms] and [PrintWeaknesses] only print: two heading lines,
    the second with the number of entries, then six or three lines an
    entry, the first of which carries the position of the entry, counted
    from 1. *)
Theorem listings_number_from_one :
  (forall programs : list Program,
      exists lines,
        prints (PrintPrograms programs) lines
        /\ length lines = (2 + 6 * length programs)%nat
        /\ lines !! 1%nat
           = Some ("Found " +:+ fmt_d (Z.of_nat (length programs))
                   +:+ " programs" +:+ nl +:+ nl)
        /\ forall (k : nat) p,
             programs !! k = Some p ->
             lines !! (2 + 6 * k)%nat
             = Some (fmt_d (Z.of_nat (S k)) +:+ ". " +:+ Name (Attributes p)
                     +:+ " (" +:+ Handle (Attributes p) +:+ ")" +:+ nl))
  /\ (forall (weaknesses : WeaknessesResponse) (handle : string),
        exists lines,
          prints (PrintWeaknesses weaknesses handle) lines
          /\ length lines = (2 + 3 * length (weaknesses_Data weaknesses))%nat
          /\ lines !! 1%nat
             = Some ("Found "
                     +:+ fmt_d (Z.of_nat (length (weaknesses_Data weaknesses)))
                     +:+ " weakness types" +:+ nl +:+ nl)
          /\ forall (k : nat) x,
               weaknesses_Data weaknesses !! k = Some x ->
               lines !! (2 + 3 * k)%nat
               = Some (fmt_d (Z.of_nat (S k)) +:+ ". "
                       +:+ weakness_Name (weakness_Attributes x)
                       +:+ " (CWE-" +:+ ExternalID (weakness_Attributes x)
                       +:+ ")" +:+ nl)).
Proof.
  split.
  - intros programs. eexists. split; [apply PrintPrograms_prints|].
    split; [|split; [reflexivity|]].
    + cbn [app length]. now rewrite (numbered_length _ 6).
    + intros k p Hk. rewrite lookup_app_r by (cbn [length]; lia). cbn [length].
      replace (2 + 6 * k - 2)%nat with (6 * k + 0)%nat by lia.
      rewrite (numbered_lookup program_entry 6 programs (fun _ _ => eq_refl)
                 k p 0 0%nat Hk) by lia.
      cbn [program_entry lookup list_lookup]. do 3 f_equal. lia.
  - intros ws h. eexists. split; [apply PrintWeaknesses_prints|].
    split; [|split; [reflexivity|]].
    + cbn [app length]. now rewrite (numbered_length _ 3).
    + intros k x Hk. rewrite lookup_app_r by (cbn [length]; lia). cbn [length].
      replace (2 + 3 * k - 2)%nat with (3 * k + 0)%nat by lia.
      rewrite (numbered_lookup weakness_entry 3 (weaknesses_Data ws)
                 (fun _ _ => eq_refl) k x 0 0%nat Hk) by lia.
      cbn [weakness_entry lookup list_lookup]. do 3 f_equal. lia.
Qed.

(** [PrintStructuredScopes] and [PrintProgram] only print, and the line
    of the instruction of a scope, or of the policy of a program, is
    there exactly when the text is not empty. *)
Theorem optional_lines_need_a_text :
  (forall (scopes : StructuredScopesResponse) (handle : string),
      exists lines,
        prints (PrintStructuredScopes scopes handle) lines
        /\ length lines
           = (2 + 6 * length (scopes_Data scopes)
              + length (List.filter
                          (fun scope =>
                             negb (String.eqb (Instruction (scope_Attributes scope)) ""))
                          (scopes_Data scopes)))%nat)
  /\ (forall program : Program,
        exists lines,
          prints (PrintProgram program) lines
          /\ (Policy (Attributes program) = "" -> length lines = 7%nat)
          /\ (Policy (Attributes program) <> "" ->
              length lines = 8%nat
              /\ last lines = Some ("Policy: " +:+ Policy (Attributes program) +:+ nl))).
Proof.
  split.
  - intros scopes h. eexists. split; [apply PrintStructuredScopes_prints|].
    cbn [app length]. rewrite scope_lines. unfold has_instruction. lia.
  - intros p. eexists. split; [apply PrintProgram_prints|]. split.
    + intros ->. reflexivity.
    + intros H. apply String.eqb_neq in H. rewrite H. split; reflexivity.
Qed.

(** With the credentials set and no subcommand on the command line,
    [main] prints the usage and returns: a heading and one line for each
    of the six subcommands of the dispatch, in their order; it sends no
    request. *)
Theorem usage_lists_the_subcommands lib w fuel m :
  credentials_set w ->
  (length (Args w) < 2)%nat ->
  exists lines,
    main lib w fuel m = Ret tt (after m 0 (map Stdout (("Usage:" +:+ nl) :: lines)))
    /\ Forall2 (fun name line => HasPrefix line ("  h1module " +:+ name +:+ " ") = true)
               six_modes lines.
Proof.
  intros [Huser Htoken] Hargs. unfold main.
  apply String.eqb_neq in Huser, Htoken. rewrite Huser, Htoken. cbn [orb].
  assert ((length (Args w) <? 2)%nat = true) as -> by now apply Nat.ltb_lt.
  exists
    ["  h1module scopes <program_handle>        - Get structured scopes for a program" +:+ nl;
     "  h1module weaknesses <program_handle>    - Get weaknesses for a program" +:+ nl;
     "  h1module programs                       - Get all programs (single page)" +:+ nl;
     "  h1module programs-all                   - Get ALL programs with pagination" +:+ nl;
     "  h1module programs-all-save <filename>   - Get ALL programs and save to file" +:+ nl;
     "  h1module program <program_handle>       - Get specific program details" +:+ nl].
  split.
  - unfold usage.
    do 6 (unfold bind at 1; rewrite print_after). rewrite print_after.
    rewrite !after_after. reflexivity.
  - unfold six_modes. repeat constructor.
Qed.

Lemma usage_lists_the_subcommands_witness :
  exists lines,
    main Examples.lib (Examples.world ["h1module"] (fun _ _ => Err "unreachable")) 0 boot
    = Ret tt (after boot 0 (map Stdout (("Usage:" +:+ nl) :: lines)))
    /\ length lines = 6%nat.
Proof.
  destruct (usage_lists_the_subcommands Examples.lib
              (Examples.world ["h1module"] (fun _ _ => Err "unreachable")) 0 boot)
    as (lines & Hrun & Hlines).
  - split; discriminate.
  - simpl. lia.
  - exists lines. split; [exact Hrun|].
    apply Forall2_length in Hlines. now rewrite <- Hlines.
Defined.

(** ** A missing operand *)

(** With the credentials set and a subcommand that needs an operand but
    none on the command line, [main] logs the complaint and exits with
    status 1 before any request. *)
Theorem missing_operand_is_fatal lib w fuel m complaint :
  credentials_set w ->
  length (Args w) = 2%nat ->
  In (subcommand lib w, complaint) operand_modes ->
  main lib w fuel m = Exit 1 (after m 0 [LogFatal complaint]).
Proof.
  intros Hcred Hargs Hin. rewrite main_dispatch by (assumption || lia).
  unfold run_mode, few_args. rewrite Hargs. cbn [length Nat.ltb Nat.leb].
  unfold operand_modes in Hin. cbn [In] in Hin.
  destruct Hin as [[= <- <-]|[[= <- <-]|[[= <- <-]|[[= <- <-]|[]]]]];
    cbn [String.eqb Ascii.eqb Bool.eqb]; apply log_Fatal_after.
Qed.

Lemma missing_operand_is_fatal_witness :
  main Examples.lib (Examples.world ["h1module"; "Programs-All-Save"]
                                    (fun _ _ => Err "unreachable")) 9 boot
  = Exit 1 (after boot 0 [LogFatal "Please provide a filename"]).
Proof.
  apply (missing_operand_is_fatal Examples.lib
           (Examples.world ["h1module"; "Programs-All-Save"]
                           (fun _ _ => Err "unreachable")) 9 boot).
  - split; discriminate.
  - reflexivity.
  - right. right. left. reflexivity.
Defined.

(** ** The subcommands that send one request *)

Lemma makeRequest_answers lib w c endpoint body m :
  answers lib w c (calls m) endpoint body ->
  makeRequest lib w c "GET" endpoint m
  = Ret (Some body, None)
        (after m 1 [HttpDo (prepare c "GET" (BaseURL c +:+ endpoint));
                    BodyReadAll; BodyClose]).
Proof.
  intros (Hreq & resp & Hsrv & Hcode & Hbody).
  rewrite makeRequest_runs. unfold makeRequest_outcome.
  now rewrite Hreq, Hsrv, Hcode, Hbody.
Qed.

Lemma serves_page_answers lib w c k endpoint p :
  serves_page lib w c k endpoint p ->
  exists body, answers lib w c k endpoint body
               /\ Unmarshal_ProgramsResponse lib body = Ok p.
Proof.
  intros (Hreq & resp & body & Hsrv & Hcode & Hbody & Hdec).
  exists body. split; [|exact Hdec]. split; [exact Hreq|]. now exists resp.
Qed.

(** The subcommand [programs] reads one page: after a single request for
    [/programs] it prints the programs of the page that arrived and
    returns, whatever [next] link the page carries. *)
Theorem programs_mode_reads_one_page lib w fuel m p :
  credentials_set w ->
  (2 <= length (Args w))%nat ->
  subcommand lib w = "programs" ->
  serves_page lib w (env_client w) (calls m) "/programs" p ->
  exists lines,
    main lib w fuel m
    = Ret tt (after m 1 ([HttpDo (prepare (env_client w) "GET"
                                          (hackers_api +:+ "/programs"));
                          BodyReadAll; BodyClose] ++ map Stdout lines))
    /\ prints (PrintPrograms (Data p)) lines.
Proof.
  intros Hcred Hargs Hmode Hpage. rewrite main_dispatch by assumption.
  rewrite Hmode. unfold run_mode. cbn [String.eqb Ascii.eqb Bool.eqb].
  apply serves_page_answers in Hpage as (body & Hanswer & Hdec).
  unfold GetAllPrograms. unfold bind at 1. unfold bind at 1.
  rewrite (makeRequest_answers _ _ _ _ _ _ Hanswer).
  cbn [ret decode_body from_option id]. rewrite Hdec.
  eexists. split; [|apply PrintPrograms_prints].
  rewrite PrintPrograms_prints, after_after. reflexivity.
Qed.

Lemma programs_mode_reads_one_page_witness :
  exists lines,
    main Examples.lib (Examples.world ["h1module"; "programs"]
                         (Examples.two_pages Examples.body_first Examples.body_last))
         0 boot
    = Ret tt (after boot 1 ([HttpDo (prepare Examples.client "GET"
                                             (hackers_api +:+ "/programs"));
                             BodyReadAll; BodyClose] ++ map Stdout lines))
    /\ prints (PrintPrograms [Examples.program "1" "acme"]) lines.
Proof.
  apply (programs_mode_reads_one_page Examples.lib
           (Examples.world ["h1module"; "programs"]
              (Examples.two_pages Examples.body_first Examples.body_last))
           0 boot Examples.page_first).
  - split; discriminate.
  - simpl. lia.
  - reflexivity.
  - apply (ExampleFacts.serves_answer _ _ _ Examples.body_first);
      [reflexivity | apply ExampleFacts.decode_first].
Defined.

(** The subcommands with a program handle send one request for the path
    made of the handle as it was typed, and print what the answer decodes
    to. *)
Theorem handle_modes_print_the_answer lib w fuel m body :
  credentials_set w ->
  (3 <= length (Args w))%nat ->
  let handle := os_Arg w 2 in
  let client := env_client w in
  let sent endpoint :=
    after m 1 [HttpDo (prepare client "GET" (hackers_api +:+ endpoint));
               BodyReadAll; BodyClose] in
  (subcommand lib w = "scopes" ->
   answers lib w client (calls m)
           ("/programs/" +:+ handle +:+ "/structured_scopes") body ->
   forall scopes,
     Unmarshal_StructuredScopesResponse lib body = Ok scopes ->
     main lib w fuel m
     = PrintStructuredScopes scopes handle
         (sent ("/programs/" +:+ handle +:+ "/structured_scopes")))
  /\ (subcommand lib w = "weaknesses" ->
      answers lib w client (calls m)
              ("/programs/" +:+ handle +:+ "/weaknesses") body ->
      forall weaknesses,
        Unmarshal_WeaknessesResponse lib body = Ok weaknesses ->
        main lib w fuel m
        = PrintWeaknesses weaknesses handle
            (sent ("/programs/" +:+ handle +:+ "/weaknesses")))
  /\ (subcommand lib w = "program" ->
      answers lib w client (calls m) ("/programs/" +:+ handle) body ->
      forall program,
        Unmarshal_ProgramEnvelope lib body = Ok program ->
        main lib w fuel m
        = PrintProgram program (sent ("/programs/" +:+ handle))).
Proof.
  intros Hcred Hargs handle client sent.
  assert (few_args w = false) as Hfew by (apply Nat.ltb_ge; lia).
  repeat split; intros Hmode Hanswer x Hdec;
    rewrite main_dispatch by (assumption || lia);
    rewrite Hmode; unfold run_mode; cbn [String.eqb Ascii.eqb Bool.eqb];
    rewrite Hfew;
    unfold GetStructuredScopes, GetWeaknesses, GetProgram;
    unfold bind at 1; unfold bind at 1;
    fold handle; fold client;
    rewrite (makeRequest_answers _ _ _ _ _ _ Hanswer);
    cbn [ret decode_body from_option id]; rewrite Hdec; reflexivity.
Qed.

Lemma handle_modes_print_the_answer_witness :
  main Examples.lib
       (Examples.world ["h1module"; "program"; "acme"]
          (fun _ _ => Examples.ok_200 Examples.body_program)) 0 boot
  = PrintProgram (Examples.program "1" "acme")
      (after boot 1 [HttpDo (prepare Examples.client "GET"
                                     (hackers_api +:+ "/programs/acme"));
                     BodyReadAll; BodyClose]).
Proof.
  destruct (handle_modes_print_the_answer Examples.lib
              (Examples.world ["h1module"; "program"; "acme"]
                 (fun _ _ => Examples.ok_200 Examples.body_program)) 0 boot
              Examples.body_program)
    as (_ & _ & Hprogram).
  - split; discriminate.
  - simpl. lia.
  - apply Hprogram.
    + reflexivity.
    + split; [reflexivity|]. eexists. split; [reflexivity|]. split; reflexivity.
    + reflexivity.
Defined.

(** ** Errors of the single request *)

(** In the four subcommands that send one request, a failure of the
    request or of the decoding of its body is fatal: [main] logs the text
    of the subcommand followed by the error as it is, and exits with
    status 1 without printing anything. *)
Theorem request_error_is_fatal lib w fuel m mode endpoint prefix check
    body failed err m1 :
  credentials_set w ->
  (2 <= length (Args w))%nat ->
  (mode <> "programs" -> 3 <= length (Args w))%nat ->
  subcommand lib w = mode ->
  In (mode, endpoint, prefix, check) (single_request_modes lib (os_Arg w 2)) ->
  makeRequest lib w (env_client w) "GET" endpoint m = Ret (body, failed) m1 ->
  failed = Some err \/ (failed = None /\ check (default "" body) = Some err) ->
  main lib w fuel m = Exit 1 (after m1 0 [LogFatal (prefix +:+ err)]).
Proof.
  intros Hcred Hargs Hoperand Hmode Hin Hrun Herr.
  rewrite main_dispatch by assumption. rewrite Hmode.
  unfold single_request_modes in Hin. cbn [In] in Hin.
  destruct Hin as [[= <- <- <- <-]|[[= <- <- <- <-]|[[= <- <- <- <-]|[[= <- <- <- <-]|[]]]]];
    unfold run_mode; cbn [String.eqb Ascii.eqb Bool.eqb];
    try (assert (few_args w = false) as ->
           by (apply Nat.ltb_ge; apply Hoperand; discriminate));
    unfold GetStructuredScopes, GetWeaknesses, GetAllPrograms, GetProgram;
    unfold bind at 1; unfold bind at 1;
    cbn [String.append] in Hrun |- *; rewrite Hrun; cbn [ret];
    (destruct Herr as [-> | [-> Hcheck]]; cbn [decode_body];
     [apply log_Fatal_after|]);
    unfold decode_error in Hcheck;
    match type of Hcheck with
    | match ?x with _ => _ end = _ => destruct x; [discriminate|]
    end;
    injection Hcheck as ->; apply log_Fatal_after.
Qed.

Lemma request_error_is_fatal_witness :
  exists m1,
    main Examples.lib
         (Examples.world ["h1module"; "Scopes"; "acme"]
            (fun _ _ => Ok {| Status := "404 Not Found"; StatusCode := 404;
                              Body := ReadOK "" |})) 0 boot
    = Exit 1 (after m1 0 [LogFatal "Error getting structured scopes: API request failed with status: 404 Not Found"]).
Proof.
  eexists.
  eapply (request_error_is_fatal Examples.lib
            (Examples.world ["h1module"; "Scopes"; "acme"]
               (fun _ _ => Ok {| Status := "404 Not Found"; StatusCode := 404;
                                 Body := ReadOK "" |})) 0 boot
            "scopes" _ "Error getting structured scopes: " _ None
            (Some "API request failed with status: 404 Not Found")
            "API request failed with status: 404 Not Found").
  - split; discriminate.
  - simpl. lia.
  - intros _. simpl. lia.
  - reflexivity.
  - left. reflexivity.
  - vm_compute. reflexivity.
  - left. reflexivity.
Defined.

(** ** Saving *)

Lemma no_file_paginate lib w c fuel acc url page m :
  adds_only (fun e => forall f d p, e <> WriteFile f d p) m
            (paginate lib w c fuel acc url page m).
Proof. apply adds_only_paginate; discriminate. Qed.

(** In the subcommand [programs-all-save], an error of the pagination is
    fatal and nothing is saved: no file is written, whatever pages had
    arrived before the error. *)
Theorem failed_pagination_saves_nothing lib w fuel m programs err m1 :
  credentials_set w ->
  (3 <= length (Args w))%nat ->
  subcommand lib w = "programs-all-save" ->
  GetAllProgramsPaginated lib w (env_client w) fuel m = Ret (programs, Some err) m1 ->
  main lib w fuel m
  = Exit 1 (after m1 0 [LogFatal ("Error getting all programs: " +:+ err)])
  /\ exists evs, trace m1 = trace m ++ evs /\ no_file_written evs.
Proof.
  intros Hcred Hargs Hmode Hrun. split.
  - rewrite main_dispatch by (assumption || lia). rewrite Hmode.
    unfold run_mode. cbn [String.eqb Ascii.eqb Bool.eqb].
    assert (few_args w = false) as -> by (apply Nat.ltb_ge; lia).
    unfold bind at 1. rewrite Hrun. apply log_Fatal_after.
  - pose proof (no_file_paginate lib w (env_client w) fuel None "/programs" 1 m) as Hno.
    unfold GetAllProgramsPaginated in Hrun. rewrite Hrun in Hno. exact Hno.
Qed.

Lemma failed_pagination_saves_nothing_witness :
  exists m1,
    main Examples.lib
         (with_mode (Examples.world ["h1module"; "x"; "out.json"]
                       (server Examples.w_broken)) "programs-all-save") 5 boot
    = Exit 1 (after m1 0 [LogFatal "Error getting all programs: error fetching page 2: API request failed with status: 500 Internal Server Error"])
    /\ exists evs, trace m1 = trace boot ++ evs /\ no_file_written evs.
Proof.
  eexists.
  eapply (failed_pagination_saves_nothing Examples.lib
            (with_mode (Examples.world ["h1module"; "x"; "out.json"]
                          (server Examples.w_broken)) "programs-all-save") 5 boot None).
  - split; discriminate.
  - simpl. lia.
  - reflexivity.
  - vm_compute. reflexivity.
Defined.

(** In the subcommand [programs-all-save], a failure to write the file is
    fatal: after the one attempt to write, [main] logs the error and
    exits with status 1, and the line that reports a saved file is not
    printed. *)
Theorem write_error_is_fatal lib w fuel m programs m1 file err :
  credentials_set w ->
  (3 <= length (Args w))%nat ->
  subcommand lib w = "programs-all-save" ->
  GetAllProgramsPaginated lib w (env_client w) fuel m = Ret (programs, None) m1 ->
  json.MarshalIndent_Programs programs = Ok file ->
  WriteFile_result w (os_Arg w 2) file 420 = Some err ->
  main lib w fuel m
  = Exit 1 (after m1 0 [WriteFile (os_Arg w 2) file 420;
                        LogFatal ("Error saving to file: " +:+ err)]).
Proof.
  intros Hcred Hargs Hmode Hrun Hfile Hdisk.
  rewrite main_dispatch by (assumption || lia). rewrite Hmode.
  unfold run_mode. cbn [String.eqb Ascii.eqb Bool.eqb].
  assert (few_args w = false) as -> by (apply Nat.ltb_ge; lia).
  unfold bind at 1. rewrite Hrun. cbv beta iota.
  unfold SaveProgramsToFile. rewrite Hfile.
  unfold bind at 1. unfold bind at 1. unfold ioutil_WriteFile. unfold bind at 1.
  rewrite emit_after. cbn [ret]. rewrite Hdisk. unfold ret.
  rewrite log_Fatal_after, after_after. reflexivity.
Qed.

Lemma write_error_is_fatal_witness :
  exists m1 file,
    main Examples.lib
         {| Environ := Environ Examples.w_single;
            Args := ["h1module"; "programs-all-save"; "/proc/out.json"];
            server := server Examples.w_single;
            WriteFile_result := fun _ _ _ => Some "permission denied" |} 1 boot
    = Exit 1 (after m1 0 [WriteFile "/proc/out.json" file 420;
                          LogFatal "Error saving to file: permission denied"]).
Proof.
  eexists. eexists.
  eapply (write_error_is_fatal Examples.lib
            {| Environ := Environ Examples.w_single;
               Args := ["h1module"; "programs-all-save"; "/proc/out.json"];
               server := server Examples.w_single;
               WriteFile_result := fun _ _ _ => Some "permission denied" |} 1 boot
            (Some [Examples.program "2" "globex"])).
  - split; discriminate.
  - simpl. lia.
  - reflexivity.
  - vm_compute. reflexivity.
  - reflexivity.
  - reflexivity.
Defined.

Lemma collect_nothing (pages : list ProgramsResponse) (acc : slice Program) :
  Forall (fun p => Data p = []) pages -> collect acc pages = acc.
Proof.
  intros H. revert acc. induction H as [|p ps Hp _ IH]; intros acc; [reflexivity|].
  change (collect acc (p :: ps)) with (collect (append acc (Data p)) ps).
  rewrite IH, Hp. reflexivity.
Qed.

(** When the pages of a run hold no program at all, the slice that
    [GetAllProgramsPaginated] returns is [nil], and the subcommand
    [programs-all-save] writes the file [null] and reports 0 programs
    saved. *)
Theorem no_items_saves_null lib w (pages : list ProgramsResponse) fuel m :
  credentials_set w ->
  (3 <= length (Args w))%nat ->
  subcommand lib w = "programs-all-save" ->
  serves_chain lib w (env_client w) (calls m) "/programs" pages ->
  Forall (fun p => next_link p <> hackers_api) pages ->
  Forall (fun p => Data p = []) pages ->
  (forall data, WriteFile_result w (os_Arg w 2) data 420 = None) ->
  (length pages <= fuel)%nat ->
  exists m1,
    GetAllProgramsPaginated lib w (env_client w) fuel m = Ret (None, None) m1
    /\ main lib w fuel m
       = Ret tt (after m1 0
                   [WriteFile (os_Arg w 2) "null" 420;
                    Stdout ("Successfully saved 0 programs to "
                            +:+ os_Arg w 2 +:+ nl)]).
Proof.
  intros Hcred Hargs Hmode Hchain Hbare Hempty Hdisk Hfuel.
  destruct (paginate_chain lib w (env_client w) pages fuel None "/programs" 1 m)
    as (m1 & Hrun & _ & _); try assumption; [discriminate|].
  rewrite collect_nothing in Hrun by assumption.
  exists m1. split; [exact Hrun|].
  rewrite main_dispatch by (assumption || lia). rewrite Hmode.
  unfold run_mode. cbn [String.eqb Ascii.eqb Bool.eqb].
  assert (few_args w = false) as -> by (apply Nat.ltb_ge; lia).
  unfold bind at 1. unfold GetAllProgramsPaginated. rewrite Hrun. cbv beta iota.
  unfold SaveProgramsToFile, json.MarshalIndent_Programs.
  cbn [json.encode_Programs json.render].
  unfold bind at 1. unfold bind at 1. unfold ioutil_WriteFile. unfold bind at 1.
  rewrite emit_after. cbn [ret]. rewrite Hdisk.
  unfold bind at 1. rewrite print_after. unfold ret. rewrite !after_after. reflexivity.
Qed.

Lemma no_items_saves_null_witness :
  exists m1,
    main Examples.lib
         (Examples.world ["h1module"; "programs-all-save"; "out.json"]
            (fun _ _ => Examples.ok_200 Examples.body_empty)) 1 boot
    = Ret tt (after m1 0
                [WriteFile "out.json" "null" 420;
                 Stdout ("Successfully saved 0 programs to out.json" +:+ nl)]).
Proof.
  destruct (no_items_saves_null Examples.lib
              (Examples.world ["h1module"; "programs-all-save"; "out.json"]
                 (fun _ _ => Examples.ok_200 Examples.body_empty))
              [Examples.page_empty] 1 boot)
    as (m1 & _ & Hmain).
  - split; discriminate.
  - simpl. lia.
  - reflexivity.
  - split; [|reflexivity].
    apply (ExampleFacts.serves_answer _ _ _ Examples.body_empty);
      reflexivity.
  - repeat constructor. discriminate.
  - repeat constructor.
  - reflexivity.
  - simpl. lia.
  - exists m1. exact Hmain.
Defined.

(** Over a chain of pages, none linking to the bare base URL, and with a
    file that can be written, the subcommand [programs-all-save] ends
    with the one write of the file, after the last request, and with the
    line that reports as many programs saved as the pages hold. *)
Theorem save_reports_the_count lib w (pages : list ProgramsResponse) fuel m :
  credentials_set w ->
  (3 <= length (Args w))%nat ->
  subcommand lib w = "programs-all-save" ->
  serves_chain lib w (env_client w) (calls m) "/programs" pages ->
  Forall (fun p => next_link p <> hackers_api) pages ->
  (forall data, WriteFile_result w (os_Arg w 2) data 420 = None) ->
  (length pages <= fuel)%nat ->
  exists programs m1 file,
    GetAllProgramsPaginated lib w (env_client w) fuel m = Ret (programs, None) m1
    /\ elems programs = items pages
    /\ json.MarshalIndent_Programs programs = Ok file
    /\ main lib w fuel m
       = Ret tt (after m1 0
                   [WriteFile (os_Arg w 2) file 420;
                    Stdout ("Successfully saved "
                            +:+ fmt_d (Z.of_nat (length (items pages)))
                            +:+ " programs to " +:+ os_Arg w 2 +:+ nl)]).
Proof.
  intros Hcred Hargs Hmode Hchain Hbare Hdisk Hfuel.
  destruct (paginate_chain lib w (env_client w) pages fuel None "/programs" 1 m)
    as (m1 & Hrun & _ & _); try assumption; [discriminate|].
  exists (collect None pages), m1, (json.render 0 (json.encode_Programs (collect None pages))).
  split; [exact Hrun|]. split; [apply elems_collect|]. split; [reflexivity|].
  rewrite main_dispatch by (assumption || lia). rewrite Hmode.
  unfold run_mode. cbn [String.eqb Ascii.eqb Bool.eqb].
  assert (few_args w = false) as -> by (apply Nat.ltb_ge; lia).
  unfold bind at 1. unfold GetAllProgramsPaginated. rewrite Hrun. cbv beta iota.
  unfold SaveProgramsToFile, json.MarshalIndent_Programs.
  unfold bind at 1. unfold bind at 1. unfold ioutil_WriteFile. unfold bind at 1.
  rewrite emit_after. cbn [ret]. rewrite Hdisk.
  unfold bind at 1. rewrite print_after. unfold ret. rewrite !after_after.
  rewrite elems_collect. reflexivity.
Qed.

Lemma save_reports_the_count_witness :
  exists programs m1 file,
    GetAllProgramsPaginated Examples.lib
      (Examples.world ["h1module"; "programs-all-save"; "out.json"]
         (Examples.two_pages Examples.body_first Examples.body_last))
      Examples.client 2 boot
    = Ret (programs, None) m1
    /\ main Examples.lib
         (Examples.world ["h1module"; "programs-all-save"; "out.json"]
            (Examples.two_pages Examples.body_first Examples.body_last)) 2 boot
       = Ret tt (after m1 0
                   [WriteFile "out.json" file 420;
                    Stdout ("Successfully saved 2 programs to out.json" +:+ nl)]).
Proof.
  destruct (save_reports_the_count Examples.lib
              (Examples.world ["h1module"; "programs-all-save"; "out.json"]
                 (Examples.two_pages Examples.body_first Examples.body_last))
              [Examples.page_first; Examples.page_last] 2 boot)
    as (programs & m1 & file & Hrun & _ & _ & Hmain).
  - split; discriminate.
  - simpl. lia.
  - reflexivity.
  - split; [apply (ExampleFacts.serves_answer _ _ _ Examples.body_first);
            [reflexivity | apply ExampleFacts.decode_first]|].
    split; [discriminate|].
    split; [apply (ExampleFacts.serves_answer _ _ _ Examples.body_last);
            [reflexivity | apply ExampleFacts.decode_last]|].
    reflexivity.
  - repeat constructor; discriminate.
  - reflexivity.
  - simpl. lia.
  - exists programs, m1, file. split; [exact Hrun | exact Hmain].
Defined.

(** ** The body of a response *)

(** [makeRequest] closes the body of every response it receives, once,
    as the last thing it does, on the error paths as on the path that
    returns the bytes; with no response there is nothing to close. *)
Theorem response_body_is_closed lib w c method endpoint m :
  let url := BaseURL c +:+ endpoint in
  exists r n evs,
    makeRequest lib w c method endpoint m = Ret r (after m n evs)
    /\ ((exists resp,
           NewRequest_check lib method url = None
           /\ server w (calls m) (prepare c method url) = Ok resp)
        <-> In BodyClose evs)
    /\ (In BodyClose evs ->
        last evs = Some BodyClose
        /\ length (List.filter (fun e => match e with BodyClose => true | _ => false end)
                               evs) = 1%nat).
Proof.
  intros url. rewrite makeRequest_runs. unfold makeRequest_outcome. fold url.
  destruct (NewRequest_check lib method url) as [e|].
  { exists (None, Some e), 0%nat, []. rewrite after_0. split; [reflexivity|].
    split; [|intros []]. split; [intros (resp & H & _); discriminate | intros []]. }
  destruct (server w (calls m) (prepare c method url)) as [resp|e].
  2:{ eexists _, _, _. split; [reflexivity|]. split.
      - split; [intros (resp & _ & H); discriminate|].
        intros [H|[]]; discriminate.
      - intros [H|[]]; discriminate. }
  destruct (StatusCode resp =? StatusOK); [destruct (Body resp)|];
    (eexists _, _, _; split; [reflexivity|]; split;
     [split; [intros _; simpl; tauto | intros _; now exists resp]
     |intros _; split; reflexivity]).
Qed.

(** ** The progress lines of the loop *)

Lemma stdout_app (t1 t2 : list Event) : stdout (t1 ++ t2) = stdout t1 ++ stdout t2.
Proof.
  induction t1 as [|e t1 IH]; simpl; [reflexivity|].
  destruct e; simpl; now rewrite ?IH.
Qed.

Lemma progress_chain lib w c (pages : list ProgramsResponse) :
  forall fuel acc url page m,
    url <> "" ->
    serves_chain lib w c (calls m) url pages ->
    Forall (fun p => next_link p <> hackers_api) pages ->
    (length pages <= fuel)%nat ->
    1 <= page -> page + Z.of_nat (length pages) <= int_max ->
    exists m' evs,
      paginate lib w c fuel acc url page m = Ret (collect acc pages, None) m'
      /\ trace m' = trace m ++ evs
      /\ stdout evs = progress page (length (elems acc)) pages.
Proof.
  induction pages as [|p rest IH];
    intros fuel acc url page m Hurl Hchain Hbare Hfuel Hlo Hhi.
  - destruct Hchain.
  - destruct Hchain as [Hp Hrest].
    destruct fuel as [|fuel]; [simpl in Hfuel; lia|].
    rewrite (paginate_page _ _ _ _ _ _ _ _ p) by assumption.
    cbv zeta. inversion Hbare as [|? ? Hp_bare Hrest_bare]; subst.
    cbn [length] in Hhi. rewrite Nat2Z.inj_succ in Hhi.
    destruct rest as [|p' rest'].
    + rewrite Hrest. cbn [String.eqb].
      eexists _, _. split; [reflexivity|]. split; [reflexivity|].
      cbn [page_events stdout progress]. rewrite elems_append, length_app.
      reflexivity.
    + destruct Hrest as [Hlink Hchain'].
      assert (String.eqb (next_link p) "" = false) as -> by now apply String.eqb_neq.
      rewrite after_after.
      rewrite int_wrap_id by (unfold int_min, int_max in *; lia).
      edestruct (IH fuel (append acc (Data p)) (extractEndpoint (next_link p))
                   (page + 1)
                   (after m (1 + 0) (page_events c url page (length (Data p))
                       (length (elems (append acc (Data p))))
                     ++ [Sleep (RateLimitDelay c)])))
        as (m' & evs & Hrun & Ht & Hout).
      * now apply cursor_nonempty.
      * cbn [after calls]. replace (calls m + (1 + 0))%nat with (S (calls m)) by lia.
        exact Hchain'.
      * assumption.
      * simpl in Hfuel |- *. lia.
      * lia.
      * lia.
      * exists m'. eexists. split; [exact Hrun|]. split.
        -- rewrite Ht. cbn [after trace]. rewrite <- app_assoc. reflexivity.
        -- rewrite !stdout_app, Hout. cbn [page_events stdout app].
           cbn [progress]. rewrite elems_append, length_app. reflexivity.
Qed.

Lemma progress_length (pages : list ProgramsResponse) :
  forall page total, length (progress page total pages) = (2 * length pages)%nat.
Proof.
  induction pages as [|p rest IH]; intros page total; cbn [progress length]; [lia|].
  rewrite IH. lia.
Qed.

Lemma progress_lookup (pages : list ProgramsResponse) :
  forall page total (k : nat) p,
    pages !! k = Some p ->
    progress page total pages !! (2 * k)%nat
    = Some ("Fetching page " +:+ fmt_d (page + Z.of_nat k) +:+ "..." +:+ nl)
    /\ progress page total pages !! (2 * k + 1)%nat
       = Some ("Page " +:+ fmt_d (page + Z.of_nat k) +:+ ": fetched "
               +:+ fmt_d (Z.of_nat (length (Data p)))
               +:+ " programs (total: "
               +:+ fmt_d (Z.of_nat (total + length (items (take (S k) pages))))
               +:+ ")" +:+ nl).
Proof.
  induction pages as [|q rest IH]; intros page total k p Hk; [discriminate|].
  destruct k as [|k].
  - injection Hk as ->. cbn [progress Nat.mul Nat.add lookup list_lookup take].
    rewrite Z.add_0_r. unfold items. cbn [map concat]. rewrite app_nil_r.
    split; reflexivity.
  - cbn [lookup list_lookup] in Hk.
    destruct (IH (page + 1) (total + length (Data q))%nat k p Hk) as [H1 H2].
    replace (2 * S k + 1)%nat with (S (S (2 * k + 1))) by lia.
    replace (2 * S k)%nat with (S (S (2 * k))) by lia.
    cbn [progress]. rewrite !lookup_cons. rewrite H1, H2.
    replace (page + 1 + Z.of_nat k) with (page + Z.of_nat (S k)) by lia.
    split; [reflexivity|]. do 7 f_equal.
    unfold items. cbn [take map concat]. rewrite length_app.
    change (concat (map Data (take (S k) rest))) with (items (take (S k) rest)).
    do 2 f_equal. lia.
Qed.

(** Over a chain of pages, none linking to the bare base URL, the loop
    writes two lines a page to standard output and nothing else: the
    page is announced under its number, counted from 1, and reported
    with the number of its programs and the number of programs collected
    so far, its own included. *)
Theorem progress_lines_count_pages lib w c (pages : list ProgramsResponse) fuel m :
  serves_chain lib w c (calls m) "/programs" pages ->
  Forall (fun p => next_link p <> hackers_api) pages ->
  (length pages <= fuel)%nat ->
  Z.of_nat (length pages) < int_max ->
  exists r m' evs,
    GetAllProgramsPaginated lib w c fuel m = Ret (r, None) m'
    /\ trace m' = trace m ++ evs
    /\ length (stdout evs) = (2 * length pages)%nat
    /\ forall (k : nat) p,
         pages !! k = Some p ->
         stdout evs !! (2 * k)%nat
         = Some ("Fetching page " +:+ fmt_d (Z.of_nat (S k)) +:+ "..." +:+ nl)
         /\ stdout evs !! (2 * k + 1)%nat
            = Some ("Page " +:+ fmt_d (Z.of_nat (S k)) +:+ ": fetched "
                    +:+ fmt_d (Z.of_nat (length (Data p)))
                    +:+ " programs (total: "
                    +:+ fmt_d (Z.of_nat (length (items (take (S k) pages))))
                    +:+ ")" +:+ nl).
Proof.
  intros Hchain Hbare Hfuel Hmax.
  destruct (progress_chain lib w c pages fuel None "/programs" 1 m)
    as (m' & evs & Hrun & Ht & Hout); try assumption; try lia; [discriminate|].
  exists (collect None pages), m', evs. split; [exact Hrun|]. split; [exact Ht|].
  rewrite Hout. split; [apply progress_length|].
  intros k p Hk. cbn [elems from_option id length].
  destruct (progress_lookup pages 1 0 k p Hk) as [H1 H2].
  rewrite H1, H2. cbn [Nat.add].
  replace (1 + Z.of_nat k) with (Z.of_nat (S k)) by lia. split; reflexivity.
Qed.

Lemma progress_lines_count_pages_witness :
  exists r m' evs,
    GetAllProgramsPaginated Examples.lib Examples.w_two Examples.client 2 boot
    = Ret (r, None) m'
    /\ trace m' = trace boot ++ evs
    /\ stdout evs !! 3%nat
       = Some ("Page 2: fetched 1 programs (total: 2)" +:+ nl).
Proof.
  destruct (progress_lines_count_pages Examples.lib Examples.w_two Examples.client
              [Examples.page_first; Examples.page_last] 2 boot)
    as (r & m' & evs & Hrun & Ht & _ & Hlines).
  - split; [apply (ExampleFacts.serves_answer _ _ _ Examples.body_first);
            [reflexivity | apply ExampleFacts.decode_first]|].
    split; [discriminate|].
    split; [apply (ExampleFacts.serves_answer _ _ _ Examples.body_last);
            [reflexivity | apply ExampleFacts.decode_last]|].
    reflexivity.
  - repeat constructor; discriminate.
  - simpl. lia.
  - vm_compute. reflexivity.
  - exists r, m', evs. split; [exact Hrun|]. split; [exact Ht|].
    apply (Hlines 1%nat Examples.page_last). reflexivity.
Defined.

(** ** [programs-all] *)

(** Over a chain of pages, none linking to the bare base URL, the
    subcommand [programs-all] prints, after the run of the loop, the
    listing of the programs of all the pages in order, and returns. *)
Theorem programs_all_lists_every_page lib w (pages : list ProgramsResponse) fuel m :
  credentials_set w ->
  (2 <= length (Args w))%nat ->
  subcommand lib w = "programs-all" ->
  serves_chain lib w (env_client w) (calls m) "/programs" pages ->
  Forall (fun p => next_link p <> hackers_api) pages ->
  (length pages <= fuel)%nat ->
  exists r m1 lines,
    GetAllProgramsPaginated lib w (env_client w) fuel m = Ret (r, None) m1
    /\ main lib w fuel m = Ret tt (after m1 0 (map Stdout lines))
    /\ prints (PrintPrograms (items pages)) lines.
Proof.
  intros Hcred Hargs Hmode Hchain Hbare Hfuel.
  destruct (paginate_chain lib w (env_client w) pages fuel None "/programs" 1 m)
    as (m1 & Hrun & _ & _); try assumption; [discriminate|].
  eexists _, m1, _. split; [exact Hrun|]. split; [|apply PrintPrograms_prints].
  rewrite main_dispatch by assumption. rewrite Hmode.
  unfold run_mode. cbn [String.eqb Ascii.eqb Bool.eqb].
  unfold bind at 1. unfold GetAllProgramsPaginated. rewrite Hrun. cbv beta iota.
  rewrite elems_collect. cbn [elems from_option id app].
  apply PrintPrograms_prints.
Qed.

Lemma programs_all_lists_every_page_witness :
  exists r m1 lines,
    GetAllProgramsPaginated Examples.lib Examples.w_two Examples.client 2 boot
    = Ret (r, None) m1
    /\ main Examples.lib Examples.w_two 2 boot = Ret tt (after m1 0 (map Stdout lines))
    /\ prints (PrintPrograms [Examples.program "1" "acme"; Examples.program "2" "globex"])
              lines.
Proof.
  apply (programs_all_lists_every_page Examples.lib Examples.w_two
           [Examples.page_first; Examples.page_last] 2 boot).
  - split; discriminate.
  - simpl. lia.
  - reflexivity.
  - split; [apply (ExampleFacts.serves_answer _ _ _ Examples.body_first);
            [reflexivity | apply ExampleFacts.decode_first]|].
    split; [discriminate|].
    split; [apply (ExampleFacts.serves_answer _ _ _ Examples.body_last);
            [reflexivity | apply ExampleFacts.decode_last]|].
    reflexivity.
  - repeat constructor; discriminate.
  - simpl. lia.
Defined.

(** ** Leaving the process *)

Lemma fatal_exit_log {A} (msg : string) (m : Machine) :
  In msg fatal_texts
  \/ (exists prefix err, In prefix fatal_prefixes /\ msg = prefix +:+ err) ->
  fatal_exit (@log_Fatal A msg m).
Proof.
  intros H. unfold log_Fatal, fatal_exit. split; [reflexivity|].
  exists msg. cbn [trace]. now rewrite last_snoc.
Qed.

Lemma fatal_exit_no_exit {A} (r : Res A) : no_exit r -> fatal_exit r.
Proof. destruct r; simpl; intros H; [exact I | destruct H | exact I]. Qed.

Lemma fatal_exit_bind {A B} (x : M A) (f : A -> M B) (m : Machine) :
  no_exit (x m) -> (forall a m', fatal_exit (f a m')) -> fatal_exit (bind x f m).
Proof.
  unfold bind. destruct (x m); simpl; intros H Hf; auto; destruct H.
Qed.

Ltac fatal_exit_tac :=
  repeat first
    [ apply fatal_exit_log;
      first [ left; simpl; tauto
            | match goal with
              | |- _ \/ (exists prefix err, _ /\ ?p +:+ ?e = _) =>
                right; exists p, e; split; [simpl; tauto | reflexivity]
              end ]
    | apply fatal_exit_no_exit; solve [no_exit_tac]
    | apply fatal_exit_bind; [solve [no_exit_tac]|intros]
    | match goal with
      | |- fatal_exit (match ?x with _ => _ end _) => destruct x
      | |- fatal_exit ((if ?b then _ else _) _) => destruct b
      | |- fatal_exit ((let (_, _) := ?x in _) _) => destruct x
      end ].

(** [main] leaves the process in one way only: with status 1, right
    after logging the message about the credentials, about a missing
    operand or an unknown subcommand, or the message of a subcommand
    followed by the text of an error; the functions it calls never exit. *)
Theorem every_exit_is_fatal lib w fuel m : fatal_exit (main lib w fuel m).
Proof.
  unfold main.
  destruct (_ || _); [apply fatal_exit_log; left; simpl; tauto|].
  destruct (_ <? _)%nat.
  { apply fatal_exit_no_exit. unfold usage. no_exit_tac. }
  unfold run_mode.
  repeat match goal with
         | |- fatal_exit ((if String.eqb ?s ?name then _ else _) _) =>
           destruct (String.eqb s name)
         end;
    unfold GetStructuredScopes, GetWeaknesses, GetAllPrograms, GetProgram,
      GetAllProgramsPaginated, SaveProgramsToFile, ioutil_WriteFile,
      PrintStructuredScopes, PrintWeaknesses, PrintPrograms, PrintProgram;
    fatal_exit_tac.
Qed.

(** ** The URLs of the requests *)

Lemma urls_app (t1 t2 : list Event) : urls (t1 ++ t2) = urls t1 ++ urls t2.
Proof.
  induction t1 as [|e t1 IH]; simpl; [reflexivity|].
  destruct e; simpl; now rewrite ?IH.
Qed.

Lemma requested_cursor (link : string) :
  hackers_api +:+ extractEndpoint link = requested link.
Proof.
  unfold requested. destruct (HasPrefix link hackers_api) eqn:E.
  - apply HasPrefix_true in E as [t ->]. now rewrite extractEndpoint_strips.
  - now rewrite extractEndpoint_other.
Qed.

Lemma urls_chain lib w c (pages : list ProgramsResponse) :
  BaseURL c = hackers_api ->
  forall fuel acc url page m,
    url <> "" ->
    serves_chain lib w c (calls m) url pages ->
    Forall (fun p => next_link p <> hackers_api) pages ->
    (length pages <= fuel)%nat ->
    exists m' evs,
      paginate lib w c fuel acc url page m = Ret (collect acc pages, None) m'
      /\ trace m' = trace m ++ evs
      /\ urls evs
         = (hackers_api +:+ url)
           :: map (fun p => hackers_api +:+ extractEndpoint (next_link p))
                  (removelast pages).
Proof.
  intros Hbase.
  induction pages as [|p rest IH]; intros fuel acc url page m Hurl Hchain Hbare Hfuel.
  - destruct Hchain.
  - destruct Hchain as [Hp Hrest].
    destruct fuel as [|fuel]; [simpl in Hfuel; lia|].
    rewrite (paginate_page _ _ _ _ _ _ _ _ p) by assumption.
    cbv zeta. inversion Hbare as [|? ? Hp_bare Hrest_bare]; subst.
    destruct rest as [|p' rest'].
    + rewrite Hrest. cbn [String.eqb].
      eexists _, _. split; [reflexivity|]. split; [reflexivity|].
      cbn [page_events urls removelast map prepare SetBasicAuth Header_Set
           new_request URL]. now rewrite Hbase.
    + destruct Hrest as [Hlink Hchain'].
      assert (String.eqb (next_link p) "" = false) as -> by now apply String.eqb_neq.
      rewrite after_after.
      edestruct (IH fuel (append acc (Data p)) (extractEndpoint (next_link p))
                   (int_wrap (page + 1))
                   (after m (1 + 0) (page_events c url page (length (Data p))
                       (length (elems (append acc (Data p))))
                     ++ [Sleep (RateLimitDelay c)])))
        as (m' & evs & Hrun & Htrace & Hurls).
      * now apply cursor_nonempty.
      * cbn [after calls]. replace (calls m + (1 + 0))%nat with (S (calls m)) by lia.
        exact Hchain'.
      * assumption.
      * simpl in Hfuel |- *. lia.
      * exists m'. eexists. split; [exact Hrun|]. split.
        -- rewrite Htrace. cbn [after trace]. rewrite <- app_assoc. reflexivity.
        -- rewrite !urls_app, Hurls.
           cbn [page_events urls app removelast map prepare SetBasicAuth
                Header_Set new_request URL].
           now rewrite Hbase.
Qed.

(** Over a chain of pages, none linking to the bare base URL, the
    requests of [GetAllProgramsPaginated] go to the [programs] endpoint
    first and then, one after the other, to what the pages link to: to
    the very URL of a [next] link that starts with the base URL, and to
    the base URL followed by the link for any other link. *)
Theorem follows_the_links lib w c (pages : list ProgramsResponse) fuel m :
  BaseURL c = hackers_api ->
  serves_chain lib w c (calls m) "/programs" pages ->
  Forall (fun p => next_link p <> hackers_api) pages ->
  (length pages <= fuel)%nat ->
  exists r m' evs,
    GetAllProgramsPaginated lib w c fuel m = Ret (r, None) m'
    /\ trace m' = trace m ++ evs
    /\ urls evs
       = (hackers_api +:+ "/programs")
         :: map (fun p => requested (next_link p)) (removelast pages).
Proof.
  intros Hbase Hchain Hbare Hfuel.
  destruct (urls_chain lib w c pages Hbase fuel None "/programs" 1 m)
    as (m' & evs & Hrun & Htrace & Hurls); try assumption; [discriminate|].
  exists (collect None pages), m', evs. split; [exact Hrun|]. split; [exact Htrace|].
  rewrite Hurls. f_equal. apply map_ext. intros p. apply requested_cursor.
Qed.

Lemma follows_the_links_witness :
  exists r m' evs,
    GetAllProgramsPaginated Examples.lib Examples.w_two Examples.client 2 boot
    = Ret (r, None) m'
    /\ trace m' = trace boot ++ evs
    /\ urls evs = ["https://api.hackerone.com/v1/hackers/programs";
                   "https://api.hackerone.com/v1/hackers/programs?page=2"].
Proof.
  apply (follows_the_links Examples.lib Examples.w_two Examples.client
           [Examples.page_first; Examples.page_last] 2 boot).
  - reflexivity.
  - split; [apply (ExampleFacts.serves_answer _ _ _ Examples.body_first);
            [reflexivity | apply ExampleFacts.decode_first]|].
    split; [discriminate|].
    split; [apply (ExampleFacts.serves_answer _ _ _ Examples.body_last);
            [reflexivity | apply ExampleFacts.decode_last]|].
    reflexivity.
  - repeat constructor; discriminate.
  - simpl. lia.
Defined.

(** ** Strings that are not valid UTF-8 *)

Module CleanFacts.
Import utf8 json JsonFacts.

Lemma replace_loop_valid (n : nat) :
  forall s, (String.length s <= n)%nat -> Valid n s = true -> replace_loop n s = s.
Proof.
  induction n as [|n IH]; intros s Hlen Hvalid.
  - destruct s; [reflexivity | discriminate].
  - destruct s as [|c r]; [reflexivity|]. cbn [Valid replace_loop] in *.
    destruct (DecodeRune (String c r)) as [rr size] eqn:Hdec.
    destruct ((rr =? RuneError) && (size =? 1)%nat) eqn:Hinv; [discriminate|].
    apply not_invalid in Hinv.
    pose proof (DecodeRune_encoding _ _ _ Hdec ltac:(discriminate) Hinv) as Henc.
    destruct (encoding_split _ _ _ Henc) as (Hsplit & Hskip & _).
    cbn [String.length] in Hskip, Hlen.
    rewrite IH by (assumption || lia). exact Hsplit.
Qed.

Lemma replace_invalid_valid (s : string) :
  ValidString s = true -> replace_invalid s = s.
Proof. intros H. apply replace_loop_valid; [lia | exact H]. Qed.

Lemma unquote_fffd (k : nat) (t : string) :
  unquote (S k) (String backslash "ufffd" +:+ t)
  = match unquote k t with
    | Some u => Some (EncodeRune RuneError +:+ u)
    | None => None
    end.
Proof. reflexivity. Qed.

(** [unquote] gives back the string [appendString] was given, with its
    invalid bytes replaced. *)
Lemma unquote_escape_any (n : nat) :
  forall s k,
    (String.length s <= n)%nat ->
    (String.length (escape n s) <= k)%nat ->
    unquote k (escape n s) = Some (replace_loop n s).
Proof.
  induction n as [|n IH]; intros s k Hlen Hk.
  - destruct s; [apply unquote_nil | simpl in Hlen; lia].
  - destruct s as [|c r]; [apply unquote_nil|]. cbn [String.length] in Hlen.
    cbn [escape replace_loop] in *.
    destruct (DecodeRune (String c r)) as [rr size] eqn:Hdec.
    destruct (byte c <? RuneSelf) eqn:Hascii.
    + assert (rr = byte c /\ size = 1%nat) as [-> ->].
      { unfold DecodeRune in Hdec. rewrite Hascii in Hdec. split; congruence. }
      apply Z.ltb_lt in Hascii.
      assert ((byte c =? RuneError) && (1 =? 1)%nat = false) as ->.
      { apply andb_false_intro1, Z.eqb_neq. unfold RuneSelf, RuneError in *. lia. }
      cbn [skip take String.append].
      destruct (htmlSafe (byte c)) eqn:Hsafe.
      * cbn [String.length] in Hk. destruct k as [|k]; [lia|].
        rewrite unquote_safe by assumption. rewrite IH by lia. reflexivity.
      * rewrite length_append in Hk.
        assert (1 <= String.length (escape_byte (byte c)))%nat
          by (unfold escape_byte;
              repeat match goal with |- context [if ?b then _ else _] => destruct b end;
              simpl; lia).
        destruct k as [|k]; [lia|].
        rewrite unquote_escape_byte by assumption. rewrite IH by lia. reflexivity.
    + apply Z.ltb_ge in Hascii.
      destruct ((rr =? RuneError) && (size =? 1)%nat) eqn:Hinv.
      * rewrite length_append in Hk. cbn [String.length] in Hk.
        destruct k as [|k]; [lia|].
        rewrite unquote_fffd, IH by lia. reflexivity.
      * apply not_invalid in Hinv.
        pose proof (DecodeRune_encoding _ _ _ Hdec ltac:(discriminate) Hinv) as Henc.
        destruct (encoding_split _ _ _ Henc) as (Hsplit & Hskip & _).
        cbn [String.length] in Hskip.
        destruct ((rr =? 0x2028) || (rr =? 0x2029)) eqn:Hsep.
        -- destruct (separator_digit rr Hsep) as [_ Hu4].
           rewrite length_append in Hk. cbn [String.length String.append] in Hk.
           destruct k as [|k]; [lia|].
           cbn [String.append unquote].
           change (byte backslash =? 92) with true. cbv iota.
           change (byte "u" =? 34) with false. change (byte "u" =? 92) with false.
           change (byte "u" =? 47) with false. change (byte "u" =? 39) with false.
           change (byte "u" =? 98) with false. change (byte "u" =? 102) with false.
           change (byte "u" =? 110) with false. change (byte "u" =? 114) with false.
           change (byte "u" =? 116) with false. change (byte "u" =? 117) with true.
           cbn [orb]. cbv iota.
           match goal with
           | |- context [getu4 ?x] =>
             replace (getu4 x) with rr
           end.
           assert ((rr <? 0) = false) as ->.
           { apply orb_prop in Hsep as [H|H]; apply Z.eqb_eq in H; now subst. }
           assert (IsSurrogate rr = false) as ->.
           { apply orb_prop in Hsep as [H|H]; apply Z.eqb_eq in H; now subst. }
           cbn [skip]. rewrite IH by lia.
           rewrite (encoding_encode _ _ _ Henc). reflexivity.
        -- rewrite length_append in Hk.
           assert (1 <= String.length (take size (String c r)))%nat
             by (destruct Henc; simpl; lia).
           destruct k as [|k]; [lia|].
           rewrite (unquote_rune _ _ _ c r _ _ Henc eq_refl Hascii).
           rewrite IH by lia. reflexivity.
Qed.

Lemma read_appendString_any (s rest : string) :
  read_string (escape (String.length s) s +:+ String quote rest)
  = Some (replace_invalid s, rest).
Proof.
  unfold read_string. rewrite scan_escape by lia.
  rewrite unquote_escape_any; [reflexivity | lia | lia].
Qed.

Lemma solid_render_keyed (d : nat) (v : value) : keyed v -> solid (render d v).
Proof.
  intros Hv. destruct Hv as [ | b | s | xs Hxs | ms Hms].
  - eexists _, _. split; [reflexivity|]. now vm_compute.
  - destruct b; (eexists _, _; split; [reflexivity|]; now vm_compute).
  - apply solid_appendString.
  - destruct xs; (eexists _, _; split; [reflexivity|]; now vm_compute).
  - destruct ms as [|[k x] ms]; (eexists _, _; split; [reflexivity|]; now vm_compute).
Qed.

Lemma read_str_any f depth s rest :
  read_value (S f) depth (appendString s +:+ rest)
  = Some (Str (replace_invalid s), rest).
Proof.
  rewrite appendString_append, read_value_quote.
  now rewrite read_appendString_any.
Qed.

Lemma skip_to_value_keyed (d' d : nat) (v : value) (t : string) :
  keyed v ->
  skip_space (newline d' +:+ render d v +:+ t) = render d v +:+ t.
Proof.
  intros Hv. rewrite skip_space_newline. apply skip_space_solid.
  now apply solid_append, solid_render_keyed.
Qed.

Lemma read_elements_clean (d : nat) (l : list value) :
  forall x fuel depth rest,
    reads_clean x -> Forall reads_clean l -> keyed x -> Forall keyed l ->
    (depth + Nat.max (height x) (heights l) <= maxNestingDepth)%nat ->
    (S (Nat.max (weight x) (weights l)) <= fuel)%nat ->
    read_elements fuel depth
      (render (S d) x +:+ elements_tail d l +:+ newline d +:+ "]" +:+ rest)
    = Some (clean x :: map clean l, rest).
Proof.
  induction l as [|y l IH]; intros x fuel depth rest Hx Hl Px Pl Hdepth Hfuel;
    (destruct fuel as [|f]; [lia|]); rewrite read_elements_S;
    cbn [heights weights fold_right] in Hdepth, Hfuel.
  - rewrite (Hx Px) by lia.
    cbn [elements_tail String.append]. rewrite skip_space_newline. reflexivity.
  - fold (heights l) in Hdepth; fold (weights l) in Hfuel.
    rewrite (Hx Px) by lia.
    cbn [elements_tail]. rewrite !append_assoc. cbn [String.append skip_space].
    change (is_space ",") with false. cbv iota.
    change (byte "," =? 44) with true. cbv iota.
    rewrite skip_to_value_keyed by (now inversion Pl).
    inversion Hl; inversion Pl; subst.
    change (String "]" rest) with ("]" +:+ rest).
    rewrite IH by (assumption || lia). reflexivity.
Qed.

Lemma read_members_clean (d : nat) (l : list (string * value)) :
  forall k x fuel depth rest,
    reads_clean x -> Forall (fun m => reads_clean (snd m)) l ->
    ValidString k = true -> keyed x ->
    Forall (fun m => ValidString (fst m) = true /\ keyed (snd m)) l ->
    (depth + Nat.max (height x) (member_heights l) <= maxNestingDepth)%nat ->
    (S (Nat.max (weight x) (member_weights l)) <= fuel)%nat ->
    read_members fuel depth
      (appendString k +:+ ": " +:+ render (S d) x +:+ members_tail d l
       +:+ newline d +:+ "}" +:+ rest)
    = Some ((k, clean x) :: map (fun m => (fst m, clean (snd m))) l, rest).
Proof.
  induction l as [|[k' y] l IH];
    intros k x fuel depth rest Hx Hl Hk Px Pl Hdepth Hfuel;
    (destruct fuel as [|f]; [lia|]);
    rewrite read_member by assumption;
    cbn [member_heights member_weights fold_right] in Hdepth, Hfuel;
    try (fold (member_heights l) in Hdepth; fold (member_weights l) in Hfuel);
    rewrite (skip_space_solid (render (S d) x +:+ _))
      by (now apply solid_append, solid_render_keyed).
  - rewrite (Hx Px) by lia.
    cbn [members_tail String.append]. rewrite skip_space_newline. reflexivity.
  - rewrite (Hx Px) by lia.
    cbn [members_tail]. rewrite !append_assoc. cbn [String.append skip_space].
    change (is_space ",") with false. cbv iota.
    change (byte "," =? 44) with true. cbv iota.
    rewrite skip_space_newline.
    inversion Hl as [|? ? Hy Hl']; inversion Pl as [|? ? [Hk' Py] Pl']; subst.
    cbn [fst snd] in *.
    match goal with
    | |- context [skip_space ?X] =>
      replace (skip_space X)
        with (appendString k' +:+ ": " +:+ render (S d) y +:+ members_tail d l
              +:+ newline d +:+ "}" +:+ rest)
    end.
    + rewrite IH by (assumption || lia). reflexivity.
    + symmetry. apply skip_space_solid, solid_append, solid_appendString.
Qed.

Theorem read_render_any (v : value) : reads_clean v.
Proof.
  induction v as [ | b | lit | s | xs IH | ms IH] using value_induction;
    intros Hv d depth fuel rest Hdepth Hfuel;
    (destruct fuel as [|f]; [simpl in Hfuel; lia|]).
  - apply read_null.
  - apply read_bool.
  - inversion Hv.
  - apply read_str_any.
  - inversion Hv as [ | | | ? Pxs | ]; subst.
    destruct xs as [|x l].
    + cbn [render String.append]. rewrite read_value_array by (simpl in Hdepth; lia).
      reflexivity.
    + rewrite render_array. rewrite !append_assoc. cbn [String.append].
      cbn [height weight] in Hdepth, Hfuel.
      fold (heights (x :: l)) in Hdepth. fold (weights (x :: l)) in Hfuel.
      cbn [heights weights fold_right] in Hdepth, Hfuel.
      fold (heights l) in Hdepth. fold (weights l) in Hfuel.
      inversion IH; inversion Pxs; subst.
      rewrite (open_array f depth _ (render (S d) x +:+ elements_tail d l
                                       +:+ newline d +:+ "]" +:+ rest)).
      * rewrite read_elements_clean by (assumption || lia). reflexivity.
      * lia.
      * now apply skip_to_value_keyed.
      * now apply solid_append, solid_render_keyed.
  - inversion Hv as [ | | | | ? Pms]; subst.
    destruct ms as [|[k x] l].
    + cbn [render String.append]. rewrite read_value_object by (simpl in Hdepth; lia).
      reflexivity.
    + rewrite render_object. rewrite !append_assoc. cbn [String.append].
      cbn [height weight] in Hdepth, Hfuel.
      fold (member_heights ((k, x) :: l)) in Hdepth.
      fold (member_weights ((k, x) :: l)) in Hfuel.
      cbn [member_heights member_weights fold_right] in Hdepth, Hfuel.
      fold (member_heights l) in Hdepth. fold (member_weights l) in Hfuel.
      inversion IH as [|? ? Hx Hl]; inversion Pms as [|? ? [Hk Px] Pl]; subst.
      cbn [fst snd] in *.
      rewrite (open_object f depth _
                 (appendString k +:+ ": " +:+ render (S d) x +:+ members_tail d l
                  +:+ newline d +:+ "}" +:+ rest)).
      * rewrite read_members_clean by (assumption || lia). reflexivity.
      * lia.
      * rewrite skip_space_newline.
        apply skip_space_solid, solid_append, solid_appendString.
      * apply solid_append, solid_appendString.
Qed.

Lemma weight_length_keyed (v : value) :
  keyed v -> forall d, (weight v <= String.length (render d v))%nat.
Proof.
  induction v as [ | b | lit | s | xs IH | ms IH] using value_induction;
    intros Hv d.
  - simpl. lia.
  - destruct b; simpl; lia.
  - inversion Hv.
  - pose proof (length_appendString s). simpl. lia.
  - inversion Hv as [ | | | ? Pxs | ]; subst.
    destruct xs as [|x l]; [simpl; lia|].
    rewrite render_array. cbn [weight]. measure.
    fold (weights (x :: l)). cbn [weights fold_right]. fold (weights l).
    inversion IH as [|? ? Hx Hl]; inversion Pxs as [|? ? Px Pl]; subst.
    pose proof (Hx Px (S d)).
    assert (weights l <= String.length (elements_tail d l))%nat.
    { clear - Hl Pl. induction l as [|y l IHl]; [simpl; lia|].
      inversion Hl as [|? ? Hy Hl']; inversion Pl as [|? ? Py Pl']; subst.
      cbn [weights fold_right elements_tail String.append String.length].
      fold (weights l). measure.
      pose proof (Hy Py (S d)). pose proof (IHl Hl' Pl'). lia. }
    lia.
  - inversion Hv as [ | | | | ? Pms]; subst.
    destruct ms as [|[k x] l]; [simpl; lia|].
    rewrite render_object. cbn [weight]. measure.
    fold (member_weights ((k, x) :: l)). cbn [member_weights fold_right].
    fold (member_weights l).
    inversion IH as [|? ? Hx Hl]; inversion Pms as [|? ? [Hk Px] Pl]; subst.
    cbn [fst snd] in *. pose proof (Hx Px (S d)).
    assert (member_weights l <= String.length (members_tail d l))%nat.
    { clear - Hl Pl. induction l as [|[k' y] l IHl]; [simpl; lia|].
      inversion Hl as [|? ? Hy Hl']; inversion Pl as [|? ? [Hk' Py] Pl']; subst.
      cbn [fst snd] in *.
      cbn [member_weights fold_right members_tail String.append String.length].
      fold (member_weights l). measure.
      pose proof (Hy Py (S d)). pose proof (IHl Hl' Pl'). lia. }
    lia.
Qed.

Theorem parse_render_any (v : value) :
  keyed v -> (height v <= maxNestingDepth)%nat -> parse (render 0 v) = Some (clean v).
Proof.
  intros Hv Hh. unfold parse.
  rewrite skip_space_solid by now apply solid_render_keyed.
  rewrite <- (append_nil_r (render 0 v)) at 2.
  rewrite read_render_any; [reflexivity | assumption | simpl; lia |].
  pose proof (weight_length_keyed v Hv 0). lia.
Qed.

Lemma Valid_more (n : nat) :
  forall s k, Valid n s = true -> Valid (n + k) s = true.
Proof.
  induction n as [|n IH]; intros s k H.
  - destruct s; [|discriminate]. now destruct k.
  - destruct s as [|c r]; [reflexivity|]. cbn [Nat.add Valid] in *.
    destruct (DecodeRune (String c r)) as [rr size].
    destruct ((rr =? RuneError) && (size =? 1)%nat); [discriminate|].
    now apply IH.
Qed.

Lemma Valid_chunk (s : string) (r : Z) (size : nat) (t : string) (k : nat) :
  encoding s r size -> (r, size) <> (RuneError, 1%nat) ->
  Valid k t = true -> Valid (S k) (take size s +:+ t) = true.
Proof.
  intros Henc Hne Ht.
  destruct (encoding_split _ _ _ Henc) as (_ & _ & Hany).
  destruct (Hany t) as [Hskip Henc'].
  pose proof (encoding_DecodeRune _ _ _ Henc') as Hdec.
  assert (exists c p, take size s +:+ t = String c p) as (c & p & Hp)
    by (destruct Henc; cbn [take String.append]; eauto).
  rewrite Hp in *. cbn [Valid]. rewrite Hdec.
  assert ((r =? RuneError) && (size =? 1)%nat = false) as ->.
  { destruct (r =? RuneError) eqn:E1; [|reflexivity].
    destruct (size =? 1)%nat eqn:E2; [|reflexivity].
    apply Z.eqb_eq in E1. apply Nat.eqb_eq in E2. subst. now destruct Hne. }
  now rewrite Hskip.
Qed.

Lemma replacement_encoding (t : string) :
  encoding (EncodeRune RuneError +:+ t) RuneError 3
  /\ take 3 (EncodeRune RuneError +:+ t) = EncodeRune RuneError.
Proof.
  split; [|reflexivity].
  change (EncodeRune RuneError +:+ t)
    with (String (chr 239) (String (chr 191) (String (chr 189) t))).
  apply (enc_three (chr 239) (chr 191) (chr 189) t); vm_compute; intuition discriminate.
Qed.

Lemma Valid_replace_loop (n : nat) :
  forall s,
    Valid (String.length (replace_loop n s)) (replace_loop n s) = true.
Proof.
  induction n as [|n IH]; intros s; [reflexivity|].
  destruct s as [|c r]; [reflexivity|]. cbn [replace_loop].
  destruct (DecodeRune (String c r)) as [rr size] eqn:Hdec.
  destruct ((rr =? RuneError) && (size =? 1)%nat) eqn:Hinv.
  - destruct (replacement_encoding (replace_loop n r)) as [Henc Htake].
    rewrite length_append.
    change (String.length (EncodeRune RuneError)) with (S 2).
    cbn [Nat.add].
    pose proof (Valid_chunk _ _ _ (replace_loop n r)
                  (2 + String.length (replace_loop n r)) Henc
                  ltac:(discriminate)) as H.
    rewrite Htake in H. apply H.
    rewrite Nat.add_comm. apply Valid_more, IH.
  - apply not_invalid in Hinv.
    pose proof (DecodeRune_encoding _ _ _ Hdec ltac:(discriminate) Hinv) as Henc.
    assert (exists k, String.length (take size (String c r)) = S k) as [k Hk]
      by (destruct Henc; cbn [take String.length]; eauto).
    rewrite length_append, Hk. cbn [Nat.add].
    apply (Valid_chunk _ _ _ _ _ Henc Hinv).
    rewrite Nat.add_comm. apply Valid_more, IH.
Qed.

Lemma ValidString_replace_invalid (s : string) :
  ValidString (replace_invalid s) = true.
Proof. apply Valid_replace_loop. Qed.

Lemma valid_clean_Program (p : Program) : valid_Program (clean_Program p).
Proof. repeat split; apply ValidString_replace_invalid. Qed.

Lemma clean_valid_Program (p : Program) : valid_Program p -> clean_Program p = p.
Proof.
  destruct p as [i t [h n c po st ob os]].
  unfold valid_Program, clean_Program, clean_ProgramAttributes.
  cbn [ID Type_ Attributes Handle Name Currency Policy State OffersBounties OpenScope].
  intros (H1 & H2 & H3 & H4 & H5 & H6 & H7).
  now rewrite !replace_invalid_valid by assumption.
Qed.

Lemma keyed_encode_Programs (programs : slice Program) :
  keyed (encode_Programs programs).
Proof.
  destruct programs as [l|]; [|constructor].
  cbn [encode_Programs]. constructor.
  induction l as [|p l IH]; constructor; [|exact IH].
  unfold encode_Program, encode_ProgramAttributes.
  repeat first [ apply keyed_object | apply keyed_str | apply keyed_bool
               | apply List.Forall_cons | apply List.Forall_nil
               | split; [reflexivity|] ].
Qed.

Lemma clean_encode_Programs (programs : slice Program) :
  clean (encode_Programs programs) = encode_Programs (clean_Programs programs).
Proof.
  destruct programs as [l|]; [|reflexivity].
  cbn [encode_Programs clean clean_Programs]. f_equal.
  rewrite !map_map. reflexivity.
Qed.

(** What [json.MarshalIndent] writes for any programs, [json.Unmarshal]
    reads back as the programs with their invalid bytes replaced. *)
Lemma Unmarshal_MarshalIndent_any (fold : string -> string -> bool)
    (programs : slice Program) :
  Unmarshal_Programs fold (render 0 (encode_Programs programs))
  = (clean_Programs programs, None).
Proof.
  unfold Unmarshal_Programs, Unmarshal.
  rewrite parse_render_any.
  - rewrite clean_encode_Programs. apply store_encode_Programs.
  - apply keyed_encode_Programs.
  - pose proof (height_encode_Programs programs).
    assert (3 <= maxNestingDepth)%nat; [|lia].
    unfold maxNestingDepth. lia.
Qed.

Lemma valid_clean_Programs (programs : slice Program) :
  valid_Programs (clean_Programs programs).
Proof.
  destruct programs as [l|]; [|constructor].
  unfold valid_Programs. cbn [clean_Programs elems from_option id].
  apply Forall_map, Forall_forall. intros p _. apply valid_clean_Program.
Qed.

Lemma clean_valid_Programs (programs : slice Program) :
  valid_Programs programs -> clean_Programs programs = programs.
Proof.
  destruct programs as [l|]; [|reflexivity].
  unfold valid_Programs. cbn [clean_Programs elems from_option id].
  intros H. f_equal. induction H as [|p l Hp _ IH]; [reflexivity|].
  cbn [map]. rewrite clean_valid_Program by assumption. now rewrite IH.
Qed.

End CleanFacts.

(** Whatever bytes the strings of the programs hold, the file
    [SaveProgramsToFile] writes is one [json.Unmarshal] reads without an
    error: it gives as many programs, each with the booleans it had and
    with its strings as they were but for the bytes that are no valid
    UTF-8, each replaced by U+FFFD; what is read is valid UTF-8, it is
    what was saved when that was valid UTF-8, and saving and reading it
    once more gives it again. *)
Theorem saved_file_always_loads (fold : string -> string -> bool) (w : World)
    (programs : slice Program) (filename : string) (m : Machine) :
  exists file evs,
    SaveProgramsToFile w programs filename m
    = Ret (WriteFile_result w filename file 420)
          (after m 0 (WriteFile filename file 420 :: evs))
    /\ json.Unmarshal_Programs fold file = (clean_Programs programs, None)
    /\ valid_Programs (clean_Programs programs)
    /\ length (elems (clean_Programs programs)) = length (elems programs)
    /\ (valid_Programs programs -> clean_Programs programs = programs)
    /\ clean_Programs (clean_Programs programs) = clean_Programs programs.
Proof.
  destruct (SaveProgramsToFile_writes w programs filename
              (json.render 0 (json.encode_Programs programs)) m eq_refl)
    as [evs Hsave].
  exists (json.render 0 (json.encode_Programs programs)), evs.
  split; [exact Hsave|]. split; [apply CleanFacts.Unmarshal_MarshalIndent_any|].
  split; [apply CleanFacts.valid_clean_Programs|].
  split; [|split; [apply CleanFacts.clean_valid_Programs
                  |apply CleanFacts.clean_valid_Programs,
                         CleanFacts.valid_clean_Programs]].
  destruct programs as [l|]; [|reflexivity].
  cbn [clean_Programs elems from_option id]. apply length_map.
Qed.
